(** * EisenMatrix Calendar: the recurrence engine, the mutation engine,
      the views and the CSV exchange, embedded from [src/lib/utils.ts],
      [src/App.tsx], [src/components/TaskModal.tsx],
      [src/components/CalendarView.tsx] and the matrix grid. *)

From Stdlib Require Import ZArith Lia String Ascii List DecimalString.
From Stdlib Require DecimalPos.
From stdpp Require Import gmap strings list.

Local Open Scope Z_scope.

(* ===================================================================== *)
(** ** ECMAScript dates *)
(* ===================================================================== *)

(** A [Date] is its time value: milliseconds since 1970-01-01T00:00Z.  The
    host zone is a fixed offset [tz] (local = UTC + tz, in milliseconds);
    daylight saving and the +-8.64e15 ms clip of the time value are not
    modelled, and an Invalid Date is the [None] of an [option Date]. *)
Module JsDate.

Definition Date := Z.

Definition msPerDay : Z := 86400000.
Definition msPerWeek : Z := 7 * msPerDay.

Record civil := Civil { c_year : Z; c_month : Z; c_day : Z }.

(** Day number (days since the epoch) to proleptic Gregorian year, month
    (1..12) and day of the month: the executable form of ECMAScript's
    YearFromTime, MonthFromTime and DateFromTime. *)
Definition civil_from_days (z : Z) : civil :=
  let z' := z + 719468 in
  let era := z' / 146097 in
  let doe := z' mod 146097 in
  let yoe := (doe - doe / 1460 + doe / 36524 - doe / 146096) / 365 in
  let doy := doe - (365 * yoe + yoe / 4 - yoe / 100) in
  let mp := (5 * doy + 2) / 153 in
  let d := doy - (153 * mp + 2) / 5 + 1 in
  let m := if mp <? 10 then mp + 3 else mp - 9 in
  let y := yoe + era * 400 + (if m <=? 2 then 1 else 0) in
  Civil y m d.

(** The day number of year [y], month [m] (1..12), day [d]; linear in
    [d], so that a day past the end of the month runs into the next. *)
Definition days_from_civil (y m d : Z) : Z :=
  let y' := if m <=? 2 then y - 1 else y in
  let era := y' / 400 in
  let yoe := y' mod 400 in
  let mp := (m + 9) mod 12 in
  let doy := (153 * mp + 2) / 5 + d - 1 in
  let doe := 365 * yoe + yoe / 4 - yoe / 100 + doy in
  era * 146097 + doe - 719468.

Definition is_leap (y : Z) : bool :=
  (y mod 4 =? 0) && (negb (y mod 100 =? 0) || (y mod 400 =? 0)).

Definition days_in_month (y m : Z) : Z :=
  if m =? 2 then (if is_leap y then 29 else 28)
  else if (m =? 4) || (m =? 6) || (m =? 9) || (m =? 11) then 30
  else 31.

(** ECMAScript MakeDay: month index [mi] counts from 0 and may lie
    outside 0..11, the date [dt] may lie outside the month. *)
Definition MakeDay (y mi dt : Z) : Z :=
  days_from_civil (y + mi / 12) (mi mod 12 + 1) 1 + dt - 1.

Definition LocalTime (tz : Z) (t : Date) : Z := t + tz.
Definition UTC (tz : Z) (lt : Z) : Date := lt - tz.
Definition Day (t : Z) : Z := t / msPerDay.
Definition TimeWithinDay (t : Z) : Z := t mod msPerDay.

Definition localDay (tz : Z) (t : Date) : Z := Day (LocalTime tz t).

Definition getTime (t : Date) : Z := t.
Definition getFullYear (tz : Z) (t : Date) : Z :=
  c_year (civil_from_days (localDay tz t)).
(** [getMonth] counts from 0. *)
Definition getMonth (tz : Z) (t : Date) : Z :=
  c_month (civil_from_days (localDay tz t)) - 1.
Definition getDate (tz : Z) (t : Date) : Z :=
  c_day (civil_from_days (localDay tz t)).
(** [getDay]: 0 is Sunday; 1970-01-01 was a Thursday. *)
Definition getDay (tz : Z) (t : Date) : Z := (localDay tz t + 4) mod 7.

(** [d.setHours(0, 0, 0, 0)] and [d.setHours(23, 59, 59, 999)]. *)
Definition setHours0 (tz : Z) (t : Date) : Date :=
  UTC tz (localDay tz t * msPerDay).
Definition setHoursEnd (tz : Z) (t : Date) : Date :=
  UTC tz (localDay tz t * msPerDay + (msPerDay - 1)).

(** [d.setDate(n)] and [d.setFullYear(y, mi, dt)] keep the time of day. *)
Definition setFullYear (tz : Z) (t : Date) (y mi dt : Z) : Date :=
  UTC tz (MakeDay y mi dt * msPerDay + TimeWithinDay (LocalTime tz t)).
Definition setDate (tz : Z) (t : Date) (n : Z) : Date :=
  setFullYear tz t (getFullYear tz t) (getMonth tz t) n.
Definition setMonth (tz : Z) (t : Date) (mi dt : Z) : Date :=
  setFullYear tz t (getFullYear tz t) mi dt.

(** [new Date(y, mi, d)]: local midnight; a year 0..99 means 1900 + y. *)
Definition newDateYMD (tz : Z) (y mi d : Z) : Date :=
  let yr := if (0 <=? y) && (y <=? 99) then 1900 + y else y in
  UTC tz (MakeDay yr mi d * msPerDay).

(** [addDays(d, n)] in a zone without clock changes. *)
Definition addDays (t : Date) (n : Z) : Date := t + n * msPerDay.

(** The UTC fields read by [toISOString]. *)
Definition utcCivil (t : Date) : civil := civil_from_days (Day t).

End JsDate.
Import JsDate.

(* ===================================================================== *)
(** ** Strings and numbers of the host language *)
(* ===================================================================== *)

(** [String(n)] for an integral number. *)
Definition StringOfNumber (n : Z) : string :=
  NilZero.string_of_int (Z.to_int n).

(** [s.padStart(n, "0")]. *)
Fixpoint zeros (n : nat) : string :=
  match n with
  | O => ""
  | S k => String "0" (zeros k)
  end.

Definition padStart0 (n : nat) (s : string) : string :=
  zeros (n - String.length s) +:+ s.

Definition digitValue (c : ascii) : option Z :=
  let n := Z.of_N (N_of_ascii c) in
  if (48 <=? n) && (n <=? 57) then Some (n - 48) else None.

Fixpoint digitsValue (acc : Z) (s : string) : option Z :=
  match s with
  | EmptyString => Some acc
  | String c r =>
      match digitValue c with
      | Some v => digitsValue (10 * acc + v) r
      | None => None
      end
  end.

(** [Number(s)] on the strings this program feeds it: the empty string is
    0, an optionally signed run of decimal digits is its value, anything
    else is NaN ([None]).  Fractions, exponents, hexadecimal literals and
    surrounding white space are not modelled: they read as NaN here. *)
Definition Number (s : string) : option Z :=
  match s with
  | EmptyString => Some 0
  | String "-" (String c r) => Z.opp <$> digitsValue 0 (String c r)
  | String "+" (String c r) => digitsValue 0 (String c r)
  | _ => digitsValue 0 s
  end.

(** [s.split(sep)] for a one-character separator: the pieces between the
    separators, of which there is always at least one. *)
Definition consHead (c : ascii) (l : list string) : list string :=
  match l with
  | [] => [String c ""]
  | h :: t => String c h :: t
  end.

Fixpoint split (sep : ascii) (s : string) : list string :=
  match s with
  | EmptyString => [""]
  | String c r =>
      if Ascii.eqb c sep then "" :: split sep r
      else consHead c (split sep r)
  end.

(** [a.join(sep)]. *)
Fixpoint join (sep : string) (l : list string) : string :=
  match l with
  | [] => ""
  | [x] => x
  | x :: r => x +:+ sep +:+ join sep r
  end.

Definition LF : ascii := "010".
Definition CR : ascii := "013".
Definition DQUOTE : ascii := "034".
Definition COMMA : ascii := ",".

(** [s.split(/\r?\n/)]: a line feed ends a piece, and so does a carriage
    return directly followed by a line feed. *)
Fixpoint splitLines (s : string) : list string :=
  match s with
  | EmptyString => [""]
  | String c r =>
      if Ascii.eqb c LF then "" :: splitLines r
      else if Ascii.eqb c CR then
        match r with
        | String c' r' =>
            if Ascii.eqb c' LF then "" :: splitLines r'
            else consHead c (splitLines r)
        | EmptyString => consHead c (splitLines r)
        end
      else consHead c (splitLines r)
  end.

(** [s.includes(c)] for a character. *)
Fixpoint includes (c : ascii) (s : string) : bool :=
  match s with
  | EmptyString => false
  | String x r => Ascii.eqb x c || includes c r
  end.

(** White space as [String.prototype.trim] sees it in the 8-bit range. *)
Definition isSpace (c : ascii) : bool :=
  let n := N_of_ascii c in
  ((9 <=? n) && (n <=? 13))%N || (n =? 32)%N || (n =? 160)%N.

Fixpoint trimStart (s : string) : string :=
  match s with
  | EmptyString => ""
  | String c r => if isSpace c then trimStart r else s
  end.

Definition trim (s : string) : string :=
  String.rev (trimStart (String.rev (trimStart s))).

(** [c.toUpperCase()] on the Latin letters. *)
Definition toUpperCase (c : ascii) : ascii :=
  let n := N_of_ascii c in
  if ((97 <=? n) && (n <=? 122))%N then ascii_of_N (n - 32) else c.

(* ===================================================================== *)
(** ** The data model ([src/types.ts]) *)
(* ===================================================================== *)

Inductive Urgency := U_HIGH | U_LOW.
Inductive Importance := I_HIGH | I_LOW.
Inductive TaskStatus := TODO | IN_PROGRESS | DONE.
Inductive ViewMode := DAY | WEEK | MONTH | YEAR.
Inductive Frequency := NONE | DAILY | WEEKLY | MONTHLY | YEARLY.

#[global] Instance Urgency_eq_dec : EqDecision Urgency.
Proof. solve_decision. Defined.
#[global] Instance Importance_eq_dec : EqDecision Importance.
Proof. solve_decision. Defined.
#[global] Instance TaskStatus_eq_dec : EqDecision TaskStatus.
Proof. solve_decision. Defined.
#[global] Instance ViewMode_eq_dec : EqDecision ViewMode.
Proof. solve_decision. Defined.
#[global] Instance Frequency_eq_dec : EqDecision Frequency.
Proof. solve_decision. Defined.

(** The string value of each enum member. *)
Definition urgencyStr (u : Urgency) : string :=
  match u with U_HIGH => "High" | U_LOW => "Low" end.
Definition importanceStr (i : Importance) : string :=
  match i with I_HIGH => "High" | I_LOW => "Low" end.
Definition statusStr (s : TaskStatus) : string :=
  match s with TODO => "To Do" | IN_PROGRESS => "In Progress" | DONE => "Done" end.
Definition frequencyStr (f : Frequency) : string :=
  match f with
  | NONE => "None" | DAILY => "Daily" | WEEKLY => "Weekly"
  | MONTHLY => "Monthly" | YEARLY => "Yearly"
  end.

Module HistoryEntry.
Record t := mk {
  id : string;
  timestamp : Z;
  field : string;
  oldValue : string;
  newValue : string;
  user : string
}.
End HistoryEntry.

(** [completedAt], [completionHistory] and [recurrenceEndedAt] are the
    optional members of the interface: [None] is [undefined]. *)
Module Task.
Record t := mk {
  id : string;
  title : string;
  description : string;
  urgency : Urgency;
  importance : Importance;
  status : TaskStatus;
  date : string;
  frequency : Frequency;
  createdAt : Z;
  updatedAt : Z;
  completedAt : option Z;
  history : list HistoryEntry.t;
  completionHistory : option (gmap string TaskStatus);
  recurrenceEndedAt : option Z
}.
End Task.

Record Quadrant := {
  q_urgency : Urgency;
  q_importance : Importance;
  q_title : string;
  q_color : string
}.

(** The own members of the table [QUADRANTS]: [QUADRANTS id] is what
    [QUADRANTS[id]] reads for the four keys, and [None] stands for
    [undefined].  The table is a plain object literal, so that the lookup
    of the source also finds the members every object inherits
    ([inheritedMember]): for such an id [QUADRANTS[id]] is a function or
    the prototype, which passes a truth test and has neither [urgency] nor
    [importance].  These ids are outside the model; a statement about an
    id that is no quadrant excludes them. *)
Definition QUADRANTS (qid : string) : option Quadrant :=
  if String.eqb qid "q1" then Some (Build_Quadrant U_HIGH I_HIGH "Do First" "red")
  else if String.eqb qid "q2" then Some (Build_Quadrant U_LOW I_HIGH "Schedule" "blue")
  else if String.eqb qid "q3" then Some (Build_Quadrant U_HIGH I_LOW "Delegate" "yellow")
  else if String.eqb qid "q4" then Some (Build_Quadrant U_LOW I_LOW "Eliminate" "gray")
  else None.

(** The names under which a plain object answers with a member of
    [Object.prototype]. *)
Definition inheritedMember (qid : string) : bool :=
  bool_decide (qid ∈ ["constructor"; "hasOwnProperty"; "isPrototypeOf";
                      "propertyIsEnumerable"; "toLocaleString"; "toString";
                      "valueOf"; "__proto__"; "__defineGetter__";
                      "__defineSetter__"; "__lookupGetter__";
                      "__lookupSetter__"]).

(** Truthiness of an optional number: [undefined] and 0 are falsy. *)
Definition truthyNum (x : option Z) : bool :=
  match x with
  | Some n => negb (n =? 0)
  | None => false
  end.

(* ===================================================================== *)
(** ** date-fns, as this program calls it *)
(* ===================================================================== *)

(** date-fns is a dependency outside the repository.  The functions below
    follow its documented behaviour under the default options of the
    en-US locale, which the program never changes: weeks start on Sunday
    ([weekStartsOn] 0) and the first week of a year is the one that holds
    January 1st ([firstWeekContainsDate] 1). *)
Module DateFns.

(** A local midnight built by [setFullYear] and [setHours(0,0,0,0)]. *)
Definition dateOfYMD (tz : Z) (y mi d : Z) : Date :=
  UTC tz (MakeDay y mi d * msPerDay).

Definition startOfWeek (tz : Z) (weekStartsOn : Z) (d : Date) : Date :=
  let day := getDay tz d in
  let diff := (if day <? weekStartsOn then 7 else 0) + day - weekStartsOn in
  setHours0 tz (setDate tz d (getDate tz d - diff)).

Definition endOfWeek (tz : Z) (weekStartsOn : Z) (d : Date) : Date :=
  let day := getDay tz d in
  let diff := (if day <? weekStartsOn then -7 else 0) + 6 - (day - weekStartsOn) in
  setHoursEnd tz (setDate tz d (getDate tz d + diff)).

Definition endOfDay (tz : Z) (d : Date) : Date := setHoursEnd tz d.

Definition endOfMonth (tz : Z) (d : Date) : Date :=
  setHoursEnd tz (setFullYear tz d (getFullYear tz d) (getMonth tz d + 1) 0).

Definition endOfYear (tz : Z) (d : Date) : Date :=
  setHoursEnd tz (setFullYear tz d (getFullYear tz d + 1) 0 0).

Definition getWeekYear (tz : Z) (d : Date) : Z :=
  let year := getFullYear tz d in
  let startOfNextYear := startOfWeek tz 0 (dateOfYMD tz (year + 1) 0 1) in
  let startOfThisYear := startOfWeek tz 0 (dateOfYMD tz year 0 1) in
  if startOfNextYear <=? d then year + 1
  else if startOfThisYear <=? d then year
  else year - 1.

Definition startOfWeekYear (tz : Z) (d : Date) : Date :=
  startOfWeek tz 0 (dateOfYMD tz (getWeekYear tz d) 0 1).

(** [Math.round(a / b)] for a positive [b]. *)
Definition roundDiv (a b : Z) : Z := (2 * a + b) / (2 * b).

(** [getWeek(d)]: the local week index under the default options. *)
Definition getWeek (tz : Z) (d : Date) : Z :=
  let diff := startOfWeek tz 0 d - startOfWeekYear tz d in
  roundDiv diff msPerWeek + 1.

(** [addLeadingZeros(n, len)]. *)
Definition addLeadingZeros (n : Z) (len : nat) : string :=
  (if n <? 0 then "-" else "") +:+ padStart0 len (StringOfNumber (Z.abs n)).

(** [format(d, 'yyyy-MM')]: the token [yyyy] prints year [y <= 0] as
    [1 - y], the year of the era. *)
Definition format_yyyy_MM (tz : Z) (d : Date) : string :=
  let signedYear := getFullYear tz d in
  let year := if 0 <? signedYear then signedYear else 1 - signedYear in
  addLeadingZeros year 4 +:+ "-" +:+ addLeadingZeros (getMonth tz d + 1) 2.

(** [eachDayOfInterval({start, end})]: the local midnights of the days
    from [start]'s to [end]'s; the program only passes [start <= end],
    and the model returns no day otherwise. *)
Definition eachDayOfInterval (tz : Z) (start end_ : Date) : list Date :=
  (λ n, UTC tz (n * msPerDay)) <$>
    seqZ (localDay tz start) (localDay tz end_ - localDay tz start + 1).

End DateFns.

(* ===================================================================== *)
(** ** Calendar arithmetic and the occurrence evaluator ([src/lib/utils.ts]) *)
(* ===================================================================== *)

(** The date part of [toISOString()]: years outside 0..9999 take the
    expanded form with a sign and six digits. *)
Definition isoYearStr (y : Z) : string :=
  if (0 <=? y) && (y <=? 9999) then padStart0 4 (StringOfNumber y)
  else (if y <? 0 then "-" else "+") +:+ padStart0 6 (StringOfNumber (Z.abs y)).

(** [formatDate]: [date.toISOString().split('T')[0]], the UTC calendar day. *)
Definition formatDate (date : Date) : string :=
  let c := utcCivil date in
  isoYearStr (c_year c) +:+ "-" +:+ padStart0 2 (StringOfNumber (c_month c))
    +:+ "-" +:+ padStart0 2 (StringOfNumber (c_day c)).

(** [parseLocalTaskDate]: the first three pieces between dashes, each
    through [Number]; a missing or NaN piece gives an Invalid Date. *)
Definition parseLocalTaskDate (tz : Z) (dateString : string) : option Date :=
  match Number <$> split "-" dateString with
  | Some y :: Some m :: Some d :: _ =>
      Some (setHours0 tz (newDateYMD tz y (m - 1) d))
  | _ => None
  end.

Definition getPeriodKey (tz : Z) (date : Date) (frequency : Frequency) : string :=
  let d := date in
  let y := getFullYear tz d in
  match frequency with
  | DAILY => formatDate d
  | WEEKLY => StringOfNumber y +:+ "-W" +:+ StringOfNumber (DateFns.getWeek tz d)
  | MONTHLY => DateFns.format_yyyy_MM tz d
  | YEARLY => StringOfNumber y
  | NONE => ""
  end.

Definition getTaskStatus (tz : Z) (task : Task.t) (date : Date) : TaskStatus :=
  match Task.frequency task with
  | NONE => Task.status task
  | f =>
      let key := getPeriodKey tz date f in
      match Task.completionHistory task with
      | Some h => default TODO (h !! key)
      | None => TODO
      end
  end.

(** An Invalid [startDate] compares false with everything, so that a
    Daily task with an unreadable date is active on every day. *)
Definition isTaskActiveOnDate (tz : Z) (task : Task.t) (date : Date) : bool :=
  let ended :=
    match Task.recurrenceEndedAt task with
    | Some e =>
        let endDate := setHours0 tz e in
        let checkDate := setHours0 tz date in
        truthyNum (Some e) && (endDate <? checkDate)
    | None => false
    end in
  if ended then false
  else
    let checkDate := setHours0 tz date in
    match parseLocalTaskDate tz (Task.date task) with
    | Some startDate =>
        if checkDate <? startDate then false
        else
          match Task.frequency task with
          | DAILY => true
          | WEEKLY => getDay tz checkDate =? getDay tz startDate
          | MONTHLY => getDate tz checkDate =? getDate tz startDate
          | YEARLY =>
              (getDate tz checkDate =? getDate tz startDate)
              && (getMonth tz checkDate =? getMonth tz startDate)
          | NONE => getTime checkDate =? getTime startDate
          end
    | None =>
        match Task.frequency task with
        | DAILY => true
        | _ => false
        end
    end.

Definition getRecurrenceDeadline (tz : Z) (date : Date) (frequency : Frequency) : Date :=
  match frequency with
  | WEEKLY => DateFns.endOfWeek tz 0 date
  | MONTHLY => DateFns.endOfMonth tz date
  | _ => date
  end.

(** The program's own [startOfWeek]; [weekStartsOn] defaults to 0. *)
Definition startOfWeek (tz : Z) (date : Date) (weekStartsOn : option Z) : Date :=
  let day := getDay tz date in
  let wso := default 0 weekStartsOn in
  let diff := (if day <? wso then 7 else 0) + day - wso in
  setHours0 tz (setDate tz date (getDate tz date - diff)).

Definition startOfMonth (tz : Z) (date : Date) : Date :=
  setHours0 tz (setDate tz date 1).

Definition startOfYear (tz : Z) (date : Date) : Date :=
  setHours0 tz (setMonth tz date 0 1).

(** The week number of the spec's words: weeks run Monday to Sunday and
    week 1 is the week that holds the year's first Thursday, so a day's
    week is counted in the year of the Thursday of its own week. *)
Definition isoWeekNumber (tz : Z) (d : Date) : Z :=
  let n := localDay tz d in
  let thursday := n - (n + 3) mod 7 + 3 in
  let y := c_year (civil_from_days thursday) in
  (thursday - days_from_civil y 1 1) / 7 + 1.

(** The key the spec describes for the Weekly cadence. *)
Definition isoWeekKey (tz : Z) (d : Date) : string :=
  StringOfNumber (getFullYear tz d) +:+ "-W" +:+ StringOfNumber (isoWeekNumber tz d).

(* ===================================================================== *)
(** ** The world: the clock and the id generator *)
(* ===================================================================== *)

(** [Date.now()] and [generateId()] read the outside world.  A [World]
    holds what the successive calls return and how many were made. *)
Record World := {
  rand : nat → string;
  clock : nat → Z;
  nRand : nat;
  nClock : nat
}.

Definition M (A : Type) : Type := World → A * World.

#[global] Instance M_ret : MRet M := λ A a w, (a, w).
#[global] Instance M_bind : MBind M := λ A B f m w, let '(a, w') := m w in f a w'.

Definition generateId : M string :=
  λ w, (rand w (nRand w),
        {| rand := rand w; clock := clock w; nRand := S (nRand w); nClock := nClock w |}).

Definition DateNow : M Z :=
  λ w, (clock w (nClock w),
        {| rand := rand w; clock := clock w; nRand := nRand w; nClock := S (nClock w) |}).

(** [l.map(f)] when [f] reads the world: left to right. *)
Fixpoint mapM {A B : Type} (f : A → M B) (l : list A) : M (list B) :=
  match l with
  | [] => mret []
  | a :: r => b ← f a; bs ← mapM f r; mret (b :: bs)
  end.

(* ===================================================================== *)
(** ** Patches: [Partial<Task>] *)
(* ===================================================================== *)

(** A key of an optional member can be absent, present with [undefined],
    or present with a value; the spread tells the three apart. *)
Inductive Opt (A : Type) := Absent | Undefined | Given (a : A).
Arguments Absent {A}.
Arguments Undefined {A}.
Arguments Given {A} a.

(** For the members the interface requires, [None] is an absent key.  A
    patch with an explicit [undefined] under such a key would store an
    object that is no [Task]; those patches are outside the model. *)
Module Partial.
Record t := mk {
  id : option string;
  title : option string;
  description : option string;
  urgency : option Urgency;
  importance : option Importance;
  status : option TaskStatus;
  date : option string;
  frequency : option Frequency;
  createdAt : option Z;
  updatedAt : option Z;
  completedAt : Opt Z;
  history : option (list HistoryEntry.t);
  completionHistory : Opt (gmap string TaskStatus);
  recurrenceEndedAt : Opt Z
}.

Definition empty : t :=
  mk None None None None None None None None None None Absent None Absent Absent.
End Partial.

(** [{...old, ...patch}] at one optional key. *)
Definition spreadOpt {A : Type} (old : option A) (new : Opt A) : option A :=
  match new with
  | Absent => old
  | Undefined => None
  | Given a => Some a
  end.

(** [x || fallback] for an optional ledger and [!!x] for an optional number. *)
Definition optValue {A : Type} (x : Opt A) : option A :=
  match x with
  | Given a => Some a
  | _ => None
  end.

(** A stored task read as a patch: every key present. *)
Definition optOfOption {A : Type} (x : option A) : Opt A :=
  match x with
  | Some a => Given a
  | None => Absent
  end.

Definition partialOfTask (task : Task.t) : Partial.t :=
  {| Partial.id := Some (Task.id task);
     Partial.title := Some (Task.title task);
     Partial.description := Some (Task.description task);
     Partial.urgency := Some (Task.urgency task);
     Partial.importance := Some (Task.importance task);
     Partial.status := Some (Task.status task);
     Partial.date := Some (Task.date task);
     Partial.frequency := Some (Task.frequency task);
     Partial.createdAt := Some (Task.createdAt task);
     Partial.updatedAt := Some (Task.updatedAt task);
     Partial.completedAt := optOfOption (Task.completedAt task);
     Partial.history := Some (Task.history task);
     Partial.completionHistory := optOfOption (Task.completionHistory task);
     Partial.recurrenceEndedAt := optOfOption (Task.recurrenceEndedAt task) |}.

(* ===================================================================== *)
(** ** The mutation and history engine ([src/App.tsx]) *)
(* ===================================================================== *)

(** [key.charAt(0).toUpperCase() + key.slice(1)]. *)
Definition capitalize (key : string) : string :=
  match key with
  | EmptyString => ""
  | String c r => String (toUpperCase c) r
  end.

(** [newValue !== undefined && newValue !== oldValue], with the two
    stringified values when it holds. *)
Definition diffReq {A : Type} `{EqDecision A} (str : A → string)
    (newValue : option A) (oldValue : A) : option (string * string) :=
  match newValue with
  | Some v => if decide (v = oldValue) then None else Some (str oldValue, str v)
  | None => None
  end.

Definition strOptNumber (x : option Z) : string :=
  match x with
  | Some n => StringOfNumber n
  | None => "undefined"
  end.

Definition diffOpt (newValue : Opt Z) (oldValue : option Z) : option (string * string) :=
  match newValue with
  | Given v =>
      if decide (Some v = oldValue) then None
      else Some (strOptNumber oldValue, StringOfNumber v)
  | _ => None
  end.

(** The keys of the patch that the change detection looks at, with what
    it finds under each.  [Object.keys] lists the keys in the order of
    their insertion, which depends on the life of the object; the order
    fixed here is the one of the object literal that [handleSaveTask]
    creates, with the two optional timestamps last.  No statement below
    depends on that order.  The keys [history] and [completionHistory]
    are skipped by the source and so do not appear. *)
Definition fieldDiffs (taskData : Partial.t) (t : Task.t)
    : list (string * option (string * string)) :=
  [ ("id", diffReq (λ s, s) (Partial.id taskData) (Task.id t));
    ("title", diffReq (λ s, s) (Partial.title taskData) (Task.title t));
    ("description", diffReq (λ s, s) (Partial.description taskData) (Task.description t));
    ("status", diffReq statusStr (Partial.status taskData) (Task.status t));
    ("urgency", diffReq urgencyStr (Partial.urgency taskData) (Task.urgency t));
    ("importance", diffReq importanceStr (Partial.importance taskData) (Task.importance t));
    ("frequency", diffReq frequencyStr (Partial.frequency taskData) (Task.frequency t));
    ("date", diffReq (λ s, s) (Partial.date taskData) (Task.date t));
    ("createdAt", diffReq StringOfNumber (Partial.createdAt taskData) (Task.createdAt t));
    ("updatedAt", diffReq StringOfNumber (Partial.updatedAt taskData) (Task.updatedAt t));
    ("completedAt", diffOpt (Partial.completedAt taskData) (Task.completedAt t));
    ("recurrenceEndedAt",
       diffOpt (Partial.recurrenceEndedAt taskData) (Task.recurrenceEndedAt t)) ].

Definition pushChange (timestamp : Z) (kd : string * option (string * string))
    : M (list HistoryEntry.t) :=
  match kd.2 with
  | Some (o, n) =>
      hid ← generateId;
      mret [HistoryEntry.mk hid timestamp (capitalize kd.1) o n "User"]
  | None => mret []
  end.

Definition detectChanges (timestamp : Z) (taskData : Partial.t) (t : Task.t)
    : M (list HistoryEntry.t) :=
  cs ← mapM (pushChange timestamp) (fieldDiffs taskData t);
  mret (concat cs).

(** "Logic for completedAt on single tasks". *)
Definition newCompletedAt (timestamp : Z) (taskData : Partial.t) (t : Task.t) : option Z :=
  let single :=
    match Partial.frequency taskData with
    | Some NONE => true
    | Some _ => false
    | None => bool_decide (Task.frequency t = NONE)
    end in
  if single then
    match Partial.status taskData with
    | Some DONE =>
        if bool_decide (Task.status t = DONE) then Task.completedAt t
        else Some timestamp
    | Some _ => None
    | None => Task.completedAt t
    end
  else Task.completedAt t.

(** The object the update branch returns for the edited task:
    [{...t, ...taskData, updatedAt, completedAt, history}]. *)
Definition updateTask (timestamp : Z) (taskData : Partial.t) (t : Task.t) : M Task.t :=
  changes ← detectChanges timestamp taskData t;
  mret {| Task.id := default (Task.id t) (Partial.id taskData);
          Task.title := default (Task.title t) (Partial.title taskData);
          Task.description := default (Task.description t) (Partial.description taskData);
          Task.urgency := default (Task.urgency t) (Partial.urgency taskData);
          Task.importance := default (Task.importance t) (Partial.importance taskData);
          Task.status := default (Task.status t) (Partial.status taskData);
          Task.date := default (Task.date t) (Partial.date taskData);
          Task.frequency := default (Task.frequency t) (Partial.frequency taskData);
          Task.createdAt := default (Task.createdAt t) (Partial.createdAt taskData);
          Task.updatedAt := timestamp;
          Task.completedAt := newCompletedAt timestamp taskData t;
          Task.history := Task.history t ++ changes;
          Task.completionHistory :=
            spreadOpt (Task.completionHistory t) (Partial.completionHistory taskData);
          Task.recurrenceEndedAt :=
            spreadOpt (Task.recurrenceEndedAt t) (Partial.recurrenceEndedAt taskData) |}.

(** [s || fallback] for a string: the empty string is falsy. *)
Definition orStr (s : option string) (fallback : string) : string :=
  match s with
  | Some v => if String.eqb v "" then fallback else v
  | None => fallback
  end.

(** [editingTask && editingTask.id]: the id when it is a non-empty string. *)
Definition editingId (editingTask : option Partial.t) : option string :=
  match editingTask with
  | Some e =>
      match Partial.id e with
      | Some i => if String.eqb i "" then None else Some i
      | None => None
      end
  | None => None
  end.

Definition createTask (timestamp : Z) (currentDate : Date) (taskData : Partial.t)
    : M Task.t :=
  newId ← generateId;
  let status := default TODO (Partial.status taskData) in
  let frequency := default NONE (Partial.frequency taskData) in
  mret {| Task.id := newId;
          Task.title := orStr (Partial.title taskData) "Untitled Task";
          Task.description := orStr (Partial.description taskData) "";
          Task.status := status;
          Task.urgency := default U_LOW (Partial.urgency taskData);
          Task.importance := default I_LOW (Partial.importance taskData);
          Task.frequency := frequency;
          Task.date := orStr (Partial.date taskData) (formatDate currentDate);
          Task.createdAt := timestamp;
          Task.updatedAt := timestamp;
          Task.history := [];
          Task.completionHistory :=
            Some (default ∅ (optValue (Partial.completionHistory taskData)));
          Task.completedAt :=
            if bool_decide (status = DONE) && bool_decide (frequency = NONE)
            then Some timestamp else None;
          Task.recurrenceEndedAt := None |}.

(** The callback of [tasks.map] in the update branch. *)
Definition saveStep (timestamp : Z) (eid : string) (taskData : Partial.t) (t : Task.t)
    : M Task.t :=
  if String.eqb (Task.id t) eid then updateTask timestamp taskData t else mret t.

(** [handleSaveTask]: the state it reads ([tasks], [editingTask],
    [currentDate]) is passed in, the collection given to [setTasks] is
    returned. *)
Definition handleSaveTask (tasks : list Task.t) (editingTask : option Partial.t)
    (currentDate : Date) (taskData : Partial.t) : M (list Task.t) :=
  timestamp ← DateNow;
  match editingId editingTask with
  | Some eid => mapM (saveStep timestamp eid taskData) tasks
  | None =>
      newTask ← createTask timestamp currentDate taskData;
      mret (tasks ++ [newTask])
  end.

Definition handleDeleteTask (tasks : list Task.t) (taskId : string) : list Task.t :=
  filter (λ t, Task.id t ≠ taskId) tasks.

(** A drag that ended: the id of the dragged card and of what lies under
    it, if anything. *)
Record DragEndEvent := {
  active_id : string;
  over_id : option string
}.

(** The callback of [prevTasks.map] in [handleDragEnd]. *)
Definition relocateTask (taskId : string) (targetQuadrant : Quadrant) (t : Task.t)
    : M Task.t :=
  if String.eqb (Task.id t) taskId then
    if bool_decide (Task.urgency t = q_urgency targetQuadrant)
       && bool_decide (Task.importance t = q_importance targetQuadrant)
    then mret t
    else
      hid ← generateId;
      ts ← DateNow;
      let historyEntry :=
        HistoryEntry.mk hid ts "Matrix Position"
          (urgencyStr (Task.urgency t) +:+ " / " +:+ importanceStr (Task.importance t))
          (urgencyStr (q_urgency targetQuadrant) +:+ " / "
             +:+ importanceStr (q_importance targetQuadrant))
          "User" in
      now ← DateNow;
      mret {| Task.id := Task.id t;
              Task.title := Task.title t;
              Task.description := Task.description t;
              Task.urgency := q_urgency targetQuadrant;
              Task.importance := q_importance targetQuadrant;
              Task.status := Task.status t;
              Task.date := Task.date t;
              Task.frequency := Task.frequency t;
              Task.createdAt := Task.createdAt t;
              Task.updatedAt := now;
              Task.completedAt := Task.completedAt t;
              Task.history := Task.history t ++ [historyEntry];
              Task.completionHistory := Task.completionHistory t;
              Task.recurrenceEndedAt := Task.recurrenceEndedAt t |}
  else mret t.

(** [handleDragEnd] for a drop on a quadrant or on an id that is no member
    of [QUADRANTS] at all; see [QUADRANTS] for the ids left out. *)
Definition handleDragEnd (tasks : list Task.t) (event : DragEndEvent) : M (list Task.t) :=
  match over_id event with
  | Some over =>
      if String.eqb (active_id event) over then mret tasks
      else
        match QUADRANTS over with
        | Some targetQuadrant => mapM (relocateTask (active_id event) targetQuadrant) tasks
        | None => mret tasks
        end
  | None => mret tasks
  end.

(* ===================================================================== *)
(** ** The task editor ([src/components/TaskModal.tsx]) *)
(* ===================================================================== *)

(** The form state the editor builds when it opens on a stored task:
    [{...task, status: currentStatus, frequency, completionHistory,
    recurrenceEndedAt}]. *)
Definition formOfTask (tz : Z) (task : Task.t) (contextDate : Date) : Partial.t :=
  let p := partialOfTask task in
  {| Partial.id := Partial.id p;
     Partial.title := Partial.title p;
     Partial.description := Partial.description p;
     Partial.urgency := Partial.urgency p;
     Partial.importance := Partial.importance p;
     Partial.status := Some (getTaskStatus tz task contextDate);
     Partial.date := Partial.date p;
     Partial.frequency := Some (Task.frequency task);
     Partial.createdAt := Partial.createdAt p;
     Partial.updatedAt := Partial.updatedAt p;
     Partial.completedAt := Partial.completedAt p;
     Partial.history := Partial.history p;
     Partial.completionHistory := Given (default ∅ (Task.completionHistory task));
     Partial.recurrenceEndedAt :=
       match Task.recurrenceEndedAt task with
       | Some e => Given e
       | None => Undefined
       end |}.

(** [!!formData.recurrenceEndedAt]; every input of the form and its
    submit button carry [disabled={isSeriesEnded}]. *)
Definition isSeriesEnded (formData : Partial.t) : bool :=
  truthyNum (optValue (Partial.recurrenceEndedAt formData)).

Definition submitEnabled (formData : Partial.t) : bool :=
  negb (isSeriesEnded formData).

(** [formData.frequency && formData.frequency !== Frequency.NONE]. *)
Definition isRecurring (formData : Partial.t) : bool :=
  match Partial.frequency formData with
  | Some NONE | None => false
  | Some _ => true
  end.

Definition withSeriesFields (formData : Partial.t) (status : TaskStatus)
    (ended : Opt Z) (ledger : Opt (gmap string TaskStatus)) : Partial.t :=
  {| Partial.id := Partial.id formData;
     Partial.title := Partial.title formData;
     Partial.description := Partial.description formData;
     Partial.urgency := Partial.urgency formData;
     Partial.importance := Partial.importance formData;
     Partial.status := Some status;
     Partial.date := Partial.date formData;
     Partial.frequency := Partial.frequency formData;
     Partial.createdAt := Partial.createdAt formData;
     Partial.updatedAt := Partial.updatedAt formData;
     Partial.completedAt := Partial.completedAt formData;
     Partial.history := Partial.history formData;
     Partial.completionHistory := ledger;
     Partial.recurrenceEndedAt := ended |}.

(** The patch [handleCompleteSeries] hands to [onSave]. *)
Definition completeSeriesData (tz : Z) (formData : Partial.t) (contextDate : Date)
    (now : Z) : Partial.t :=
  let ledger :=
    match Partial.frequency formData with
    | Some NONE | None => Partial.completionHistory formData
    | Some f =>
        let key := getPeriodKey tz contextDate f in
        Given (<[key := DONE]> (default ∅ (optValue (Partial.completionHistory formData))))
    end in
  withSeriesFields formData DONE (Given now) ledger.

Definition handleCompleteSeries {A : Type} (tz : Z) (formData : Partial.t)
    (contextDate : Date) (onSave : Partial.t → M A) : M A :=
  now ← DateNow;
  onSave (completeSeriesData tz formData contextDate now).

(** The patch [handleResumeSeries] hands to [onSave]. *)
Definition resumeSeriesData (formData : Partial.t) : Partial.t :=
  withSeriesFields formData TODO Undefined (Partial.completionHistory formData).

Definition handleResumeSeries {A : Type} (formData : Partial.t)
    (onSave : Partial.t → M A) : M A :=
  onSave (resumeSeriesData formData).

(** The patch [handleSubmit] hands to [onSave].  A form without a
    frequency makes the key [""]; a form without a status would store
    [undefined] under the key, which no reader tells from a missing key,
    so the model stores nothing then. *)
Definition submitData (tz : Z) (formData : Partial.t) (contextDate : Date) : Partial.t :=
  match Partial.frequency formData with
  | Some NONE => formData
  | f =>
      let key := getPeriodKey tz contextDate (default NONE f) in
      let old := default ∅ (optValue (Partial.completionHistory formData)) in
      let ledger :=
        match Partial.status formData with
        | Some s => <[key := s]> old
        | None => old
        end in
      {| Partial.id := Partial.id formData;
         Partial.title := Partial.title formData;
         Partial.description := Partial.description formData;
         Partial.urgency := Partial.urgency formData;
         Partial.importance := Partial.importance formData;
         Partial.status := Partial.status formData;
         Partial.date := Partial.date formData;
         Partial.frequency := Partial.frequency formData;
         Partial.createdAt := Partial.createdAt formData;
         Partial.updatedAt := Partial.updatedAt formData;
         Partial.completedAt := Partial.completedAt formData;
         Partial.history := Partial.history formData;
         Partial.completionHistory := Given ledger;
         Partial.recurrenceEndedAt := Partial.recurrenceEndedAt formData |}
  end.

Definition handleSubmit {A : Type} (tz : Z) (formData : Partial.t)
    (contextDate : Date) (onSave : Partial.t → M A) : M A :=
  onSave (submitData tz formData contextDate).

(** The three buttons wired to the application's [handleSaveTask]. *)
Definition endSeries (tz : Z) (tasks : list Task.t) (editingTask : option Partial.t)
    (currentDate : Date) (formData : Partial.t) (contextDate : Date) : M (list Task.t) :=
  handleCompleteSeries tz formData contextDate (handleSaveTask tasks editingTask currentDate).

Definition resumeSeries (tasks : list Task.t) (editingTask : option Partial.t)
    (currentDate : Date) (formData : Partial.t) : M (list Task.t) :=
  handleResumeSeries formData (handleSaveTask tasks editingTask currentDate).

Definition saveForm (tz : Z) (tasks : list Task.t) (editingTask : option Partial.t)
    (currentDate : Date) (formData : Partial.t) (contextDate : Date) : M (list Task.t) :=
  handleSubmit tz formData contextDate (handleSaveTask tasks editingTask currentDate).

(* ===================================================================== *)
(** ** The view interval filter ([filteredTasks] in [src/App.tsx]) *)
(* ===================================================================== *)

Definition viewInterval (tz : Z) (viewMode : ViewMode) (currentDate : Date)
    : Date * Date :=
  match viewMode with
  | DAY => (setHours0 tz currentDate, DateFns.endOfDay tz currentDate)
  | WEEK => (startOfWeek tz currentDate (Some 1), DateFns.endOfWeek tz 1 currentDate)
  | MONTH => (setHours0 tz (setDate tz currentDate 1), DateFns.endOfMonth tz currentDate)
  | YEAR => (setHours0 tz (setMonth tz currentDate 0 1), DateFns.endOfYear tz currentDate)
  end.

(** "Optimization for Year view": [taskStart <= interval.end]. *)
Definition yearPrefilter (tz : Z) (task : Task.t) (end_ : Date) : bool :=
  match Number <$> split "-" (Task.date task) with
  | Some y :: Some m :: Some d :: _ => newDateYMD tz y (m - 1) d <=? end_
  | _ => false
  end.

(** "check if task occurs on ANY day within the interval". *)
Definition occursWithin (tz : Z) (task : Task.t) (start end_ : Date) : bool :=
  existsb (isTaskActiveOnDate tz task) (DateFns.eachDayOfInterval tz start end_).

Definition taskInView (tz : Z) (viewMode : ViewMode) (currentDate : Date)
    (task : Task.t) : bool :=
  let '(start, end_) := viewInterval tz viewMode currentDate in
  match Task.frequency task, viewMode with
  | DAILY, (WEEK | MONTH | YEAR) => false
  | WEEKLY, (MONTH | YEAR) => false
  | MONTHLY, YEAR => false
  | NONE, _ =>
      match parseLocalTaskDate tz (Task.date task) with
      | Some taskDate => (start <=? taskDate) && (taskDate <=? end_)
      | None => false
      end
  | _, YEAR => yearPrefilter tz task end_
  | _, _ => occursWithin tz task start end_
  end.

Definition withStatus (task : Task.t) (status : TaskStatus) : Task.t :=
  {| Task.id := Task.id task;
     Task.title := Task.title task;
     Task.description := Task.description task;
     Task.urgency := Task.urgency task;
     Task.importance := Task.importance task;
     Task.status := status;
     Task.date := Task.date task;
     Task.frequency := Task.frequency task;
     Task.createdAt := Task.createdAt task;
     Task.updatedAt := Task.updatedAt task;
     Task.completedAt := Task.completedAt task;
     Task.history := Task.history task;
     Task.completionHistory := Task.completionHistory task;
     Task.recurrenceEndedAt := Task.recurrenceEndedAt task |}.

Definition filteredTasks (tz : Z) (tasks : list Task.t) (viewMode : ViewMode)
    (currentDate : Date) : list Task.t :=
  (λ task, withStatus task (getTaskStatus tz task currentDate)) <$>
    filter (λ task, taskInView tz viewMode currentDate task = true) tasks.

(* ===================================================================== *)
(** ** Bulk exchange ([exportToCSV], [parseCSV], [handleMergeImport]) *)
(* ===================================================================== *)

(** [exportToCSV] and [parseCSV] are in [src/lib/utils.ts]; the merge and
    the replacement of the collection are in the revision of [App.tsx]
    that has the import and export buttons. *)

Definition csvHeaders : list string :=
  ["id"; "title"; "description"; "urgency"; "importance"; "status"; "date";
   "frequency"; "createdAt"; "updatedAt"; "completedAt"; "recurrenceEndedAt"].

(** [String((task as any)[header])], or [None] for [undefined]. *)
Definition taskMember (task : Task.t) (header : string) : option string :=
  if String.eqb header "id" then Some (Task.id task)
  else if String.eqb header "title" then Some (Task.title task)
  else if String.eqb header "description" then Some (Task.description task)
  else if String.eqb header "urgency" then Some (urgencyStr (Task.urgency task))
  else if String.eqb header "importance" then Some (importanceStr (Task.importance task))
  else if String.eqb header "status" then Some (statusStr (Task.status task))
  else if String.eqb header "date" then Some (Task.date task)
  else if String.eqb header "frequency" then Some (frequencyStr (Task.frequency task))
  else if String.eqb header "createdAt" then Some (StringOfNumber (Task.createdAt task))
  else if String.eqb header "updatedAt" then Some (StringOfNumber (Task.updatedAt task))
  else if String.eqb header "completedAt" then StringOfNumber <$> Task.completedAt task
  else if String.eqb header "recurrenceEndedAt"
       then StringOfNumber <$> Task.recurrenceEndedAt task
  else None.

(** The [replace] that doubles every double quote of a cell. *)
Fixpoint doubleQuotes (s : string) : string :=
  match s with
  | EmptyString => ""
  | String c r =>
      if Ascii.eqb c DQUOTE then String DQUOTE (String DQUOTE (doubleQuotes r))
      else String c (doubleQuotes r)
  end.

Definition csvCell (value : option string) : string :=
  match value with
  | None => ""
  | Some stringValue =>
      if includes COMMA stringValue || includes DQUOTE stringValue
         || includes LF stringValue
      then String DQUOTE (doubleQuotes stringValue) +:+ String DQUOTE ""
      else stringValue
  end.

Definition csvRow (task : Task.t) : string :=
  join "," ((λ header, csvCell (taskMember task header)) <$> csvHeaders).

Definition exportToCSV (tasks : list Task.t) : string :=
  join (String LF "") (join "," csvHeaders :: (csvRow <$> tasks)).

(** The values a parsed record can hold. *)
Inductive JsValue :=
  | VString (s : string)
  | VNumber (n : option Z)
  | VUndefined
  | VEmptyArray
  | VEmptyObject.

(** A parsed record: an object keyed by whatever the header row names. *)
Abbreviation RawTask := (gmap string JsValue).

(** The loop over the characters of one line. *)
Fixpoint parseLine (line : string) (values : list string) (current : string)
    (inQuotes : bool) : list string :=
  match line with
  | EmptyString => values ++ [current]
  | String char r =>
      if Ascii.eqb char DQUOTE then
        match r with
        | String next r' =>
            if inQuotes && Ascii.eqb next DQUOTE
            then parseLine r' values (current +:+ String DQUOTE "") inQuotes
            else parseLine r values current (negb inQuotes)
        | EmptyString => parseLine r values current (negb inQuotes)
        end
      else if Ascii.eqb char COMMA && negb inQuotes
      then parseLine r (values ++ [current]) "" inQuotes
      else parseLine r values (current +:+ String char "") inQuotes
  end.

Definition isTimestampHeader (header : string) : bool :=
  String.eqb header "createdAt" || String.eqb header "updatedAt"
  || String.eqb header "completedAt" || String.eqb header "recurrenceEndedAt".

(** [headers.forEach((header, index) => ...)]. *)
Fixpoint fillRecord (headers : list string) (values : list string) (task : RawTask)
    : RawTask :=
  match headers, values with
  | header :: hs, val :: vs =>
      let v :=
        if isTimestampHeader header
        then (if String.eqb val "" then VUndefined else VNumber (Number val))
        else VString val in
      fillRecord hs vs (<[header := v]> task)
  | _, _ => task
  end.

Definition parseCSV (csvText : string) : list RawTask :=
  let lines := splitLines csvText in
  match lines with
  | header :: (_ :: _) as rest =>
      let headers := trim <$> split COMMA header in
      (λ line,
         fillRecord headers (parseLine line [] "" false)
           (<["completionHistory" := VEmptyObject]> (<["history" := VEmptyArray]> ∅)))
      <$> filter (λ line, trim line ≠ "") (tail lines)
  | _ => []
  end.

Definition truthy (v : option JsValue) : bool :=
  match v with
  | Some (VString s) => negb (String.eqb s "")
  | Some (VNumber (Some n)) => negb (n =? 0)
  | Some (VNumber None) => false
  | Some VUndefined | None => false
  | Some VEmptyArray | Some VEmptyObject => true
  end.

(** The callback of [selectedTasks.map] in [handleMergeImport] and
    [handleReplaceImport]. *)
Definition normalizeImported (t : RawTask) : M RawTask :=
  newId ← generateId;
  created ← (if truthy (t !! "createdAt")
             then mret (default VUndefined (t !! "createdAt"))
             else n ← DateNow; mret (VNumber (Some n)));
  updated ← DateNow;
  let history := if truthy (t !! "history")
                 then default VUndefined (t !! "history") else VEmptyArray in
  let ledger := if truthy (t !! "completionHistory")
                then default VUndefined (t !! "completionHistory") else VEmptyObject in
  mret (<["completionHistory" := ledger]>
          (<["history" := history]>
             (<["updatedAt" := VNumber (Some updated)]>
                (<["createdAt" := created]>
                   (<["id" := VString newId]> t))))).

(** What [handleMergeImport] appends to the collection, and what
    [handleReplaceImport] makes the collection; both store the objects
    under an unchecked cast to [Task]. *)
Definition tasksWithIds (selectedTasks : list RawTask) : M (list RawTask) :=
  mapM normalizeImported selectedTasks.

(** The members of a stored object that the round trip compares. *)
Definition visibleFields (t : RawTask) : list (option JsValue) :=
  (λ k, t !! k) <$>
    ["title"; "description"; "urgency"; "importance"; "status"; "date"; "frequency"].

Definition visibleFieldsOfTask (task : Task.t) : list (option JsValue) :=
  [ Some (VString (Task.title task));
    Some (VString (Task.description task));
    Some (VString (urgencyStr (Task.urgency task)));
    Some (VString (importanceStr (Task.importance task)));
    Some (VString (statusStr (Task.status task)));
    Some (VString (Task.date task));
    Some (VString (frequencyStr (Task.frequency task))) ].

(** The text a cell stands for. *)
Definition cellText (value : option string) : string :=
  match value with
  | Some s => s
  | None => ""
  end.

(** No line feed in the members that are free text. *)
Definition lineFeedFree (task : Task.t) : Prop :=
  includes LF (Task.id task) = false
  ∧ includes LF (Task.title task) = false
  ∧ includes LF (Task.description task) = false
  ∧ includes LF (Task.date task) = false.

(** The record [parseCSV] should read back from the row of a task. *)
Definition rawOfTask (task : Task.t) : RawTask :=
  fillRecord csvHeaders ((λ header, cellText (taskMember task header)) <$> csvHeaders)
    (<["completionHistory" := VEmptyObject]> (<["history" := VEmptyArray]> ∅)).

(** The first and the last character of a string, tested. *)
Definition startsWith (c : ascii) (s : string) : bool :=
  match s with
  | String x _ => Ascii.eqb x c
  | EmptyString => false
  end.

Fixpoint endsWith (c : ascii) (s : string) : bool :=
  match s with
  | EmptyString => false
  | String x EmptyString => Ascii.eqb x c
  | String _ r => endsWith c r
  end.

(** A line of the exported text: no line feed inside, no carriage return
    at its end. *)
Definition plainLine (s : string) : Prop :=
  includes LF s = false ∧ endsWith CR s = false.

(* ===================================================================== *)
(** ** The calendar grid ([src/components/CalendarView.tsx]) *)
(* ===================================================================== *)

(** [calendarDays]; the Year view draws months and takes the [default]
    branch. *)
Definition calendarDays (tz : Z) (viewMode : ViewMode) (currentDate : Date)
    : list Date :=
  match viewMode with
  | MONTH =>
      let monthStart := startOfMonth tz currentDate in
      let monthEnd := DateFns.endOfMonth tz currentDate in
      let startDate := startOfWeek tz monthStart (Some 1) in
      let endDate := DateFns.endOfWeek tz 1 monthEnd in
      DateFns.eachDayOfInterval tz startDate endDate
  | WEEK =>
      let startDate := startOfWeek tz currentDate (Some 1) in
      let endDate := DateFns.endOfWeek tz 1 currentDate in
      DateFns.eachDayOfInterval tz startDate endDate
  | DAY => [currentDate]
  | YEAR => []
  end.

(** [getTasksForDate]: the tasks of one cell. *)
Definition getTasksForDate (tz : Z) (tasks : list Task.t) (date : Date)
    : list Task.t :=
  (λ task, withStatus task (getTaskStatus tz task date)) <$>
    filter (λ task, isTaskActiveOnDate tz task date = true) tasks.

(** The tasks the Year view lists under one month, [month] being one of
    the dates of [eachMonthOfInterval]: a task without recurrence by the
    year and the month its date text names, a recurring one when active
    on the 1st or on the 28th; the status is the one of the 1st. *)
Definition monthTasks (tz : Z) (tasks : list Task.t) (month : Date) : list Task.t :=
  let first := newDateYMD tz (getFullYear tz month) (getMonth tz month) 1 in
  let day28 := newDateYMD tz (getFullYear tz month) (getMonth tz month) 28 in
  (λ t, withStatus t (getTaskStatus tz t first)) <$>
    filter (λ t,
        match Task.frequency t with
        | NONE =>
            match Number <$> split "-" (Task.date t) with
            | Some y :: Some m :: _ =>
                (m - 1 =? getMonth tz month) && (y =? getFullYear tz month)
            | _ => false
            end
        | _ => isTaskActiveOnDate tz t first || isTaskActiveOnDate tz t day28
        end = true) tasks.

(* ===================================================================== *)
(** ** The matrix ([MatrixGrid]) and the add button of a quadrant ([src/App.tsx]) *)
(* ===================================================================== *)

(** [getTasksForQuadrant]; for an id under which the table has no member
    the source reads a member of [undefined] and throws: [None].  The
    ids of inherited members are left out, as in [QUADRANTS]. *)
Definition getTasksForQuadrant (tasks : list Task.t) (qid : string)
    : option (list Task.t) :=
  match QUADRANTS qid with
  | Some q =>
      Some (filter (λ t, Task.urgency t = q_urgency q
                         ∧ Task.importance t = q_importance q) tasks)
  | None => None
  end.


(** The form state the editor builds when it opens on the task under
    edit, stored or not: [{...task, status: getTaskStatus(task,
    contextDate), frequency: task.frequency || NONE, completionHistory:
    task.completionHistory || {}, recurrenceEndedAt}].  [getTaskStatus]
    returns the status member, defined or not, when the frequency is
    missing or NONE. *)
Definition formOfEditing (tz : Z) (task : Partial.t) (contextDate : Date) : Partial.t :=
  let status :=
    match Partial.frequency task with
    | Some NONE | None => Partial.status task
    | Some f =>
        let key := getPeriodKey tz contextDate f in
        Some (default TODO
                (default ∅ (optValue (Partial.completionHistory task)) !! key))
    end in
  {| Partial.id := Partial.id task;
     Partial.title := Partial.title task;
     Partial.description := Partial.description task;
     Partial.urgency := Partial.urgency task;
     Partial.importance := Partial.importance task;
     Partial.status := status;
     Partial.date := Partial.date task;
     Partial.frequency := Some (default NONE (Partial.frequency task));
     Partial.createdAt := Partial.createdAt task;
     Partial.updatedAt := Partial.updatedAt task;
     Partial.completedAt := Partial.completedAt task;
     Partial.history := Partial.history task;
     Partial.completionHistory :=
       Given (default ∅ (optValue (Partial.completionHistory task)));
     Partial.recurrenceEndedAt :=
       match optValue (Partial.recurrenceEndedAt task) with
       | Some e => Given e
       | None => Undefined
       end |}.

(* ===================================================================== *)
(** ** The frequency selector of the editor ([handleFrequencyChange]) *)
(* ===================================================================== *)

(** [s || fallback] for an optional string. *)
Definition orOptStr (s fallback : option string) : option string :=
  match s with
  | Some v => if String.eqb v "" then fallback else Some v
  | None => fallback
  end.

(** [{...prev, frequency: newFreq, date: newDate || prev.date}]. *)
Definition withFrequencyAndDate (prev : Partial.t) (newFreq : Frequency)
    (newDate : option string) : Partial.t :=
  {| Partial.id := Partial.id prev;
     Partial.title := Partial.title prev;
     Partial.description := Partial.description prev;
     Partial.urgency := Partial.urgency prev;
     Partial.importance := Partial.importance prev;
     Partial.status := Partial.status prev;
     Partial.date := orOptStr newDate (Partial.date prev);
     Partial.frequency := Some newFreq;
     Partial.createdAt := Partial.createdAt prev;
     Partial.updatedAt := Partial.updatedAt prev;
     Partial.completedAt := Partial.completedAt prev;
     Partial.history := Partial.history prev;
     Partial.completionHistory := Partial.completionHistory prev;
     Partial.recurrenceEndedAt := Partial.recurrenceEndedAt prev |}.

(** [handleFrequencyChange]: the new form state, or [None] when
    [formatDate] throws on an Invalid Date.  An empty or missing date
    makes the base date [new Date()]. *)
Definition handleFrequencyChange (tz : Z) (formData : Partial.t) (newFreq : Frequency)
    : M (option Partial.t) :=
  if bool_decide (newFreq ≠ NONE)
     && bool_decide (Some newFreq ≠ Partial.frequency formData)
  then
    baseDate ← match orOptStr (Partial.date formData) None with
               | Some s => mret (parseLocalTaskDate tz s)
               | None => now ← DateNow; mret (Some now)
               end;
    match baseDate with
    | Some b =>
        let deadline := getRecurrenceDeadline tz b newFreq in
        mret (Some (withFrequencyAndDate formData newFreq (Some (formatDate deadline))))
    | None => mret None
    end
  else mret (Some (withFrequencyAndDate formData newFreq (Partial.date formData))).

(* ===================================================================== *)
(** ** Notions used by the statements *)
(* ===================================================================== *)

(** A month number 1..12 and a day that the month of that year has. *)
Definition valid_civil (y m d : Z) : Prop :=
  1 ≤ m ≤ 12 ∧ 1 ≤ d ≤ days_in_month y m.

(** The first day of the Sunday-to-Saturday week of day number [n]. *)
Definition sundayOf (n : Z) : Z := n - (n + 4) mod 7.

(** [getWeek] on day numbers: what it returns for any instant of the
    local day [n]. *)
Definition weekOfDay (n : Z) : Z :=
  let year := c_year (civil_from_days n) in
  let weekYear :=
    if sundayOf (days_from_civil (year + 1) 1 1) <=? n then year + 1
    else if sundayOf (days_from_civil year 1 1) <=? n then year
    else year - 1 in
  (sundayOf n - sundayOf (days_from_civil weekYear 1 1)) / 7 + 1.

(** [w'] is [w] after some more calls to the clock and the generator. *)
Definition later (w w' : World) : Prop :=
  rand w' = rand w ∧ clock w' = clock w
  ∧ (nRand w ≤ nRand w')%nat ∧ (nClock w ≤ nClock w')%nat.

(** A computation that only consumes the world. *)
Definition advances {A : Type} (m : M A) : Prop := ∀ w, later w (m w).2.

(** The history log of every task of [before] is kept, in place, as the
    beginning of the log of the task at the same position of [after]. *)
Definition appendOnly (before after : list Task.t) : Prop :=
  ∀ i t, before !! i = Some t →
    ∃ t', after !! i = Some t' ∧ Task.history t `prefix_of` Task.history t'.

(** The first and the last local day of the interval of each view. *)
Definition viewDays (tz : Z) (viewMode : ViewMode) (cd : Date) : Z * Z :=
  let n := localDay tz cd in
  match viewMode with
  | DAY => (n, n)
  | WEEK =>
      (n - ((if getDay tz cd <? 1 then 7 else 0) + getDay tz cd - 1),
       n + ((if getDay tz cd <? 1 then -7 else 0) + 6 - (getDay tz cd - 1)))
  | MONTH =>
      (n - getDate tz cd + 1,
       n - getDate tz cd + days_in_month (getFullYear tz cd) (getMonth tz cd + 1))
  | YEAR =>
      (days_from_civil (getFullYear tz cd) 1 1,
       days_from_civil (getFullYear tz cd + 1) 1 1 - 1)
  end.

(** What [parseCSV] stores under the header of a timestamp for the cell
    the export writes for an optional number. *)
Definition timestampValue (x : option Z) : JsValue :=
  match x with
  | Some n => VNumber (Some n)
  | None => VUndefined
  end.

(* ===================================================================== *)
(** ** Sample data *)
(* ===================================================================== *)

Definition world0 : World :=
  {| rand := λ n, "h" +:+ StringOfNumber (Z.of_nat n);
     clock := λ n, 1704888000000 + Z.of_nat n;
     nRand := 0; nClock := 0 |}.

Definition dailyTask : Task.t :=
  Task.mk "t1" "Standup" "" U_LOW I_LOW TODO "2024-01-01" DAILY
    1704067200000 1704067200000 None [] (Some ∅) None.

Definition endedTask : Task.t :=
  Task.mk "t2" "Plan" "" U_LOW I_LOW DONE "2024-01-03" WEEKLY
    1704067200000 1704067200000 None [] (Some ∅) (Some 1704300000000).

Definition leapTask : Task.t :=
  Task.mk "t3" "Leap day" "" U_LOW I_HIGH TODO "2024-02-29" YEARLY
    1704067200000 1704067200000 None [] (Some ∅) None.

Definition closedTask : Task.t :=
  Task.mk "t4" "Review" "" U_LOW I_HIGH TODO "2020-03-10" YEARLY
    1583798400000 1583798400000 None [] (Some ∅) (Some 1609500000000).

Definition monthlyTask : Task.t :=
  Task.mk "t5" "Rent" "" U_HIGH I_HIGH TODO "2024-01-31" MONTHLY
    1704067200000 1704067200000 None [] (Some ∅) None.

Definition oneOffTask : Task.t :=
  Task.mk "t6" "Call" "" U_HIGH I_LOW TODO "2024-03-01" NONE
    1704067200000 1704067200000 None [] None (Some 1704300000000).

Definition weeklyTask : Task.t :=
  Task.mk "t8" "Report" "" U_LOW I_HIGH TODO "2024-01-03" WEEKLY
    1704067200000 1704067200000 None [] (Some (<["2024-W2" := DONE]> ∅)) None.

(** A recurring task as an earlier version stored it, with no ledger. *)
Definition legacyTask : Task.t :=
  Task.mk "t12" "Backup" "" U_LOW I_HIGH DONE "2024-01-03" WEEKLY
    1704067200000 1704067200000 None [] None None.

Definition yearlyTask : Task.t :=
  Task.mk "t9" "Renew" "" U_LOW I_HIGH TODO "2020-03-10" YEARLY
    1583798400000 1583798400000 None [] (Some ∅) None.

Definition quotedTask : Task.t :=
  Task.mk "t10" ("Say " +:+ String DQUOTE "hi" +:+ String DQUOTE ", then go")
    "a, b" U_HIGH I_HIGH IN_PROGRESS "2024-02-01" MONTHLY
    1704067200000 1704067200000 None [] (Some ∅) None.

Definition noteTask : Task.t :=
  Task.mk "t7" "Note" ("line one" +:+ String LF "line two") U_HIGH I_LOW TODO
    "2024-01-03" NONE 1704067200000 1704067200000 None [] (Some ∅) None.

Definition auditTask : Task.t :=
  Task.mk "t11" "Audit" "" U_LOW I_HIGH TODO "2020-02-28" YEARLY
    1582848000000 1582848000000 None [] (Some ∅) None.

Definition wednesday : Date := newDateYMD 0 2024 0 10.

(* ===================================================================== *)
(** ** Calendar facts *)
(* ===================================================================== *)

Ltac zdiv := Z.to_euclidean_division_equations; lia.

(** Decide the integer tests of the goal, one after the other. *)
Ltac zbool :=
  repeat match goal with
    | |- context [?a =? ?b] => destruct (Z.eqb_spec a b)
    | |- context [?a <=? ?b] => destruct (Z.leb_spec a b)
    | |- context [?a <? ?b] => destruct (Z.ltb_spec a b)
    | H : context [?a =? ?b] |- _ => destruct (Z.eqb_spec a b)
    | H : context [?a <=? ?b] |- _ => destruct (Z.leb_spec a b)
    | H : context [?a <? ?b] |- _ => destruct (Z.ltb_spec a b)
    end;
  cbn [orb andb negb] in *.

Lemma days_from_civil_from_days z :
  let c := civil_from_days z in days_from_civil (c_year c) (c_month c) (c_day c) = z.
Proof.
  unfold civil_from_days, days_from_civil. cbn [c_year c_month c_day].
  set (z' := z + 719468).
  set (era := z' / 146097). set (doe := z' mod 146097).
  set (yoe := (doe - doe / 1460 + doe / 36524 - doe / 146096) / 365).
  set (doy := doe - (365 * yoe + yoe / 4 - yoe / 100)).
  set (mp := (5 * doy + 2) / 153).
  assert (Hdoe : 0 ≤ doe ≤ 146096) by (subst doe; zdiv).
  assert (Hy : 0 ≤ yoe ≤ 399 ∧ 0 ≤ doy ≤ 365) by (subst doy yoe; zdiv).
  assert (Hmp : 0 ≤ mp ≤ 11) by (subst mp; zdiv).
  destruct (Z.ltb_spec mp 10) as [Hlt | Hge].
  - replace (mp + 3 <=? 2) with false by (symmetry; apply Z.leb_gt; lia).
    replace ((mp + 3 + 9) mod 12) with mp by zdiv.
    replace ((yoe + era * 400 + 0) / 400) with era by zdiv.
    replace ((yoe + era * 400 + 0) mod 400) with yoe by zdiv.
    subst doy doe era. zdiv.
  - replace (mp - 9 <=? 2) with true by (symmetry; apply Z.leb_le; lia).
    replace ((mp - 9 + 9) mod 12) with mp by zdiv.
    replace ((yoe + era * 400 + 1 - 1) / 400) with era by zdiv.
    replace ((yoe + era * 400 + 1 - 1) mod 400) with yoe by zdiv.
    subst doy doe era. zdiv.
Qed.

Lemma is_leap_spec y :
  is_leap y = true ↔ y mod 4 = 0 ∧ (y mod 100 ≠ 0 ∨ y mod 400 = 0).
Proof.
  unfold is_leap.
  rewrite andb_true_iff, orb_true_iff, negb_true_iff, !Z.eqb_eq, Z.eqb_neq.
  reflexivity.
Qed.

Lemma civil_from_days_valid z :
  let c := civil_from_days z in valid_civil (c_year c) (c_month c) (c_day c).
Proof.
  unfold civil_from_days, valid_civil. cbn [c_year c_month c_day].
  set (z' := z + 719468).
  set (era := z' / 146097). set (doe := z' mod 146097).
  set (yoe := (doe - doe / 1460 + doe / 36524 - doe / 146096) / 365).
  set (doy := doe - (365 * yoe + yoe / 4 - yoe / 100)).
  set (mp := (5 * doy + 2) / 153).
  set (d := doy - (153 * mp + 2) / 5 + 1).
  assert (Hdoe : 0 ≤ doe ≤ 146096) by (subst doe; zdiv).
  assert (Hy : 0 ≤ yoe ≤ 399 ∧ 0 ≤ doy ≤ 365) by (subst doy yoe; zdiv).
  assert (Hmp : 0 ≤ mp ≤ 11) by (subst mp; zdiv).
  assert (Hleap : doy = 365 → is_leap (yoe + era * 400 + 1) = true).
  { intros Hd. apply is_leap_spec. subst doy yoe. zdiv. }
  assert (Hd : 1 ≤ d ≤ 31 ∧ (mp = 1 ∨ mp = 3 ∨ mp = 6 ∨ mp = 8 → d ≤ 30)
               ∧ (mp = 11 → d ≤ 29 ∧ (d = 29 → doy = 365))).
  { subst d mp. zdiv. }
  destruct Hd as (Hd1 & Hd30 & Hfeb).
  assert (Hc : mp = 0 ∨ mp = 1 ∨ mp = 2 ∨ mp = 3 ∨ mp = 4 ∨ mp = 5 ∨ mp = 6 ∨ mp = 7
               ∨ mp = 8 ∨ mp = 9 ∨ mp = 10 ∨ mp = 11) by lia.
  clearbody d mp doy yoe era. clear Hdoe.
  unfold days_in_month.
  repeat (destruct Hc as [Hc | Hc]); subst mp; zbool; try lia.
  destruct Hfeb as [H29 Hlast]; [reflexivity|].
  destruct (is_leap (yoe + era * 400 + 1)) eqn:E.
  - lia.
  - split; [lia|]. split; [lia|].
    destruct (Z.eq_dec d 29) as [->|]; [|lia].
    specialize (Hleap (Hlast eq_refl)). discriminate.
Qed.

Lemma civil_from_days_from_civil y m d :
  valid_civil y m d → civil_from_days (days_from_civil y m d) = Civil y m d.
Proof.
  intros [Hm Hd].
  unfold civil_from_days, days_from_civil.
  set (y' := if m <=? 2 then y - 1 else y).
  set (era := y' / 400). set (yoe := y' mod 400).
  set (mp := (m + 9) mod 12).
  set (doy := (153 * mp + 2) / 5 + d - 1).
  set (doe := 365 * yoe + yoe / 4 - yoe / 100 + doy).
  assert (Hyoe : 0 ≤ yoe ≤ 399) by (subst yoe; zdiv).
  assert (Hmp : mp = if m <=? 2 then m + 9 else m - 3).
  { subst mp. destruct (Z.leb_spec m 2); zdiv. }
  assert (Hleap : is_leap (yoe + 1) = is_leap (if m <=? 2 then y else y + 1)).
  { unfold is_leap. subst yoe y'. destruct (Z.leb_spec m 2).
    - replace (((y - 1) mod 400 + 1) mod 4) with (y mod 4) by zdiv.
      replace (((y - 1) mod 400 + 1) mod 100) with (y mod 100) by zdiv.
      replace (((y - 1) mod 400 + 1) mod 400) with (y mod 400) by zdiv. reflexivity.
    - replace ((y mod 400 + 1) mod 4) with ((y + 1) mod 4) by zdiv.
      replace ((y mod 400 + 1) mod 100) with ((y + 1) mod 100) by zdiv.
      replace ((y mod 400 + 1) mod 400) with ((y + 1) mod 400) by zdiv. reflexivity. }
  assert (Hdoy : 0 ≤ doy ≤ 365 ∧ (doy = 365 → is_leap (yoe + 1) = true)
                 ∧ (5 * doy + 2) / 153 = mp ∧ doy - (153 * mp + 2) / 5 + 1 = d).
  { unfold days_in_month in Hd. rewrite Hleap.
    assert (Hc : m = 1 ∨ m = 2 ∨ m = 3 ∨ m = 4 ∨ m = 5 ∨ m = 6 ∨ m = 7 ∨ m = 8
                 ∨ m = 9 ∨ m = 10 ∨ m = 11 ∨ m = 12) by lia.
    clearbody y' era yoe. subst doy.
    repeat (destruct Hc as [Hc | Hc]); subst m; zbool; try lia; subst mp;
      try (split; [zdiv|split; [intros; exfalso; zdiv|split; zdiv]]).
    destruct (is_leap y) eqn:E;
      (split; [zdiv|split; [ intros; try reflexivity; exfalso; zdiv |split; zdiv]]). }
  destruct Hdoy as (Hdoy & Hlast & Hmp' & Hd').
  assert (Hz : (era * 146097 + doe - 719468 + 719468) / 146097 = era
               ∧ (era * 146097 + doe - 719468 + 719468) mod 146097 = doe).
  { assert (0 ≤ doe ≤ 146096).
    { subst doe. clearbody yoe doy.
      destruct (Z.eq_dec doy 365) as [E|E].
      - specialize (Hlast E). apply is_leap_spec in Hlast. zdiv.
      - zdiv. }
    clearbody doe era. zdiv. }
  destruct Hz as [-> ->].
  assert (Hyoe' : (doe - doe / 1460 + doe / 36524 - doe / 146096) / 365 = yoe).
  { subst doe. clearbody yoe doy.
    destruct (Z.eq_dec doy 365) as [E|E].
    - specialize (Hlast E). apply is_leap_spec in Hlast. zdiv.
    - clear Hlast. zdiv. }
  rewrite Hyoe'.
  replace (doe - (365 * yoe + yoe / 4 - yoe / 100)) with doy by (subst doe; lia).
  rewrite Hmp', Hd'.
  f_equal.
  - rewrite Hmp. subst yoe era y'. destruct (Z.leb_spec m 2).
    + replace (m + 9 <? 10) with false by (symmetry; apply Z.ltb_ge; lia).
      replace (m + 9 - 9 <=? 2) with true by (symmetry; apply Z.leb_le; lia). zdiv.
    + replace (m - 3 <? 10) with true by (symmetry; apply Z.ltb_lt; lia).
      replace (m - 3 + 3 <=? 2) with false by (symmetry; apply Z.leb_gt; lia). zdiv.
  - rewrite Hmp. destruct (Z.leb_spec m 2).
    + replace (m + 9 <? 10) with false by (symmetry; apply Z.ltb_ge; lia). lia.
    + replace (m - 3 <? 10) with true by (symmetry; apply Z.ltb_lt; lia). lia.
Qed.

Lemma days_from_civil_jan1_mono y y' :
  y ≤ y' → days_from_civil y 1 1 ≤ days_from_civil y' 1 1.
Proof. unfold days_from_civil. cbn. zdiv. Qed.

Lemma days_from_civil_jan1_lt y y' :
  y < y' → days_from_civil y 1 1 + 365 ≤ days_from_civil y' 1 1.
Proof. unfold days_from_civil. cbn. zdiv. Qed.

Lemma days_from_civil_within_year y m d :
  valid_civil y m d →
  days_from_civil y 1 1 ≤ days_from_civil y m d ≤ days_from_civil (y + 1) 1 1 - 1.
Proof.
  intros [Hm Hd].
  assert (Hc : m = 1 ∨ m = 2 ∨ m = 3 ∨ m = 4 ∨ m = 5 ∨ m = 6 ∨ m = 7 ∨ m = 8
               ∨ m = 9 ∨ m = 10 ∨ m = 11 ∨ m = 12) by lia.
  unfold days_in_month in Hd.
  repeat (destruct Hc as [Hc | Hc]); subst m; unfold days_from_civil; cbn in Hd |- *;
    try zdiv.
  destruct (is_leap y) eqn:E.
  - apply is_leap_spec in E. zdiv.
  - zdiv.
Qed.

Section LocalDays.
Variable tz : Z.

Lemma localDay_UTC_within n r :
  0 ≤ r < msPerDay → localDay tz (UTC tz (n * msPerDay + r)) = n.
Proof.
  intros Hr. unfold localDay, LocalTime, UTC, Day, msPerDay in *. zdiv.
Qed.

Lemma localDay_UTC n : localDay tz (UTC tz (n * msPerDay)) = n.
Proof.
  replace (n * msPerDay) with (n * msPerDay + 0) by lia.
  apply localDay_UTC_within. unfold msPerDay. lia.
Qed.

Lemma localDay_setHours0 t : localDay tz (setHours0 tz t) = localDay tz t.
Proof. apply localDay_UTC. Qed.

Lemma localDay_setHoursEnd t : localDay tz (setHoursEnd tz t) = localDay tz t.
Proof. apply localDay_UTC_within. unfold msPerDay. lia. Qed.

Lemma localDay_mono a b : a ≤ b → localDay tz a ≤ localDay tz b.
Proof. intros H. unfold localDay, LocalTime, Day, msPerDay. zdiv. Qed.

Lemma setHours0_le t : setHours0 tz t ≤ t.
Proof. unfold setHours0, localDay, LocalTime, UTC, Day, msPerDay. zdiv. Qed.

Lemma setHoursEnd_ge t : t ≤ setHoursEnd tz t.
Proof. unfold setHoursEnd, localDay, LocalTime, UTC, Day, msPerDay. zdiv. Qed.

Lemma setHours0_ltb a b :
  (setHours0 tz a <? setHours0 tz b) = (localDay tz a <? localDay tz b).
Proof.
  unfold setHours0, UTC, msPerDay.
  destruct (Z.ltb_spec (localDay tz a) (localDay tz b));
    [apply Z.ltb_lt | apply Z.ltb_ge]; lia.
Qed.

Lemma setHours0_eqb a b :
  (setHours0 tz a =? setHours0 tz b) = (localDay tz a =? localDay tz b).
Proof.
  unfold setHours0, UTC, msPerDay.
  destruct (Z.eqb_spec (localDay tz a) (localDay tz b));
    [apply Z.eqb_eq | apply Z.eqb_neq]; lia.
Qed.

Lemma setHours0_idem t : setHours0 tz (setHours0 tz t) = setHours0 tz t.
Proof. unfold setHours0 at 1. now rewrite localDay_setHours0. Qed.

Lemma getDate_setHours0 t : getDate tz (setHours0 tz t) = getDate tz t.
Proof. unfold getDate. now rewrite localDay_setHours0. Qed.

Lemma getMonth_setHours0 t : getMonth tz (setHours0 tz t) = getMonth tz t.
Proof. unfold getMonth. now rewrite localDay_setHours0. Qed.

Lemma getDay_setHours0 t : getDay tz (setHours0 tz t) = getDay tz t.
Proof. unfold getDay. now rewrite localDay_setHours0. Qed.

Lemma getFullYear_setHours0 t : getFullYear tz (setHours0 tz t) = getFullYear tz t.
Proof. unfold getFullYear. now rewrite localDay_setHours0. Qed.

(** What [parseLocalTaskDate] returns is a local midnight. *)
Lemma parseLocalTaskDate_midnight s a :
  parseLocalTaskDate tz s = Some a → setHours0 tz a = a.
Proof.
  unfold parseLocalTaskDate. intros H.
  repeat case_match; try discriminate.
  injection H as <-. apply setHours0_idem.
Qed.

Lemma getDate_days_in_month t :
  1 ≤ getDate tz t ≤ days_in_month (getFullYear tz t) (getMonth tz t + 1).
Proof.
  unfold getDate, getFullYear, getMonth.
  pose proof (civil_from_days_valid (localDay tz t)) as [_ H]. cbv zeta in H.
  replace (c_month (civil_from_days (localDay tz t)) - 1 + 1)
    with (c_month (civil_from_days (localDay tz t))) by lia.
  exact H.
Qed.

Lemma getMonth_range t : 0 ≤ getMonth tz t ≤ 11.
Proof.
  unfold getMonth.
  pose proof (civil_from_days_valid (localDay tz t)) as [H _]. cbv zeta in H. lia.
Qed.
End LocalDays.

Section Weeks.
Variable tz : Z.

Lemma days_from_civil_linear y m d :
  days_from_civil y m d = days_from_civil y m 1 + d - 1.
Proof. unfold days_from_civil. lia. Qed.

Lemma MakeDay_jan1 y : MakeDay y 0 1 = days_from_civil y 1 1.
Proof.
  unfold MakeDay. change (0 / 12) with 0. change (0 mod 12 + 1) with 1.
  replace (y + 0) with y by lia. lia.
Qed.

Lemma MakeDay_same_month n x :
  MakeDay (c_year (civil_from_days n)) (c_month (civil_from_days n) - 1) x
  = n - c_day (civil_from_days n) + x.
Proof.
  pose proof (civil_from_days_valid n) as [Hm _]. cbv zeta in Hm.
  pose proof (days_from_civil_from_days n) as Hn. cbv zeta in Hn.
  unfold MakeDay.
  replace ((c_month (civil_from_days n) - 1) / 12) with 0 by zdiv.
  replace ((c_month (civil_from_days n) - 1) mod 12 + 1)
    with (c_month (civil_from_days n)) by zdiv.
  replace (c_year (civil_from_days n) + 0) with (c_year (civil_from_days n)) by lia.
  rewrite days_from_civil_linear in Hn. lia.
Qed.

Lemma localDay_setDate t x :
  localDay tz (setDate tz t x) = localDay tz t - getDate tz t + x.
Proof.
  unfold setDate, setFullYear, getFullYear, getMonth, getDate.
  rewrite localDay_UTC_within by (unfold TimeWithinDay, msPerDay; zdiv).
  apply MakeDay_same_month.
Qed.

Lemma DateFns_startOfWeek_day t :
  DateFns.startOfWeek tz 0 t = UTC tz (sundayOf (localDay tz t) * msPerDay).
Proof.
  unfold DateFns.startOfWeek, setHours0. rewrite localDay_setDate.
  unfold sundayOf, getDay.
  replace ((localDay tz t + 4) mod 7 <? 0) with false
    by (symmetry; apply Z.ltb_ge; zdiv).
  f_equal. f_equal. lia.
Qed.

Lemma localDay_dateOfYMD y mi d :
  localDay tz (DateFns.dateOfYMD tz y mi d) = MakeDay y mi d.
Proof. apply localDay_UTC. Qed.

Lemma midnight_leb n t : (UTC tz (n * msPerDay) <=? t) = (n <=? localDay tz t).
Proof.
  unfold UTC, localDay, LocalTime, Day, msPerDay.
  destruct (Z.leb_spec n ((t + tz) / 86400000)); [apply Z.leb_le | apply Z.leb_gt]; zdiv.
Qed.

Lemma getWeekYear_day t :
  DateFns.getWeekYear tz t =
    let n := localDay tz t in
    let year := c_year (civil_from_days n) in
    if sundayOf (days_from_civil (year + 1) 1 1) <=? n then year + 1
    else if sundayOf (days_from_civil year 1 1) <=? n then year
    else year - 1.
Proof.
  unfold DateFns.getWeekYear. cbv zeta.
  rewrite !DateFns_startOfWeek_day, !localDay_dateOfYMD, !MakeDay_jan1, !midnight_leb.
  reflexivity.
Qed.

(** [getWeek] reads nothing of its argument but the local day. *)
Lemma getWeek_weekOfDay t : DateFns.getWeek tz t = weekOfDay (localDay tz t).
Proof.
  unfold DateFns.getWeek, DateFns.startOfWeekYear, weekOfDay. cbv zeta.
  rewrite !DateFns_startOfWeek_day, localDay_dateOfYMD, MakeDay_jan1, getWeekYear_day.
  cbv zeta. unfold DateFns.roundDiv, UTC, msPerWeek, msPerDay, sundayOf. zdiv.
Qed.

End Weeks.

Section Occurrence.
Variable tz : Z.

(** The evaluator once the anchor is readable and the cut-off passed. *)
Lemma isTaskActiveOnDate_open task d a :
  Task.recurrenceEndedAt task = None →
  parseLocalTaskDate tz (Task.date task) = Some a →
  isTaskActiveOnDate tz task d =
    if localDay tz d <? localDay tz a then false
    else match Task.frequency task with
         | DAILY => true
         | WEEKLY => getDay tz d =? getDay tz a
         | MONTHLY => getDate tz d =? getDate tz a
         | YEARLY => (getDate tz d =? getDate tz a) && (getMonth tz d =? getMonth tz a)
         | NONE => localDay tz d =? localDay tz a
         end.
Proof.
  intros He Ha. unfold isTaskActiveOnDate. rewrite He, Ha.
  pose proof (parseLocalTaskDate_midnight tz _ _ Ha) as Hm.
  rewrite <- Hm at 1. rewrite setHours0_ltb.
  destruct (localDay tz d <? localDay tz a); [reflexivity|].
  rewrite getDay_setHours0, getDate_setHours0, getMonth_setHours0.
  destruct (Task.frequency task); try reflexivity.
  unfold getTime. rewrite <- Hm, setHours0_eqb, localDay_setHours0. reflexivity.
Qed.

Lemma isTaskActiveOnDate_after_end task d e :
  Task.recurrenceEndedAt task = Some e → e ≠ 0 →
  localDay tz e < localDay tz d →
  isTaskActiveOnDate tz task d = false.
Proof.
  intros He Hne Hlt. unfold isTaskActiveOnDate. rewrite He.
  rewrite setHours0_ltb. cbn [truthyNum].
  replace (e =? 0) with false by (symmetry; now apply Z.eqb_neq).
  replace (localDay tz e <? localDay tz d) with true by (symmetry; now apply Z.ltb_lt).
  reflexivity.
Qed.

Lemma isTaskActiveOnDate_not_before task d a :
  parseLocalTaskDate tz (Task.date task) = Some a →
  isTaskActiveOnDate tz task d = true → localDay tz a ≤ localDay tz d.
Proof.
  intros Ha. unfold isTaskActiveOnDate. rewrite Ha.
  pose proof (parseLocalTaskDate_midnight tz _ _ Ha) as Hm.
  rewrite <- Hm at 1. rewrite setHours0_ltb.
  destruct (match Task.recurrenceEndedAt task with Some _ => _ | None => _ end);
    [discriminate|].
  destruct (Z.ltb_spec (localDay tz d) (localDay tz a)); [discriminate | lia].
Qed.

(** C5. For a Monthly task whose [recurrenceEndedAt] is unset and whose
    anchor date reads as [a]: on every date on or after the anchor day
    the task is active exactly when the day of the month is the
    anchor's; and when the anchor's day of the month is 31, the task is
    active on no date of a month that has 30 days. *)
Theorem monthly_active_same_day_of_month task a :
  Task.frequency task = MONTHLY →
  Task.recurrenceEndedAt task = None →
  parseLocalTaskDate tz (Task.date task) = Some a →
  (∀ d, localDay tz a ≤ localDay tz d →
        (isTaskActiveOnDate tz task d = true ↔ getDate tz d = getDate tz a))
  ∧ (getDate tz a = 31 →
     ∀ d, days_in_month (getFullYear tz d) (getMonth tz d + 1) = 30 →
          isTaskActiveOnDate tz task d = false).
Proof.
  intros Hf He Ha. split.
  - intros d Hd. rewrite (isTaskActiveOnDate_open _ _ _ He Ha), Hf.
    replace (localDay tz d <? localDay tz a) with false
      by (symmetry; apply Z.ltb_ge; lia).
    apply Z.eqb_eq.
  - intros H31 d H30. rewrite (isTaskActiveOnDate_open _ _ _ He Ha), Hf.
    destruct (localDay tz d <? localDay tz a); [reflexivity|].
    apply Z.eqb_neq. pose proof (getDate_days_in_month tz d). lia.
Qed.

(** C10. The cut-off of [recurrenceEndedAt] also binds a one-off task:
    with [recurrenceEndedAt] set (a timestamp the source's truth test
    accepts, so not 0) a task of frequency None is active on no date
    after the calendar day of that instant, and when that day lies
    before the anchor date it is active on no date at all. *)
Theorem ended_cutoff_applies_to_one_off task e :
  Task.frequency task = NONE →
  Task.recurrenceEndedAt task = Some e → e ≠ 0 →
  (∀ d, localDay tz e < localDay tz d → isTaskActiveOnDate tz task d = false)
  ∧ (∀ a, parseLocalTaskDate tz (Task.date task) = Some a →
          localDay tz e < localDay tz a →
          ∀ d, isTaskActiveOnDate tz task d = false).
Proof.
  intros Hf He Hne. split.
  - intros d Hd. now apply (isTaskActiveOnDate_after_end _ _ _ He Hne).
  - intros a Ha Hlt d.
    destruct (isTaskActiveOnDate tz task d) eqn:E; [|reflexivity].
    pose proof (isTaskActiveOnDate_not_before _ _ _ Ha E) as Hge.
    rewrite (isTaskActiveOnDate_after_end _ _ _ He Hne) in E by lia. discriminate.
Qed.

(** C6. [getTaskStatus] returns the stored status of a task of
    frequency None, whatever the date; for a recurring task it returns
    what the ledger holds under the period key of the date, and TODO
    otherwise: when the ledger has no such key, and when the task has no
    ledger at all, whatever its stored status. *)
Theorem getTaskStatus_resolution task d :
  (Task.frequency task = NONE → getTaskStatus tz task d = Task.status task)
  ∧ (Task.frequency task ≠ NONE →
     (∀ ledger, Task.completionHistory task = Some ledger →
        (∀ s, ledger !! getPeriodKey tz d (Task.frequency task) = Some s →
              getTaskStatus tz task d = s)
        ∧ (ledger !! getPeriodKey tz d (Task.frequency task) = None →
           getTaskStatus tz task d = TODO))
     ∧ (Task.completionHistory task = None → getTaskStatus tz task d = TODO)).
Proof.
  unfold getTaskStatus. split.
  - intros ->. reflexivity.
  - intros Hf. split.
    + intros ledger ->. destruct (Task.frequency task); [congruence| | | |];
        (split; [intros s -> | intros ->]; reflexivity).
    + intros ->. destruct (Task.frequency task); [congruence| | | |];
        reflexivity.
Qed.
End Occurrence.

Section World.

Lemma later_refl w : later w w.
Proof. unfold later. auto with lia. Qed.

Lemma later_trans w1 w2 w3 : later w1 w2 → later w2 w3 → later w1 w3.
Proof. unfold later. intros (-> & -> & ? & ?) (-> & -> & ? & ?). auto with lia. Qed.

Lemma advances_ret {A} (a : A) : advances (mret a).
Proof. intros w. apply later_refl. Qed.

Lemma advances_bind {A B} (m : M A) (f : A → M B) :
  advances m → (∀ a, advances (f a)) → advances (m ≫= f).
Proof.
  intros Hm Hf w. unfold mbind, M_bind.
  destruct (m w) as [a w1] eqn:E.
  specialize (Hm w). rewrite E in Hm.
  eapply later_trans; [exact Hm | apply Hf].
Qed.

Lemma advances_generateId : advances generateId.
Proof. intros w. unfold later, generateId. cbn. auto with lia. Qed.

Lemma advances_DateNow : advances DateNow.
Proof. intros w. unfold later, DateNow. cbn. auto with lia. Qed.

Lemma advances_mapM {A B} (f : A → M B) l :
  (∀ a, advances (f a)) → advances (mapM f l).
Proof.
  intros Hf. induction l as [|a l IH]; cbn [mapM].
  - apply advances_ret.
  - apply advances_bind; [apply Hf|]. intros b.
    apply advances_bind; [apply IH|]. intros bs. apply advances_ret.
Qed.

(** [mapM] relates the two lists position by position: each result
    comes from the argument at its place, run in some later world. *)
Lemma mapM_Forall2 {A B} (f : A → M B) l w :
  (∀ a, advances (f a)) →
  Forall2 (λ a b, ∃ w', later w w' ∧ b = (f a w').1) l (mapM f l w).1.
Proof.
  intros Hf. revert w. induction l as [|a l IH]; intros w; cbn [mapM].
  - constructor.
  - unfold mbind, M_bind, mret, M_ret.
    destruct (f a w) as [b w1] eqn:E1.
    destruct (mapM f l w1) as [bs w2] eqn:E2. cbn [fst].
    constructor.
    + exists w. split; [apply later_refl | now rewrite E1].
    + specialize (IH w1). rewrite E2 in IH. cbn [fst] in IH.
      eapply Forall2_impl; [exact IH|].
      intros a' b' (w' & Hl & ->). exists w'. split; [|reflexivity].
      eapply later_trans; [|exact Hl].
      specialize (Hf a w). now rewrite E1 in Hf.
Qed.

Lemma mapM_lookup {A B} (f : A → M B) l w i a :
  (∀ a, advances (f a)) → l !! i = Some a →
  ∃ w', later w w' ∧ (mapM f l w).1 !! i = Some (f a w').1.
Proof.
  intros Hf Hi.
  destruct (Forall2_lookup_l _ _ _ _ _ (mapM_Forall2 f l w Hf) Hi)
    as (b & Hb & w' & Hl & ->).
  eauto.
Qed.

Lemma mapM_length {A B} (f : A → M B) l w :
  (∀ a, advances (f a)) → length (mapM f l w).1 = length l.
Proof. intros Hf. symmetry. eapply Forall2_length, mapM_Forall2, Hf. Qed.

End World.

(** The steps of a proof that a computation built from [generateId],
    [DateNow], [mapM] and binds only consumes the world. *)
Ltac advance :=
  repeat first
    [ apply advances_ret
    | apply advances_generateId
    | apply advances_DateNow
    | apply advances_mapM; intros
    | apply advances_bind; [|intros]
    | progress case_match ].

Section Relocate.

Lemma advances_relocateTask taskId q t : advances (relocateTask taskId q t).
Proof. unfold relocateTask. advance. Qed.

Lemma relocateTask_other taskId q t w :
  Task.id t ≠ taskId → (relocateTask taskId q t w).1 = t.
Proof.
  intros H. unfold relocateTask.
  replace (String.eqb (Task.id t) taskId) with false
    by (symmetry; now apply String.eqb_neq).
  reflexivity.
Qed.

Lemma relocateTask_same_pair taskId q t w :
  Task.urgency t = q_urgency q → Task.importance t = q_importance q →
  (relocateTask taskId q t w).1 = t.
Proof.
  intros Hu Hi. unfold relocateTask.
  destruct (String.eqb (Task.id t) taskId); [|reflexivity].
  rewrite !bool_decide_eq_true_2 by assumption. reflexivity.
Qed.

Lemma relocateTask_moved taskId q t w :
  Task.id t = taskId →
  Task.urgency t ≠ q_urgency q ∨ Task.importance t ≠ q_importance q →
  (relocateTask taskId q t w).1 =
    {| Task.id := Task.id t;
       Task.title := Task.title t;
       Task.description := Task.description t;
       Task.urgency := q_urgency q;
       Task.importance := q_importance q;
       Task.status := Task.status t;
       Task.date := Task.date t;
       Task.frequency := Task.frequency t;
       Task.createdAt := Task.createdAt t;
       Task.updatedAt := clock w (S (nClock w));
       Task.completedAt := Task.completedAt t;
       Task.history := Task.history t ++
         [HistoryEntry.mk (rand w (nRand w)) (clock w (nClock w)) "Matrix Position"
            (urgencyStr (Task.urgency t) +:+ " / " +:+ importanceStr (Task.importance t))
            (urgencyStr (q_urgency q) +:+ " / " +:+ importanceStr (q_importance q))
            "User"];
       Task.completionHistory := Task.completionHistory t;
       Task.recurrenceEndedAt := Task.recurrenceEndedAt t |}.
Proof.
  intros Hid Hne. unfold relocateTask.
  replace (String.eqb (Task.id t) taskId) with true
    by (symmetry; now apply String.eqb_eq).
  replace (bool_decide (Task.urgency t = q_urgency q)
           && bool_decide (Task.importance t = q_importance q)) with false.
  - reflexivity.
  - symmetry. apply andb_false_iff.
    destruct Hne; [left | right]; now apply bool_decide_eq_false_2.
Qed.

(** A drop of a card on a quadrant runs [relocateTask] at every position. *)
Lemma handleDragEnd_at tasks event over target w i t :
  over_id event = Some over →
  active_id event ≠ over →
  QUADRANTS over = Some target →
  tasks !! i = Some t →
  ∃ w', later w w'
        ∧ (handleDragEnd tasks event w).1 !! i
          = Some (relocateTask (active_id event) target t w').1.
Proof.
  intros Hover Hne Hq Hi. unfold handleDragEnd. rewrite Hover.
  replace (String.eqb (active_id event) over) with false
    by (symmetry; now apply String.eqb_neq).
  rewrite Hq.
  apply mapM_lookup; [apply advances_relocateTask | exact Hi].
Qed.

(** C8. A card dropped on a quadrant: a task with another id is left as
    it is, and so is the dragged task when the quadrant carries its own
    urgency and importance; otherwise the dragged task takes the
    quadrant's urgency and importance, gets exactly one more history
    entry, named "Matrix Position" and holding the old and the new pair
    as "urgency / importance", has [updatedAt] read anew from the clock,
    and keeps every other member. *)
Theorem handleDragEnd_relocates tasks event over target w :
  over_id event = Some over →
  active_id event ≠ over →
  QUADRANTS over = Some target →
  ∀ i t, tasks !! i = Some t →
    ∃ t', (handleDragEnd tasks event w).1 !! i = Some t'
      ∧ (Task.id t ≠ active_id event → t' = t)
      ∧ (Task.urgency t = q_urgency target →
         Task.importance t = q_importance target → t' = t)
      ∧ (Task.id t = active_id event →
         Task.urgency t ≠ q_urgency target ∨ Task.importance t ≠ q_importance target →
         Task.urgency t' = q_urgency target
         ∧ Task.importance t' = q_importance target
         ∧ (∃ hid ts,
              Task.history t' = Task.history t ++
                [HistoryEntry.mk hid ts "Matrix Position"
                   (urgencyStr (Task.urgency t) +:+ " / "
                      +:+ importanceStr (Task.importance t))
                   (urgencyStr (q_urgency target) +:+ " / "
                      +:+ importanceStr (q_importance target))
                   "User"])
         ∧ (∃ k, (nClock w < k)%nat ∧ Task.updatedAt t' = clock w k)
         ∧ Task.id t' = Task.id t
         ∧ Task.title t' = Task.title t
         ∧ Task.description t' = Task.description t
         ∧ Task.status t' = Task.status t
         ∧ Task.date t' = Task.date t
         ∧ Task.frequency t' = Task.frequency t
         ∧ Task.completedAt t' = Task.completedAt t
         ∧ Task.recurrenceEndedAt t' = Task.recurrenceEndedAt t
         ∧ Task.completionHistory t' = Task.completionHistory t
         ∧ Task.createdAt t' = Task.createdAt t).
Proof.
  intros Hover Hne Hq i t Hi.
  destruct (handleDragEnd_at tasks event over target w i t Hover Hne Hq Hi)
    as (w' & Hl & Hlook).
  eexists. split; [exact Hlook|].
  split; [|split].
  - intros Hid. now apply relocateTask_other.
  - intros Hu Him. now apply relocateTask_same_pair.
  - intros Hid Hch. rewrite (relocateTask_moved _ _ _ _ Hid Hch). cbn.
    destruct Hl as (Hr & Hc & Hn1 & Hn2).
    repeat split; try reflexivity.
    + eauto.
    + exists (S (nClock w')). split; [lia | now rewrite Hc].
Qed.

End Relocate.

Section Save.

Lemma advances_pushChange ts kd : advances (pushChange ts kd).
Proof. unfold pushChange. advance. Qed.

Lemma advances_detectChanges ts p t : advances (detectChanges ts p t).
Proof. unfold detectChanges. advance; apply advances_pushChange. Qed.

Lemma advances_updateTask ts p t : advances (updateTask ts p t).
Proof. unfold updateTask. advance; apply advances_pushChange. Qed.

(** The updated task, with the detected changes left abstract. *)
Lemma updateTask_result ts p t w :
  ∃ changes,
    (updateTask ts p t w).1 =
      {| Task.id := default (Task.id t) (Partial.id p);
         Task.title := default (Task.title t) (Partial.title p);
         Task.description := default (Task.description t) (Partial.description p);
         Task.urgency := default (Task.urgency t) (Partial.urgency p);
         Task.importance := default (Task.importance t) (Partial.importance p);
         Task.status := default (Task.status t) (Partial.status p);
         Task.date := default (Task.date t) (Partial.date p);
         Task.frequency := default (Task.frequency t) (Partial.frequency p);
         Task.createdAt := default (Task.createdAt t) (Partial.createdAt p);
         Task.updatedAt := ts;
         Task.completedAt := newCompletedAt ts p t;
         Task.history := Task.history t ++ changes;
         Task.completionHistory :=
           spreadOpt (Task.completionHistory t) (Partial.completionHistory p);
         Task.recurrenceEndedAt :=
           spreadOpt (Task.recurrenceEndedAt t) (Partial.recurrenceEndedAt p) |}.
Proof.
  unfold updateTask, mbind, M_bind, mret, M_ret.
  destruct (detectChanges ts p t w) as [changes w']. exists changes. reflexivity.
Qed.

Lemma advances_saveStep ts eid p t : advances (saveStep ts eid p t).
Proof. unfold saveStep. advance; apply advances_pushChange. Qed.

(** [handleSaveTask] on an edited task, position by position. *)
Lemma handleSaveTask_update tasks editing cd p w eid i t :
  editingId editing = Some eid → tasks !! i = Some t →
  ∃ w', (handleSaveTask tasks editing cd p w).1 !! i
        = Some (saveStep (clock w (nClock w)) eid p t w').1.
Proof.
  intros He Hi. unfold handleSaveTask, mbind, M_bind. cbn [DateNow].
  rewrite He.
  destruct (mapM_lookup (saveStep (clock w (nClock w)) eid p) tasks
              {| rand := rand w; clock := clock w; nRand := nRand w;
                 nClock := S (nClock w) |} i t
              (advances_saveStep _ _ _) Hi) as (w' & _ & Hlook).
  exists w'. exact Hlook.
Qed.

Lemma appendOnly_handleSaveTask tasks editing cd p w :
  appendOnly tasks (handleSaveTask tasks editing cd p w).1.
Proof.
  intros i t Hi.
  destruct (editingId editing) as [eid|] eqn:He.
  - destruct (handleSaveTask_update tasks editing cd p w eid i t He Hi) as (w' & ->).
    eexists. split; [reflexivity|].
    unfold saveStep. destruct (String.eqb _ _).
    + destruct (updateTask_result (clock w (nClock w)) p t w') as (changes & ->).
      cbn. apply prefix_app_r. reflexivity.
    + reflexivity.
  - unfold handleSaveTask, mbind, M_bind. cbn [DateNow]. rewrite He.
    destruct (createTask _ _ _ _) as [newTask w']. cbn.
    exists t. split; [|reflexivity].
    apply lookup_app_l_Some. exact Hi.
Qed.

Lemma appendOnly_handleDragEnd tasks event w :
  appendOnly tasks (handleDragEnd tasks event w).1.
Proof.
  intros i t Hi. unfold handleDragEnd.
  assert (Hsame : ∃ t', tasks !! i = Some t'
                        ∧ Task.history t `prefix_of` Task.history t')
    by (exists t; split; [assumption | reflexivity]).
  destruct (over_id event) as [over|]; [|exact Hsame].
  destruct (String.eqb _ _); [exact Hsame|].
  destruct (QUADRANTS over) as [q|]; [|exact Hsame].
  destruct (mapM_lookup (relocateTask (active_id event) q) tasks w i t
              (advances_relocateTask _ _) Hi) as (w' & _ & ->).
  eexists. split; [reflexivity|].
  unfold relocateTask. repeat case_match; cbn; try reflexivity.
  apply prefix_app_r. reflexivity.
Qed.

(** The form opened on a stored task carries the task's own frequency. *)
Lemma formOfTask_frequency tz task contextDate :
  Partial.frequency (formOfTask tz task contextDate) = Some (Task.frequency task).
Proof. reflexivity. Qed.

(** C9. The history log only grows at its end: after a save (of any
    patch), a drag, the end or the resumption of a series, or a submit
    of the form, every task of the collection is still at its position
    and its former log is the beginning of its new log. *)
Theorem history_is_append_only tz tasks editingTask currentDate taskData event
    formData contextDate w :
  appendOnly tasks (handleSaveTask tasks editingTask currentDate taskData w).1
  ∧ appendOnly tasks (handleDragEnd tasks event w).1
  ∧ appendOnly tasks (endSeries tz tasks editingTask currentDate formData contextDate w).1
  ∧ appendOnly tasks (resumeSeries tasks editingTask currentDate formData w).1
  ∧ appendOnly tasks (saveForm tz tasks editingTask currentDate formData contextDate w).1.
Proof.
  repeat split.
  - apply appendOnly_handleSaveTask.
  - apply appendOnly_handleDragEnd.
  - unfold endSeries, handleCompleteSeries, mbind, M_bind. cbn [DateNow].
    apply appendOnly_handleSaveTask.
  - apply appendOnly_handleSaveTask.
  - apply appendOnly_handleSaveTask.
Qed.

(** C2, as the code has it.  Ending a series from a form with a
    recurring frequency [f], at contextual date [contextDate], when the
    clock reads a non-zero [now]: the edited task gets
    [recurrenceEndedAt = now], status DONE, frequency [f] and DONE in
    its ledger under the period key of [contextDate]; afterwards it is
    active on no date after the calendar day of [now], hence not on the
    day after [contextDate] when [contextDate] is not before that day. *)
Theorem endSeries_closes_after_today tz tasks editingTask currentDate formData
    contextDate w eid i t f :
  editingId editingTask = Some eid →
  tasks !! i = Some t →
  Task.id t = eid →
  Partial.frequency formData = Some f →
  f ≠ NONE →
  clock w (nClock w) ≠ 0 →
  ∃ t',
    (endSeries tz tasks editingTask currentDate formData contextDate w).1 !! i = Some t'
    ∧ Task.recurrenceEndedAt t' = Some (clock w (nClock w))
    ∧ Task.status t' = DONE
    ∧ Task.frequency t' = f
    ∧ (∃ ledger, Task.completionHistory t' = Some ledger
                 ∧ ledger !! getPeriodKey tz contextDate f = Some DONE)
    ∧ (∀ d, localDay tz (clock w (nClock w)) < localDay tz d →
            isTaskActiveOnDate tz t' d = false)
    ∧ (localDay tz (clock w (nClock w)) ≤ localDay tz contextDate →
       isTaskActiveOnDate tz t' (addDays contextDate 1) = false).
Proof.
  intros He Hi Hid Hf Hrec Hnow.
  unfold endSeries, handleCompleteSeries, mbind, M_bind. cbn [DateNow].
  set (now := clock w (nClock w)) in *.
  set (w1 := {| rand := rand w; clock := clock w; nRand := nRand w;
                nClock := S (nClock w) |}).
  destruct (handleSaveTask_update tasks editingTask currentDate
              (completeSeriesData tz formData contextDate now) w1 eid i t He Hi)
    as (w' & ->).
  eexists. split; [reflexivity|].
  unfold saveStep.
  replace (String.eqb (Task.id t) eid) with true by (symmetry; now apply String.eqb_eq).
  destruct (updateTask_result (clock w1 (nClock w1))
              (completeSeriesData tz formData contextDate now) t w') as (changes & ->).
  cbn [Task.recurrenceEndedAt Task.status Task.frequency Task.completionHistory].
  unfold completeSeriesData, withSeriesFields.
  cbn [Partial.recurrenceEndedAt Partial.status Partial.frequency
       Partial.completionHistory spreadOpt default].
  rewrite Hf. cbn [default].
  assert (Hled : (match f with
                  | NONE => Partial.completionHistory formData
                  | _ => Given (<[getPeriodKey tz contextDate f := DONE]>
                           (default ∅ (optValue (Partial.completionHistory formData))))
                  end)
                 = Given (<[getPeriodKey tz contextDate f := DONE]>
                           (default ∅ (optValue (Partial.completionHistory formData)))))
    by (destruct f; congruence).
  rewrite Hled. cbn [spreadOpt].
  assert (Hcut : ∀ t'' d, Task.recurrenceEndedAt t'' = Some now →
                   localDay tz now < localDay tz d →
                   isTaskActiveOnDate tz t'' d = false).
  { intros t'' d He'' Hd. now apply (isTaskActiveOnDate_after_end tz t'' d now). }
  repeat split.
  - eexists. split; [reflexivity|]. apply lookup_insert_eq.
  - intros d Hd. now apply Hcut.
  - intros HD. apply Hcut; [reflexivity|].
    unfold addDays, localDay, LocalTime, Day, msPerDay in *. zdiv.
Qed.

End Save.

Section Guard.

(** C3 fails on the code.  The editor blocks an ended series: for a task
    whose [recurrenceEndedAt] is set, its controls and its submit button
    are disabled ([isSeriesEnded]).  The engine does not: [handleSaveTask]
    stores every member the patch carries, and [handleDragEnd], which
    nothing disables for the card of an ended series, gives the card
    dropped on a quadrant that quadrant's urgency and importance while
    the series stays ended, where the editor has the same two fields
    locked; the task is left as it is only when the quadrant is its
    own. *)
Theorem ended_series_is_guarded_by_the_editor_only tz tasks editingTask currentDate
    contextDate taskData event over target w eid i t e :
  tasks !! i = Some t →
  Task.recurrenceEndedAt t = Some e →
  e ≠ 0 →
  submitEnabled (formOfTask tz t contextDate) = false
  ∧ (editingId editingTask = Some eid → Task.id t = eid →
     ∃ t', (handleSaveTask tasks editingTask currentDate taskData w).1 !! i = Some t'
       ∧ Task.title t' = default (Task.title t) (Partial.title taskData)
       ∧ Task.description t' = default (Task.description t) (Partial.description taskData)
       ∧ Task.urgency t' = default (Task.urgency t) (Partial.urgency taskData)
       ∧ Task.importance t' = default (Task.importance t) (Partial.importance taskData)
       ∧ Task.status t' = default (Task.status t) (Partial.status taskData)
       ∧ Task.date t' = default (Task.date t) (Partial.date taskData)
       ∧ Task.frequency t' = default (Task.frequency t) (Partial.frequency taskData)
       ∧ Task.recurrenceEndedAt t'
         = spreadOpt (Some e) (Partial.recurrenceEndedAt taskData))
  ∧ (over_id event = Some over → active_id event ≠ over →
     QUADRANTS over = Some target → Task.id t = active_id event →
     ∃ t', (handleDragEnd tasks event w).1 !! i = Some t'
       ∧ Task.urgency t' = q_urgency target
       ∧ Task.importance t' = q_importance target
       ∧ Task.recurrenceEndedAt t' = Some e
       ∧ (Task.urgency t = q_urgency target →
          Task.importance t = q_importance target → t' = t)).
Proof.
  intros Hi He Hne. split; [|split].
  - unfold submitEnabled, isSeriesEnded, formOfTask.
    cbn [Partial.recurrenceEndedAt]. rewrite He. cbn [optValue truthyNum].
    replace (e =? 0) with false by (symmetry; now apply Z.eqb_neq). reflexivity.
  - intros Hed Hid.
    destruct (handleSaveTask_update tasks editingTask currentDate taskData w eid i t
                Hed Hi) as (w' & ->).
    eexists. split; [reflexivity|]. unfold saveStep.
    replace (String.eqb (Task.id t) eid) with true
      by (symmetry; now apply String.eqb_eq).
    destruct (updateTask_result (clock w (nClock w)) taskData t w') as (changes & ->).
    cbn. rewrite He. repeat split; reflexivity.
  - intros Hover Hact Hq Hid.
    destruct (handleDragEnd_at tasks event over target w i t Hover Hact Hq Hi)
      as (w' & _ & Hlook).
    eexists. split; [exact Hlook|].
    destruct (decide (Task.urgency t = q_urgency target)) as [Hu|Hu];
      [destruct (decide (Task.importance t = q_importance target)) as [Him|Him]|].
    + rewrite (relocateTask_same_pair _ _ _ _ Hu Him). auto.
    + rewrite (relocateTask_moved _ _ _ _ Hid (or_intror Him)). cbn.
      repeat split; auto; intros; contradiction.
    + rewrite (relocateTask_moved _ _ _ _ Hid (or_introl Hu)). cbn.
      repeat split; auto; intros; contradiction.
Qed.

End Guard.

Section YearView.
Variable tz : Z.

Lemma isTaskActiveOnDate_localDay task d d' :
  localDay tz d = localDay tz d' →
  isTaskActiveOnDate tz task d = isTaskActiveOnDate tz task d'.
Proof.
  intros H. unfold isTaskActiveOnDate, setHours0. now rewrite H.
Qed.

Lemma setHours0_UTC n : setHours0 tz (UTC tz (n * msPerDay)) = UTC tz (n * msPerDay).
Proof. unfold setHours0. now rewrite localDay_UTC. Qed.

Lemma yearPrefilter_parse task e :
  yearPrefilter tz task e =
    match parseLocalTaskDate tz (Task.date task) with
    | Some a => a <=? e
    | None => false
    end.
Proof.
  unfold yearPrefilter, parseLocalTaskDate.
  repeat case_match; try reflexivity.
  unfold newDateYMD. now rewrite setHours0_UTC.
Qed.

Lemma midnight_le_iff a b :
  setHours0 tz a = a → (a ≤ b ↔ localDay tz a ≤ localDay tz b).
Proof.
  intros Ha. split.
  - apply localDay_mono.
  - intros H. rewrite <- Ha.
    pose proof (setHours0_le tz b).
    unfold setHours0, UTC, msPerDay in *. lia.
Qed.

Lemma localDay_yearStart cd :
  localDay tz (viewInterval tz YEAR cd).1 = days_from_civil (getFullYear tz cd) 1 1.
Proof.
  cbn [viewInterval fst]. rewrite localDay_setHours0.
  unfold setMonth, setFullYear. rewrite localDay_UTC_within.
  - unfold MakeDay. change (0 / 12) with 0. change (0 mod 12 + 1) with 1.
    replace (getFullYear tz cd + 0) with (getFullYear tz cd) by lia. lia.
  - unfold TimeWithinDay, msPerDay. zdiv.
Qed.

Lemma localDay_yearEnd cd :
  localDay tz (viewInterval tz YEAR cd).2
    = days_from_civil (getFullYear tz cd + 1) 1 1 - 1.
Proof.
  cbn [viewInterval snd]. unfold DateFns.endOfYear. rewrite localDay_setHoursEnd.
  unfold setFullYear. rewrite localDay_UTC_within.
  - unfold MakeDay. change (0 / 12) with 0. change (0 mod 12 + 1) with 1.
    replace (getFullYear tz cd + 1 + 0) with (getFullYear tz cd + 1) by lia. lia.
  - unfold TimeWithinDay, msPerDay. zdiv.
Qed.

Lemma yearEnd_is_day_end cd :
  (viewInterval tz YEAR cd).2
    = UTC tz (localDay tz (viewInterval tz YEAR cd).2 * msPerDay + (msPerDay - 1)).
Proof.
  cbn [viewInterval snd]. unfold DateFns.endOfYear.
  rewrite localDay_setHoursEnd. reflexivity.
Qed.

Lemma yearStart_is_midnight cd :
  setHours0 tz (viewInterval tz YEAR cd).1 = (viewInterval tz YEAR cd).1.
Proof. cbn [viewInterval fst]. apply setHours0_idem. Qed.

Lemma valid_civil_other_year y y' m d :
  valid_civil y m d → (m ≠ 2 ∨ d ≠ 29) ∨ is_leap y' = true → valid_civil y' m d.
Proof.
  unfold valid_civil, days_in_month. intros [Hm Hd] Hk. split; [exact Hm|].
  destruct (Z.eqb_spec m 2) as [->|Hm2]; [|exact Hd].
  destruct (is_leap y'); [destruct (is_leap y); lia|].
  destruct Hk as [[?|?]|?]; [lia| |discriminate].
  destruct (is_leap y); lia.
Qed.

(** C7, as the code has it.  For a Yearly task in the Year view, the
    filter [anchor <= end of the year] follows from an occurrence in the
    year; it gives an occurrence in the year when [recurrenceEndedAt] is
    unset and the anchor's month and day exist in the viewed year (the
    anchor is not a February 29th, or the viewed year is a leap year). *)
Theorem year_prefilter_against_occurrence task cd :
  Task.frequency task = YEARLY →
  ((∃ d, (viewInterval tz YEAR cd).1 ≤ d ≤ (viewInterval tz YEAR cd).2
         ∧ isTaskActiveOnDate tz task d = true) →
   taskInView tz YEAR cd task = true)
  ∧ (Task.recurrenceEndedAt task = None →
     (∀ a, parseLocalTaskDate tz (Task.date task) = Some a →
           (getMonth tz a ≠ 1 ∨ getDate tz a ≠ 29)
           ∨ is_leap (getFullYear tz cd) = true) →
     taskInView tz YEAR cd task = true →
     ∃ d, (viewInterval tz YEAR cd).1 ≤ d ≤ (viewInterval tz YEAR cd).2
          ∧ isTaskActiveOnDate tz task d = true).
Proof.
  intros Hf.
  assert (Hview : taskInView tz YEAR cd task
                  = yearPrefilter tz task (viewInterval tz YEAR cd).2).
  { unfold taskInView. destruct (viewInterval tz YEAR cd) as [s e]. now rewrite Hf. }
  rewrite Hview, yearPrefilter_parse.
  pose proof (localDay_yearStart cd) as Hs.
  pose proof (localDay_yearEnd cd) as He.
  pose proof (yearEnd_is_day_end cd) as Hend.
  pose proof (yearStart_is_midnight cd) as Hstart.
  set (start := (viewInterval tz YEAR cd).1) in *.
  set (end_ := (viewInterval tz YEAR cd).2) in *.
  set (Y := getFullYear tz cd) in *.
  split.
  - intros (d & [Hd1 Hd2] & Hact).
    destruct (parseLocalTaskDate tz (Task.date task)) as [a|] eqn:Ha.
    + pose proof (isTaskActiveOnDate_not_before tz task d a Ha Hact) as Hge.
      apply Z.leb_le.
      apply (midnight_le_iff a end_ (parseLocalTaskDate_midnight tz _ _ Ha)).
      pose proof (localDay_mono tz _ _ Hd2). lia.
    + unfold isTaskActiveOnDate in Hact. rewrite Ha, Hf in Hact.
      destruct (match Task.recurrenceEndedAt task with Some _ => _ | None => _ end);
        discriminate.
  - intros Hopen Hleap Hpre.
    destruct (parseLocalTaskDate tz (Task.date task)) as [a|] eqn:Ha; [|discriminate].
    apply Z.leb_le in Hpre.
    pose proof (parseLocalTaskDate_midnight tz _ _ Ha) as Hmid.
    pose proof (localDay_mono tz _ _ Hpre) as HA.
    specialize (Hleap a eq_refl).
    pose proof (civil_from_days_valid (localDay tz a)) as Hval. cbv zeta in Hval.
    pose proof (days_from_civil_from_days (localDay tz a)) as Hinv. cbv zeta in Hinv.
    unfold getMonth, getDate in Hleap.
    set (A := localDay tz a) in *.
    destruct (civil_from_days A) as [y0 m dd] eqn:Hciv. cbn [c_year c_month c_day] in *.
    destruct (Z_lt_le_dec y0 Y) as [Hlt | Hge].
    + (* the anchor lies in an earlier year: the same month and day of [Y] *)
      assert (Hval' : valid_civil Y m dd).
      { apply (valid_civil_other_year y0); [exact Hval|].
        destruct Hleap as [[?|?]|?]; [left; left; lia | left; right; assumption
                                     | right; assumption]. }
      pose proof (days_from_civil_within_year Y m dd Hval') as Hin.
      pose proof (days_from_civil_within_year y0 m dd Hval) as Hin0.
      pose proof (days_from_civil_jan1_mono (y0 + 1) Y ltac:(lia)) as Hmono.
      set (N := days_from_civil Y m dd) in *.
      exists (UTC tz (N * msPerDay)). split.
      * split.
        -- rewrite <- Hstart. unfold setHours0, UTC, msPerDay. lia.
        -- rewrite Hend. unfold UTC, msPerDay. lia.
      * rewrite (isTaskActiveOnDate_open tz task _ a Hopen Ha), Hf.
        rewrite localDay_UTC. fold A.
        replace (N <? A) with false by (symmetry; apply Z.ltb_ge; lia).
        unfold getDate, getMonth. rewrite localDay_UTC. fold A. rewrite Hciv.
        subst N. rewrite (civil_from_days_from_civil Y m dd Hval').
        cbn [c_day c_month]. rewrite !Z.eqb_refl. reflexivity.
    + (* the anchor lies in the viewed year: the anchor itself *)
      pose proof (days_from_civil_within_year y0 m dd Hval) as Hin0.
      pose proof (days_from_civil_jan1_mono Y y0 Hge) as Hmono.
      exists a. split.
      * split; [|exact Hpre].
        apply (midnight_le_iff start a Hstart). fold A. lia.
      * rewrite (isTaskActiveOnDate_open tz task _ a Hopen Ha), Hf.
        rewrite Z.ltb_irrefl, !Z.eqb_refl. reflexivity.
Qed.

End YearView.

Section Within.
Variable tz : Z.

(** The enumeration of the days is the definitive test of the spec. *)
Lemma occursWithin_spec task start end_ :
  start ≤ end_ →
  occursWithin tz task start end_ = true
  ↔ ∃ d, start ≤ d ≤ end_ ∧ isTaskActiveOnDate tz task d = true.
Proof.
  intros Hse. unfold occursWithin, DateFns.eachDayOfInterval.
  rewrite existsb_exists. split.
  - intros (x & Hin & Hact).
    apply list_elem_of_In, list_elem_of_fmap in Hin. destruct Hin as (n & -> & Hn).
    apply elem_of_seqZ in Hn.
    destruct (Z.eq_dec n (localDay tz start)) as [->|Hne].
    + exists start. split; [lia|].
      rewrite <- Hact. apply isTaskActiveOnDate_localDay. now rewrite localDay_UTC.
    + exists (UTC tz (n * msPerDay)). split; [|exact Hact].
      pose proof (setHours0_le tz end_). pose proof (setHours0_le tz start).
      assert (start < UTC tz (n * msPerDay)).
      { unfold UTC, localDay, LocalTime, Day, msPerDay in *. zdiv. }
      unfold setHours0, UTC, msPerDay in *. lia.
  - intros (d & [Hd1 Hd2] & Hact).
    exists (UTC tz (localDay tz d * msPerDay)). split.
    + apply list_elem_of_In, list_elem_of_fmap. exists (localDay tz d).
      split; [reflexivity|]. apply elem_of_seqZ.
      pose proof (localDay_mono tz _ _ Hd1). pose proof (localDay_mono tz _ _ Hd2). lia.
    + rewrite <- Hact. apply isTaskActiveOnDate_localDay. now rewrite localDay_UTC.
Qed.
End Within.

Section Strings.

Lemma append_cons x (a b : string) : String x a +:+ b = String x (a +:+ b).
Proof. reflexivity. Qed.

Lemma append_empty_l (b : string) : "" +:+ b = b.
Proof. reflexivity. Qed.

Lemma append_assoc (a b c : string) : (a +:+ b) +:+ c = a +:+ (b +:+ c).
Proof.
  induction a as [|x a IH]; [reflexivity|].
  now rewrite !append_cons, IH.
Qed.

Lemma append_empty_r (a : string) : a +:+ "" = a.
Proof.
  induction a as [|x a IH]; [reflexivity|].
  now rewrite append_cons, IH.
Qed.

Lemma includes_app c (a b : string) :
  includes c (a +:+ b) = includes c a || includes c b.
Proof.
  induction a as [|x a IH]; [reflexivity|].
  rewrite append_cons. simpl. rewrite IH. now rewrite orb_assoc.
Qed.

Lemma includes_rev_app c (a b : string) :
  includes c (String.rev_app a b) = includes c a || includes c b.
Proof.
  revert b. induction a as [|x a IH]; intros b; simpl; [reflexivity|].
  rewrite IH. simpl. destruct (Ascii.eqb x c), (includes c a); reflexivity.
Qed.

Lemma includes_rev c (s : string) : includes c (String.rev s) = includes c s.
Proof. unfold String.rev. rewrite includes_rev_app. simpl. apply orb_false_r. Qed.

Lemma includes_trimStart c (s : string) :
  isSpace c = false → includes c (trimStart s) = includes c s.
Proof.
  intros Hc. induction s as [|x s IH]; simpl; [reflexivity|].
  destruct (isSpace x) eqn:Hx; [|reflexivity].
  rewrite IH. destruct (Ascii.eqb_spec x c) as [->|]; [congruence | reflexivity].
Qed.

Lemma includes_trim c (s : string) :
  isSpace c = false → includes c (trim s) = includes c s.
Proof.
  intros Hc. unfold trim.
  now rewrite includes_rev, includes_trimStart, includes_rev, includes_trimStart.
Qed.

Lemma endsWith_includes c (s : string) : includes c s = false → endsWith c s = false.
Proof.
  induction s as [|x s IH]; simpl; [reflexivity|].
  intros H. apply orb_false_iff in H as [Hx Hs].
  destruct s; [exact Hx | now apply IH].
Qed.

Lemma endsWith_app_cons c (a : string) x (b : string) :
  endsWith c (a +:+ String x b) = endsWith c (String x b).
Proof.
  induction a as [|y a IH]; [reflexivity|].
  rewrite append_cons.
  cbn [endsWith]. destruct (a +:+ String x b) eqn:E; [destruct a; discriminate|].
  exact IH.
Qed.

(** The digits of a number. *)
Lemma includes_string_of_uint c d :
  digitValue c = None → includes c (NilEmpty.string_of_uint d) = false.
Proof.
  intros Hc.
  induction d; cbn [NilEmpty.string_of_uint includes]; rewrite ?IHd, ?orb_false_r;
    try reflexivity; apply Ascii.eqb_neq; intros <-; vm_compute in Hc; discriminate.
Qed.

Lemma includes_StringOfNumber c n :
  digitValue c = None → c ≠ "-"%char → includes c (StringOfNumber n) = false.
Proof.
  intros Hc Hm. unfold StringOfNumber, NilZero.string_of_int.
  destruct (Z.to_int n) as [d|d]; unfold NilZero.string_of_uint.
  - destruct d; try apply (includes_string_of_uint c _ Hc).
    cbn [includes]. rewrite orb_false_r. apply Ascii.eqb_neq. intros <-.
    vm_compute in Hc. discriminate.
  - cbn [includes]. apply orb_false_iff. split.
    + apply Ascii.eqb_neq. congruence.
    + destruct d; try apply (includes_string_of_uint c _ Hc).
      cbn [includes]. rewrite orb_false_r. apply Ascii.eqb_neq. intros <-.
      vm_compute in Hc. discriminate.
Qed.

End Strings.

Section Lines.

Lemma join_cons2 sep x y (r : list string) :
  join sep (x :: y :: r) = x +:+ sep +:+ join sep (y :: r).
Proof. reflexivity. Qed.

Lemma splitLines_cons c (r : string) :
  c ≠ LF → (c = CR → startsWith LF r = false) →
  splitLines (String c r) = consHead c (splitLines r).
Proof.
  intros Hlf Hcr. cbn [splitLines].
  replace (Ascii.eqb c LF) with false by (symmetry; now apply Ascii.eqb_neq).
  destruct (Ascii.eqb_spec c CR) as [->|Hne]; [|reflexivity].
  specialize (Hcr eq_refl). destruct r as [|c' r']; [reflexivity|].
  cbn [startsWith] in Hcr. now rewrite Hcr.
Qed.

Lemma startsWith_includes c (s : string) : includes c s = false → startsWith c s = false.
Proof.
  destruct s as [|x s]; [reflexivity|]. cbn [includes startsWith].
  intros H. now apply orb_false_iff in H as [Hx _].
Qed.

Lemma splitLines_plain (s : string) : includes LF s = false → splitLines s = [s].
Proof.
  induction s as [|c r IH]; [reflexivity|].
  cbn [includes]. intros H. apply orb_false_iff in H as [Hc Hr].
  apply Ascii.eqb_neq in Hc.
  rewrite splitLines_cons, (IH Hr); [reflexivity | exact Hc |].
  intros _. now apply startsWith_includes.
Qed.

(** A line that holds no line feed and does not end in a carriage return
    is cut off whole at the line feed that follows it. *)
Lemma splitLines_line (s rest : string) :
  includes LF s = false → endsWith CR s = false →
  splitLines (s +:+ String LF rest) = s :: splitLines rest.
Proof.
  induction s as [|c r IH]; intros Hlf Hcr.
  - rewrite append_empty_l. reflexivity.
  - cbn [includes] in Hlf. apply orb_false_iff in Hlf as [Hc Hr].
    apply Ascii.eqb_neq in Hc.
    rewrite append_cons, splitLines_cons; [|exact Hc|].
    + rewrite IH; [reflexivity | exact Hr |].
      destruct r; [reflexivity | exact Hcr].
    + intros ->. destruct r as [|c' r'].
      * cbn in Hcr. discriminate.
      * rewrite append_cons. cbn [startsWith].
        cbn [includes] in Hr. now apply orb_false_iff in Hr as [Hc' _].
Qed.

Lemma splitLines_join (ls : list string) :
  ls ≠ [] → Forall plainLine ls → splitLines (join (String LF "") ls) = ls.
Proof.
  induction ls as [|x ls IH]; [congruence|]. intros _ Hall.
  apply Forall_cons in Hall as [[Hx1 Hx2] Hall].
  destruct ls as [|y ls].
  - cbn [join]. now apply splitLines_plain.
  - rewrite join_cons2, append_cons, append_empty_l.
    rewrite splitLines_line by assumption.
    f_equal. apply IH; [discriminate | exact Hall].
Qed.

End Lines.

Section Cells.

Lemma parseLine_plain (v rest : string) values current :
  includes COMMA v = false → includes DQUOTE v = false →
  parseLine (v +:+ rest) values current false
  = parseLine rest values (current +:+ v) false.
Proof.
  revert current. induction v as [|c v IH]; intros current Hc Hq.
  - now rewrite append_empty_l, append_empty_r.
  - cbn [includes] in Hc, Hq.
    apply orb_false_iff in Hc as [Hc1 Hc2]. apply orb_false_iff in Hq as [Hq1 Hq2].
    rewrite append_cons. cbn [parseLine]. rewrite Hq1, Hc1. cbn [andb].
    rewrite (IH _ Hc2 Hq2). f_equal.
    now rewrite append_assoc, append_cons, append_empty_l.
Qed.

Lemma parseLine_in_quotes (v rest : string) values current :
  startsWith DQUOTE rest = false →
  parseLine (doubleQuotes v +:+ String DQUOTE rest) values current true
  = parseLine rest values (current +:+ v) false.
Proof.
  intros Hrest. revert current. induction v as [|c v IH]; intros current.
  - cbn [doubleQuotes]. rewrite append_empty_l, append_empty_r. cbn [parseLine].
    rewrite Ascii.eqb_refl.
    destruct rest as [|next r']; [reflexivity|].
    cbn [startsWith] in Hrest. rewrite Hrest. reflexivity.
  - cbn [doubleQuotes]. destruct (Ascii.eqb_spec c DQUOTE) as [->|Hne].
    + rewrite !append_cons. cbn [parseLine]. rewrite !Ascii.eqb_refl. cbn [andb].
      rewrite IH. f_equal. now rewrite append_assoc, append_cons, append_empty_l.
    + rewrite append_cons. cbn [parseLine].
      replace (Ascii.eqb c DQUOTE) with false by (symmetry; now apply Ascii.eqb_neq).
      rewrite andb_false_r.
      rewrite IH. f_equal. now rewrite append_assoc, append_cons, append_empty_l.
Qed.

Lemma parseLine_cell (value : option string) (rest : string) values :
  startsWith DQUOTE rest = false →
  parseLine (csvCell value +:+ rest) values "" false
  = parseLine rest values (cellText value) false.
Proof.
  intros Hrest. destruct value as [v|]; [|reflexivity].
  unfold csvCell, cellText.
  destruct (includes COMMA v || includes DQUOTE v || includes LF v) eqn:E.
  - rewrite append_assoc, !append_cons, append_empty_l.
    cbn [parseLine]. rewrite Ascii.eqb_refl. cbn [andb negb].
    assert (Hstep : ∀ r, match r with
                         | String _ _ => parseLine r values "" true
                         | EmptyString => parseLine r values "" true
                         end = parseLine r values "" true) by (intros []; reflexivity).
    rewrite Hstep, parseLine_in_quotes by exact Hrest.
    now rewrite append_empty_l.
  - apply orb_false_iff in E as [E _]. apply orb_false_iff in E as [Hc Hq].
    rewrite parseLine_plain by assumption. now rewrite append_empty_l.
Qed.

Lemma parseLine_comma (rest : string) values current :
  parseLine (String COMMA rest) values current false
  = parseLine rest (values ++ [current]) "" false.
Proof. reflexivity. Qed.

(** The loop of [parseCSV] reads back the cells of an exported row. *)
Lemma parseLine_row (cells : list (option string)) values :
  cells ≠ [] →
  parseLine (join "," (csvCell <$> cells)) values "" false
  = values ++ (cellText <$> cells).
Proof.
  revert values. induction cells as [|c cells IH]; [congruence|]. intros values _.
  destruct cells as [|c' cells].
  - cbn [fmap list_fmap join].
    rewrite <- (append_empty_r (csvCell c)), parseLine_cell by reflexivity.
    reflexivity.
  - change (csvCell <$> c :: c' :: cells)
      with (csvCell c :: csvCell c' :: (csvCell <$> cells)).
    rewrite join_cons2, parseLine_cell by reflexivity.
    change ("," +:+ join "," (csvCell c' :: (csvCell <$> cells)))
      with (String COMMA (join "," (csvCell <$> c' :: cells))).
    rewrite parseLine_comma, IH by discriminate.
    now rewrite <- app_assoc.
Qed.

End Cells.

Section RoundTrip.

Lemma includes_doubleQuotes c (v : string) :
  c ≠ DQUOTE → includes c (doubleQuotes v) = includes c v.
Proof.
  intros Hc. induction v as [|x v IH]; [reflexivity|].
  cbn [doubleQuotes]. destruct (Ascii.eqb_spec x DQUOTE) as [->|Hx];
    cbn [includes]; rewrite IH; [|reflexivity].
  replace (Ascii.eqb DQUOTE c) with false
    by (symmetry; apply Ascii.eqb_neq; congruence).
  reflexivity.
Qed.

Lemma includes_LF_csvCell (value : option string) :
  includes LF (cellText value) = false → includes LF (csvCell value) = false.
Proof.
  destruct value as [v|]; [|reflexivity]. unfold cellText, csvCell.
  intros Hv. destruct (_ || _ || _); [|exact Hv].
  rewrite append_cons. cbn [includes].
  rewrite includes_app, includes_doubleQuotes, Hv by discriminate. reflexivity.
Qed.

Lemma includes_join c (l : list string) :
  c ≠ COMMA → Forall (λ s, includes c s = false) l → includes c (join "," l) = false.
Proof.
  intros Hc. induction l as [|x l IH]; [reflexivity|]. intros Hall.
  apply Forall_cons in Hall as [Hx Hall]. destruct l as [|y l]; [exact Hx|].
  rewrite join_cons2, !includes_app, Hx, (IH Hall), orb_false_r. cbn [includes orb].
  rewrite orb_false_r. apply Ascii.eqb_neq. intros <-. now apply Hc.
Qed.

Lemma includes_COMMA_join (x y : string) (l : list string) :
  includes COMMA (join "," (x :: y :: l)) = true.
Proof.
  rewrite join_cons2, !includes_app. cbn [includes]. rewrite Ascii.eqb_refl.
  cbn [orb]. apply orb_true_r.
Qed.

Lemma endsWith_join c (l : list string) :
  c ≠ COMMA → endsWith c (List.last l "") = false → endsWith c (join "," l) = false.
Proof.
  intros Hc. induction l as [|x l IH]; [reflexivity|]. intros Hlast.
  destruct l as [|y l]; [exact Hlast|].
  rewrite join_cons2, append_cons, append_empty_l, endsWith_app_cons.
  cbn [endsWith]. destruct (join "," (y :: l)) eqn:E.
  - apply Ascii.eqb_neq. intros <-. now apply Hc.
  - apply IH. exact Hlast.
Qed.

Lemma csvCell_number n : csvCell (Some (StringOfNumber n)) = StringOfNumber n.
Proof.
  unfold csvCell.
  rewrite !includes_StringOfNumber by (vm_compute; congruence). reflexivity.
Qed.

Lemma trim_nonempty (s : string) : includes COMMA s = true → trim s ≠ "".
Proof.
  intros H E. rewrite <- (includes_trim COMMA s) in H by reflexivity.
  rewrite E in H. discriminate.
Qed.

Lemma filter_all {A} (P : A → Prop) `{∀ x, Decision (P x)} (l : list A) :
  Forall P l → filter P l = l.
Proof.
  induction 1 as [|x l Hx Hl IH]; [reflexivity|].
  rewrite filter_cons_True by exact Hx. now rewrite IH.
Qed.

(** The cells of a row, as texts. *)
Lemma taskMember_line_feed_free task header :
  lineFeedFree task → includes LF (cellText (taskMember task header)) = false.
Proof.
  intros (Hid & Htitle & Hdesc & Hdate). unfold taskMember.
  repeat (match goal with |- context [String.eqb header ?k] =>
            destruct (String.eqb header k) end);
    cbn [cellText]; try assumption; try reflexivity.
  - now destruct (Task.urgency task).
  - now destruct (Task.importance task).
  - now destruct (Task.status task).
  - now destruct (Task.frequency task).
  - apply includes_StringOfNumber; [reflexivity | discriminate].
  - apply includes_StringOfNumber; [reflexivity | discriminate].
  - destruct (Task.completedAt task); [|reflexivity].
    apply includes_StringOfNumber; [reflexivity | discriminate].
  - destruct (Task.recurrenceEndedAt task); [|reflexivity].
    apply includes_StringOfNumber; [reflexivity | discriminate].
Qed.

Lemma csvRow_plainLine task : lineFeedFree task → plainLine (csvRow task).
Proof.
  intros Hfree. unfold plainLine, csvRow. split.
  - apply includes_join; [discriminate|].
    apply Forall_fmap, Forall_forall. intros header _.
    apply includes_LF_csvCell, taskMember_line_feed_free, Hfree.
  - apply endsWith_join; [discriminate|].
    change (List.last ((λ header, csvCell (taskMember task header)) <$> csvHeaders) "")
      with (csvCell (StringOfNumber <$> Task.recurrenceEndedAt task)).
    destruct (Task.recurrenceEndedAt task) as [n|]; [|reflexivity].
    cbn [fmap option_fmap option_map]. rewrite csvCell_number.
    apply endsWith_includes, includes_StringOfNumber; [reflexivity | discriminate].
Qed.

Lemma csvRow_has_comma task : includes COMMA (csvRow task) = true.
Proof. apply includes_COMMA_join. Qed.

Lemma parseLine_csvRow task :
  parseLine (csvRow task) [] "" false
  = (λ header, cellText (taskMember task header)) <$> csvHeaders.
Proof.
  unfold csvRow.
  change ((λ header, csvCell (taskMember task header)) <$> csvHeaders)
    with (csvCell <$> (taskMember task <$> csvHeaders)).
  rewrite parseLine_row by discriminate. reflexivity.
Qed.

(** What [parseCSV] reads from the export of tasks without line feeds. *)
Lemma parseCSV_exportToCSV tasks :
  Forall lineFeedFree tasks → parseCSV (exportToCSV tasks) = rawOfTask <$> tasks.
Proof.
  intros Hfree. unfold exportToCSV, parseCSV.
  rewrite splitLines_join; [|discriminate|].
  - destruct tasks as [|t tasks]; [reflexivity|].
    cbn [fmap list_fmap tail].
    replace (trim <$> split COMMA (join "," csvHeaders)) with csvHeaders
      by (vm_compute; reflexivity).
    rewrite filter_all.
    + change (rawOfTask t :: (rawOfTask <$> tasks)) with (rawOfTask <$> t :: tasks).
      change (csvRow t :: (csvRow <$> tasks)) with (csvRow <$> t :: tasks).
      rewrite <- list_fmap_compose. apply list_fmap_ext.
      intros i t' _. cbn [compose]. unfold rawOfTask. now rewrite parseLine_csvRow.
    + change (csvRow t :: (csvRow <$> tasks)) with (csvRow <$> t :: tasks).
      apply Forall_fmap, Forall_forall. intros t' _.
      apply trim_nonempty, csvRow_has_comma.
  - apply Forall_cons. split; [split; vm_compute; reflexivity|].
    apply Forall_fmap. eapply Forall_impl; [exact Hfree|].
    intros t Ht. now apply csvRow_plainLine.
Qed.

Lemma visibleFields_rawOfTask task :
  visibleFields (rawOfTask task) = visibleFieldsOfTask task.
Proof. destruct task. vm_compute. reflexivity. Qed.

Lemma advances_normalizeImported t : advances (normalizeImported t).
Proof. unfold normalizeImported. advance. Qed.

(** The merge replaces the identity, the timestamps and the two logs, and
    nothing that is shown. *)
Lemma visibleFields_normalizeImported (t : RawTask) w :
  visibleFields (normalizeImported t w).1 = visibleFields t.
Proof.
  unfold normalizeImported, mbind, M_bind, mret, M_ret, generateId, DateNow.
  destruct (truthy (t !! "createdAt")); cbn [fst snd];
    unfold visibleFields; cbn [fmap list_fmap];
    rewrite !lookup_insert_ne by discriminate; reflexivity.
Qed.

(** X30. The round trip of the visible members, for tasks whose texts hold
    no line feed: export, import and merge give back title, description,
    urgency, importance, status, date and frequency as they were, commas
    and double quotes included. *)
Theorem csv_round_trip_without_line_feeds tasks w :
  Forall lineFeedFree tasks →
  Forall2 (λ task stored, visibleFields stored = visibleFieldsOfTask task)
    tasks (tasksWithIds (parseCSV (exportToCSV tasks)) w).1.
Proof.
  intros Hfree. rewrite (parseCSV_exportToCSV tasks Hfree). unfold tasksWithIds.
  pose proof (mapM_Forall2 normalizeImported (rawOfTask <$> tasks) w
                advances_normalizeImported) as H.
  apply Forall2_fmap_l in H. eapply Forall2_impl; [exact H|].
  intros task stored (w' & _ & ->). cbn [compose].
  rewrite visibleFields_normalizeImported. apply visibleFields_rawOfTask.
Qed.

End RoundTrip.

(** C1. The key of the Weekly cadence carries the week number of
    date-fns [getWeek], not the ISO-8601 one.  In every zone and at every
    time of the day: on Wednesday 2024-01-10 both give "2024-W2"; on
    Sunday 2024-01-07 the code gives "2024-W2" where the ISO week is 1;
    on Wednesday 2021-06-16 the code gives "2021-W25" where the ISO week
    is 24. *)
Theorem weekly_key_is_not_the_iso_week tz t :
  (localDay tz t = days_from_civil 2024 1 10 →
   getPeriodKey tz t WEEKLY = "2024-W2" ∧ isoWeekKey tz t = "2024-W2")
  ∧ (localDay tz t = days_from_civil 2024 1 7 →
     getPeriodKey tz t WEEKLY = "2024-W2" ∧ isoWeekKey tz t = "2024-W1")
  ∧ (localDay tz t = days_from_civil 2021 6 16 →
     getPeriodKey tz t WEEKLY = "2021-W25" ∧ isoWeekKey tz t = "2021-W24").
Proof.
  unfold getPeriodKey, isoWeekKey, isoWeekNumber, getFullYear.
  rewrite getWeek_weekOfDay.
  split; [|split]; intros ->; split; vm_compute; reflexivity.
Qed.

(** Against C2 as stated: a Daily series ended on 2024-01-10 from the
    form opened on the cell of 2024-01-03 is still active on 2024-01-04. *)
Lemma endSeries_on_a_past_date :
  (λ t', (Task.recurrenceEndedAt t', Task.status t',
          isTaskActiveOnDate 0 t' (addDays (newDateYMD 0 2024 0 3) 1)))
    <$> (endSeries 0 [dailyTask] (Some (partialOfTask dailyTask))
           (newDateYMD 0 2024 0 3)
           (formOfTask 0 dailyTask (newDateYMD 0 2024 0 3))
           (newDateYMD 0 2024 0 3) world0).1
  = [(Some 1704888000000, DONE, true)].
Proof. vm_compute. reflexivity. Qed.

(** Against C3 as stated: an ended series is changed by a drag onto
    another quadrant and by a save that renames it. *)
Lemma ended_series_is_mutated :
  truthyNum (Task.recurrenceEndedAt endedTask) = true
  ∧ (handleDragEnd [endedTask] {| active_id := "t2"; over_id := Some "q1" |} world0).1
    ≠ [endedTask]
  ∧ (handleSaveTask [endedTask] (Some (partialOfTask endedTask)) (newDateYMD 0 2024 0 10)
       {| Partial.id := None; Partial.title := Some "Renamed";
          Partial.description := None; Partial.urgency := None;
          Partial.importance := None; Partial.status := None; Partial.date := None;
          Partial.frequency := None; Partial.createdAt := None;
          Partial.updatedAt := None; Partial.completedAt := Absent;
          Partial.history := None; Partial.completionHistory := Absent;
          Partial.recurrenceEndedAt := Absent |} world0).1
    ≠ [endedTask].
Proof.
  split; [vm_compute; reflexivity|]. split; intros H.
  - apply (f_equal (fmap Task.urgency)) in H. vm_compute in H. discriminate.
  - apply (f_equal (fmap Task.title)) in H. vm_compute in H. discriminate.
Qed.

(** Against C7 as stated: in the Year view of 2025 the filter keeps a
    Yearly task anchored on 2024-02-29 and a Yearly series ended in 2021,
    and neither has an occurrence in 2025. *)
Lemma year_prefilter_overshoots :
  (Task.frequency leapTask = YEARLY
   ∧ taskInView 0 YEAR (newDateYMD 0 2025 5 15) leapTask = true
   ∧ ¬ ∃ d, (viewInterval 0 YEAR (newDateYMD 0 2025 5 15)).1 ≤ d
              ≤ (viewInterval 0 YEAR (newDateYMD 0 2025 5 15)).2
            ∧ isTaskActiveOnDate 0 leapTask d = true)
  ∧ (Task.frequency closedTask = YEARLY
     ∧ taskInView 0 YEAR (newDateYMD 0 2025 5 15) closedTask = true
     ∧ ¬ ∃ d, (viewInterval 0 YEAR (newDateYMD 0 2025 5 15)).1 ≤ d
                ≤ (viewInterval 0 YEAR (newDateYMD 0 2025 5 15)).2
              ∧ isTaskActiveOnDate 0 closedTask d = true).
Proof.
  split; (split; [vm_compute; reflexivity|]; split; [vm_compute; reflexivity|]);
    intros Hex; apply occursWithin_spec in Hex;
    [vm_compute in Hex; discriminate | vm_compute; discriminate
    | vm_compute in Hex; discriminate | vm_compute; discriminate].
Qed.

(** The merge of any candidates shows what the candidates hold. *)
Lemma visibleFields_tasksWithIds (selected : list RawTask) w :
  visibleFields <$> (tasksWithIds selected w).1 = visibleFields <$> selected.
Proof.
  unfold tasksWithIds.
  pose proof (mapM_Forall2 normalizeImported selected w advances_normalizeImported) as H.
  induction H as [|t stored ts ss (w' & _ & ->) _ IH]; [reflexivity|].
  cbn [fmap list_fmap] in *. now rewrite IH, visibleFields_normalizeImported.
Qed.

(** C4. A description with a line feed does not survive the round trip:
    the exported text is cut at the line feed before the quotes are read,
    so one task comes back as two records, neither with the fields of the
    original, whatever ids and timestamps the merge draws. *)
Theorem csv_round_trip_loses_line_feeds w :
  visibleFields <$> (tasksWithIds (parseCSV (exportToCSV [noteTask])) w).1
  = [ [Some (VString "Note"); Some (VString "line one"); None; None; None; None; None];
      [None; None; None; None; None; None; None] ]
  ∧ visibleFieldsOfTask noteTask
    = [Some (VString "Note"); Some (VString ("line one" +:+ String LF "line two"));
       Some (VString "High"); Some (VString "Low"); Some (VString "To Do");
       Some (VString "2024-01-03"); Some (VString "None")].
Proof.
  rewrite visibleFields_tasksWithIds. split; vm_compute; reflexivity.
Qed.

(* ===================================================================== *)
(** ** The theorems at the sample data *)
(* ===================================================================== *)

Lemma monthly_active_same_day_of_month_witness :
  Task.frequency monthlyTask = MONTHLY
  ∧ parseLocalTaskDate 0 (Task.date monthlyTask) = Some 1706659200000
  ∧ isTaskActiveOnDate 0 monthlyTask (newDateYMD 0 2024 2 31) = true
  ∧ isTaskActiveOnDate 0 monthlyTask (newDateYMD 0 2024 3 30) = false.
Proof.
  assert (Hf : Task.frequency monthlyTask = MONTHLY) by reflexivity.
  assert (He : Task.recurrenceEndedAt monthlyTask = None) by reflexivity.
  assert (Ha : parseLocalTaskDate 0 (Task.date monthlyTask) = Some 1706659200000)
    by (vm_compute; reflexivity).
  destruct (monthly_active_same_day_of_month 0 monthlyTask 1706659200000 Hf He Ha)
    as [Hsame Hshort].
  split; [exact Hf|]. split; [exact Ha|]. split.
  - apply Hsame; [vm_compute; discriminate | vm_compute; reflexivity].
  - apply Hshort; vm_compute; reflexivity.
Defined.

Lemma ended_cutoff_applies_to_one_off_witness :
  Task.frequency oneOffTask = NONE
  ∧ Task.recurrenceEndedAt oneOffTask = Some 1704300000000
  ∧ parseLocalTaskDate 0 (Task.date oneOffTask) = Some 1709251200000
  ∧ isTaskActiveOnDate 0 oneOffTask (newDateYMD 0 2024 0 20) = false
  ∧ isTaskActiveOnDate 0 oneOffTask (newDateYMD 0 2024 2 1) = false.
Proof.
  assert (Hf : Task.frequency oneOffTask = NONE) by reflexivity.
  assert (He : Task.recurrenceEndedAt oneOffTask = Some 1704300000000) by reflexivity.
  assert (Hset : 1704300000000 ≠ 0) by discriminate.
  assert (Ha : parseLocalTaskDate 0 (Task.date oneOffTask) = Some 1709251200000)
    by (vm_compute; reflexivity).
  destruct (ended_cutoff_applies_to_one_off 0 oneOffTask 1704300000000 Hf He Hset)
    as [Hafter Hnever].
  split; [exact Hf|]. split; [exact He|]. split; [exact Ha|]. split.
  - apply Hafter. vm_compute. reflexivity.
  - apply (Hnever 1709251200000 Ha). vm_compute. reflexivity.
Defined.

Lemma getTaskStatus_resolution_witness :
  getTaskStatus 0 weeklyTask (newDateYMD 0 2024 0 10) = DONE
  ∧ getTaskStatus 0 weeklyTask (newDateYMD 0 2024 0 17) = TODO
  ∧ getTaskStatus 0 oneOffTask (newDateYMD 0 2024 0 17) = TODO
  ∧ Task.status legacyTask = DONE
  ∧ getTaskStatus 0 legacyTask (newDateYMD 0 2024 0 10) = TODO.
Proof.
  split; [|split; [|split; [|split]]].
  - destruct (getTaskStatus_resolution 0 weeklyTask (newDateYMD 0 2024 0 10))
      as [_ H].
    destruct (H ltac:(discriminate)) as [H' _].
    destruct (H' (<["2024-W2" := DONE]> ∅) eq_refl) as [H1 _].
    apply H1. vm_compute. reflexivity.
  - assert (Hrec : Task.frequency weeklyTask ≠ NONE) by discriminate.
    destruct (getTaskStatus_resolution 0 weeklyTask (newDateYMD 0 2024 0 17))
      as [_ H].
    destruct (H Hrec) as [H' _].
    destruct (H' (<["2024-W2" := DONE]> ∅) eq_refl) as [_ H2].
    apply H2. vm_compute. reflexivity.
  - destruct (getTaskStatus_resolution 0 oneOffTask (newDateYMD 0 2024 0 17))
      as [H _].
    apply H. vm_compute. reflexivity.
  - reflexivity.
  - assert (Hrec : Task.frequency legacyTask ≠ NONE) by discriminate.
    destruct (getTaskStatus_resolution 0 legacyTask (newDateYMD 0 2024 0 10))
      as [_ H].
    destruct (H Hrec) as [_ H3].
    apply H3. reflexivity.
Defined.

Lemma handleDragEnd_relocates_witness :
  ∃ t', (handleDragEnd [dailyTask; endedTask]
           {| active_id := "t2"; over_id := Some "q1" |} world0).1 !! 1%nat = Some t'
        ∧ Task.urgency t' = U_HIGH ∧ Task.importance t' = I_HIGH
        ∧ Task.title t' = "Plan".
Proof.
  assert (Hids : "t2" ≠ "q1") by discriminate.
  assert (Hpair : Task.urgency endedTask ≠ U_HIGH) by discriminate.
  destruct (handleDragEnd_relocates [dailyTask; endedTask]
              {| active_id := "t2"; over_id := Some "q1" |} "q1"
              (Build_Quadrant U_HIGH I_HIGH "Do First" "red") world0
              eq_refl Hids eq_refl 1%nat endedTask eq_refl)
    as (t' & Hlook & _ & _ & Hmove).
  exists t'. split; [exact Hlook|].
  destruct (Hmove eq_refl (or_introl Hpair))
    as (Hu & Hi & _ & _ & _ & Ht & _).
  split; [exact Hu|]. split; [exact Hi|]. exact Ht.
Defined.

Lemma history_is_append_only_witness :
  appendOnly [dailyTask; endedTask]
    (handleDragEnd [dailyTask; endedTask]
       {| active_id := "t2"; over_id := Some "q1" |} world0).1
  ∧ appendOnly [dailyTask; endedTask]
      (endSeries 0 [dailyTask; endedTask] (Some (partialOfTask dailyTask))
         (newDateYMD 0 2024 0 3) (formOfTask 0 dailyTask (newDateYMD 0 2024 0 3))
         (newDateYMD 0 2024 0 3) world0).1.
Proof.
  destruct (history_is_append_only 0 [dailyTask; endedTask]
              (Some (partialOfTask dailyTask)) (newDateYMD 0 2024 0 3) Partial.empty
              {| active_id := "t2"; over_id := Some "q1" |}
              (formOfTask 0 dailyTask (newDateYMD 0 2024 0 3))
              (newDateYMD 0 2024 0 3) world0) as (_ & Hd & He & _).
  split; [exact Hd | exact He].
Defined.

Lemma endSeries_closes_after_today_witness :
  ∃ t',
    (endSeries 0 [dailyTask] (Some (partialOfTask dailyTask)) (newDateYMD 0 2024 0 10)
       (formOfTask 0 dailyTask (newDateYMD 0 2024 0 10))
       (newDateYMD 0 2024 0 10) world0).1 !! 0%nat = Some t'
    ∧ Task.recurrenceEndedAt t' = Some 1704888000000
    ∧ Task.status t' = DONE
    ∧ isTaskActiveOnDate 0 t' (addDays (newDateYMD 0 2024 0 10) 1) = false.
Proof.
  assert (Hrec : DAILY ≠ NONE) by discriminate.
  assert (Hnow : clock world0 (nClock world0) ≠ 0) by (vm_compute; discriminate).
  destruct (endSeries_closes_after_today 0 [dailyTask] (Some (partialOfTask dailyTask))
              (newDateYMD 0 2024 0 10)
              (formOfTask 0 dailyTask (newDateYMD 0 2024 0 10))
              (newDateYMD 0 2024 0 10) world0 "t1" 0%nat dailyTask DAILY
              eq_refl eq_refl eq_refl eq_refl Hrec Hnow)
    as (t' & Hlook & He & Hs & _ & _ & _ & Hnext).
  exists t'. split; [exact Hlook|]. split; [exact He|]. split; [exact Hs|].
  apply Hnext. vm_compute. discriminate.
Defined.

Lemma ended_series_is_guarded_by_the_editor_only_witness :
  submitEnabled (formOfTask 0 endedTask (newDateYMD 0 2024 0 10)) = false
  ∧ ∃ t', (handleDragEnd [endedTask]
             {| active_id := "t2"; over_id := Some "q1" |} world0).1 !! 0%nat = Some t'
          ∧ Task.urgency t' = U_HIGH
          ∧ Task.recurrenceEndedAt t' = Some 1704300000000.
Proof.
  assert (Hset : 1704300000000 ≠ 0) by discriminate.
  assert (Hids : "t2" ≠ "q1") by discriminate.
  destruct (ended_series_is_guarded_by_the_editor_only 0 [endedTask]
              (Some (partialOfTask endedTask)) (newDateYMD 0 2024 0 10)
              (newDateYMD 0 2024 0 10) Partial.empty
              {| active_id := "t2"; over_id := Some "q1" |} "q1"
              (Build_Quadrant U_HIGH I_HIGH "Do First" "red") world0 "t2" 0%nat
              endedTask 1704300000000 eq_refl eq_refl Hset)
    as (Hui & _ & Hdrag).
  split; [exact Hui|].
  destruct (Hdrag eq_refl Hids eq_refl eq_refl)
    as (t' & Hlook & Hu & _ & He & _).
  exists t'. split; [exact Hlook|]. split; [exact Hu | exact He].
Defined.

Lemma year_prefilter_against_occurrence_witness :
  Task.frequency yearlyTask = YEARLY
  ∧ taskInView 0 YEAR (newDateYMD 0 2025 5 15) yearlyTask = true
  ∧ ∃ d, (viewInterval 0 YEAR (newDateYMD 0 2025 5 15)).1 ≤ d
           ≤ (viewInterval 0 YEAR (newDateYMD 0 2025 5 15)).2
         ∧ isTaskActiveOnDate 0 yearlyTask d = true.
Proof.
  assert (Hf : Task.frequency yearlyTask = YEARLY) by reflexivity.
  assert (Hv : taskInView 0 YEAR (newDateYMD 0 2025 5 15) yearlyTask = true)
    by (vm_compute; reflexivity).
  destruct (year_prefilter_against_occurrence 0 yearlyTask (newDateYMD 0 2025 5 15) Hf)
    as [_ H].
  split; [exact Hf|]. split; [exact Hv|].
  apply H; [reflexivity | | exact Hv].
  intros a Ha. left. left. vm_compute in Ha. injection Ha as <-.
  vm_compute. discriminate.
Defined.

Lemma weekly_key_is_not_the_iso_week_witness :
  getPeriodKey 0 (newDateYMD 0 2024 0 7) WEEKLY = "2024-W2"
  ∧ isoWeekKey 0 (newDateYMD 0 2024 0 7) = "2024-W1".
Proof.
  destruct (weekly_key_is_not_the_iso_week 0 (newDateYMD 0 2024 0 7)) as (_ & H & _).
  apply H. vm_compute. reflexivity.
Defined.

Lemma csv_round_trip_without_line_feeds_witness :
  Forall2 (λ task stored, visibleFields stored = visibleFieldsOfTask task)
    [quotedTask] (tasksWithIds (parseCSV (exportToCSV [quotedTask])) world0).1.
Proof.
  apply csv_round_trip_without_line_feeds.
  constructor; [|constructor].
  unfold lineFeedFree. split; [|split; [|split]]; vm_compute; reflexivity.
Defined.

(* ===================================================================== *)
(** ** More calendar facts: the starts and the ends of periods *)
(* ===================================================================== *)

Section StartOf.
Variable tz : Z.

Lemma startOfWeek_day date wso :
  startOfWeek tz date (Some wso)
  = UTC tz ((localDay tz date
             - ((if getDay tz date <? wso then 7 else 0) + getDay tz date - wso))
            * msPerDay).
Proof.
  unfold startOfWeek. cbn [default]. unfold setHours0.
  rewrite localDay_setDate. unfold id. f_equal. f_equal. lia.
Qed.

(** X1. For a week start 0..6, [startOfWeek] returns a local midnight on
    that day of the week, on the day of its argument or up to six days
    before it, and the same instant for every date of the seven days
    that begin there. *)
Theorem startOfWeek_is_the_week_start date wso :
  0 ≤ wso ≤ 6 →
  let s := startOfWeek tz date (Some wso) in
  setHours0 tz s = s
  ∧ getDay tz s = wso
  ∧ localDay tz date - 6 ≤ localDay tz s ≤ localDay tz date
  ∧ (∀ d, localDay tz s ≤ localDay tz d ≤ localDay tz s + 6 →
          startOfWeek tz d (Some wso) = s).
Proof.
  intros Hw s. subst s. rewrite startOfWeek_day.
  set (n := localDay tz date).
  assert (Hn : localDay tz (UTC tz ((n - ((if getDay tz date <? wso then 7 else 0)
                 + getDay tz date - wso)) * msPerDay))
               = n - ((if getDay tz date <? wso then 7 else 0) + getDay tz date - wso))
    by apply localDay_UTC.
  split; [apply setHours0_UTC|].
  unfold getDay at 1. rewrite Hn. unfold getDay. fold n.
  split; [destruct (Z.ltb_spec ((n + 4) mod 7) wso); zdiv|].
  split; [destruct (Z.ltb_spec ((n + 4) mod 7) wso); zdiv|].
  intros d Hd. rewrite startOfWeek_day. unfold getDay. f_equal. f_equal.
  set (m := localDay tz d) in *.
  destruct (Z.ltb_spec ((n + 4) mod 7) wso), (Z.ltb_spec ((m + 4) mod 7) wso); zdiv.
Qed.

End StartOf.

Section Months.
Variable tz : Z.

Lemma days_in_month_pos y m : 28 ≤ days_in_month y m ≤ 31.
Proof. unfold days_in_month. repeat case_match; lia. Qed.

(** The first day of the month that follows month [m]. *)
Lemma days_from_civil_succ_month y m :
  1 ≤ m ≤ 11 →
  days_from_civil y (m + 1) 1 = days_from_civil y m 1 + days_in_month y m.
Proof.
  intros Hm.
  assert (Hc : m = 1 ∨ m = 2 ∨ m = 3 ∨ m = 4 ∨ m = 5 ∨ m = 6 ∨ m = 7 ∨ m = 8
               ∨ m = 9 ∨ m = 10 ∨ m = 11) by lia.
  unfold days_in_month.
  repeat (destruct Hc as [Hc | Hc]); subst m;
    match goal with
    | |- context [days_from_civil _ (?a + 1) _] =>
        let v := eval vm_compute in (a + 1) in change (a + 1) with v
    end;
    unfold days_from_civil; cbn; try zdiv.
  destruct (is_leap y) eqn:E.
  - apply is_leap_spec in E. zdiv.
  - assert (Hn : ¬ (y mod 4 = 0 ∧ (y mod 100 ≠ 0 ∨ y mod 400 = 0)))
      by (rewrite <- is_leap_spec, E; discriminate).
    zdiv.
Qed.

Lemma days_from_civil_december y :
  days_from_civil (y + 1) 1 1 = days_from_civil y 12 1 + 31.
Proof. unfold days_from_civil. cbn. zdiv. Qed.

Lemma days_from_civil_next_month y m :
  1 ≤ m ≤ 12 →
  days_from_civil (y + m / 12) (m mod 12 + 1) 1
  = days_from_civil y m 1 + days_in_month y m.
Proof.
  intros Hm. destruct (Z.eq_dec m 12) as [->|Hne].
  - change (12 / 12) with 1. change (12 mod 12 + 1) with 1.
    apply days_from_civil_december.
  - replace (m / 12) with 0 by zdiv. replace (m mod 12) with m by zdiv.
    replace (y + 0) with y by lia. apply days_from_civil_succ_month. lia.
Qed.

Lemma localDay_setFullYear t y mi dt :
  localDay tz (setFullYear tz t y mi dt) = MakeDay y mi dt.
Proof.
  unfold setFullYear. apply localDay_UTC_within.
  unfold TimeWithinDay, msPerDay. zdiv.
Qed.

(** The day [x] of the month that holds day number [n]. *)
Lemma civil_same_month n x :
  let c := civil_from_days n in
  1 ≤ x ≤ days_in_month (c_year c) (c_month c) →
  civil_from_days (n - c_day c + x) = Civil (c_year c) (c_month c) x.
Proof.
  intros c Hx. pose proof (civil_from_days_valid n) as [Hm _]. fold c in Hm.
  pose proof (days_from_civil_from_days n) as Hn. cbv zeta in Hn. fold c in Hn.
  rewrite days_from_civil_linear in Hn.
  replace (n - c_day c + x) with (days_from_civil (c_year c) (c_month c) x)
    by (rewrite (days_from_civil_linear _ _ x); lia).
  apply civil_from_days_from_civil. split; assumption.
Qed.

Lemma localDay_monthStart t :
  localDay tz (startOfMonth tz t) = localDay tz t - getDate tz t + 1.
Proof. unfold startOfMonth. rewrite localDay_setHours0. apply localDay_setDate. Qed.

Lemma MakeDay_month_end t :
  MakeDay (getFullYear tz t) (getMonth tz t + 1) 0
  = localDay tz t - getDate tz t
    + days_in_month (getFullYear tz t) (getMonth tz t + 1).
Proof.
  unfold MakeDay, getFullYear, getMonth, getDate.
  set (n := localDay tz t). set (c := civil_from_days n).
  pose proof (civil_from_days_valid n) as [Hm _]. fold c in Hm.
  replace (c_month c - 1 + 1) with (c_month c) by lia.
  rewrite days_from_civil_next_month by assumption.
  pose proof (days_from_civil_from_days n) as Hn. cbv zeta in Hn. fold c in Hn.
  rewrite days_from_civil_linear in Hn. lia.
Qed.

Lemma localDay_endOfMonth t :
  localDay tz (DateFns.endOfMonth tz t)
  = localDay tz t - getDate tz t
    + days_in_month (getFullYear tz t) (getMonth tz t + 1).
Proof.
  unfold DateFns.endOfMonth. rewrite localDay_setHoursEnd, localDay_setFullYear.
  apply MakeDay_month_end.
Qed.

Lemma localDay_endOfWeek t wso :
  localDay tz (DateFns.endOfWeek tz wso t)
  = localDay tz t
    + ((if getDay tz t <? wso then -7 else 0) + 6 - (getDay tz t - wso)).
Proof.
  unfold DateFns.endOfWeek. rewrite localDay_setHoursEnd, localDay_setDate. lia.
Qed.

Lemma setHoursEnd_idem t : setHoursEnd tz (setHoursEnd tz t) = setHoursEnd tz t.
Proof. unfold setHoursEnd at 1 3. now rewrite localDay_setHoursEnd. Qed.

Lemma le_setHoursEnd t x : localDay tz t ≤ localDay tz x → t ≤ setHoursEnd tz x.
Proof.
  unfold setHoursEnd, UTC, localDay, Day, LocalTime, msPerDay. zdiv.
Qed.

Lemma setHours0_le_day x t : localDay tz x ≤ localDay tz t → setHours0 tz x ≤ t.
Proof.
  unfold setHours0, UTC, localDay, Day, LocalTime, msPerDay. zdiv.
Qed.

Lemma localDay_startOfYear t :
  localDay tz (startOfYear tz t) = days_from_civil (getFullYear tz t) 1 1.
Proof.
  unfold startOfYear, setMonth. rewrite localDay_setHours0, localDay_setFullYear.
  apply MakeDay_jan1.
Qed.

Lemma civil_startOfYear t :
  civil_from_days (localDay tz (startOfYear tz t)) = Civil (getFullYear tz t) 1 1.
Proof.
  rewrite localDay_startOfYear. apply civil_from_days_from_civil.
  split; [lia|]. pose proof (days_in_month_pos (getFullYear tz t) 1). lia.
Qed.

Lemma startOfYear_midnight t :
  startOfYear tz t = UTC tz (days_from_civil (getFullYear tz t) 1 1 * msPerDay).
Proof.
  unfold startOfYear, setMonth, setHours0. rewrite localDay_setFullYear, MakeDay_jan1.
  reflexivity.
Qed.

Lemma year_start_le_day n :
  days_from_civil (c_year (civil_from_days n)) 1 1 ≤ n.
Proof.
  pose proof (civil_from_days_valid n) as Hv.
  pose proof (days_from_civil_within_year _ _ _ Hv) as Hw.
  pose proof (days_from_civil_from_days n) as Hn.
  cbv zeta in Hn. rewrite Hn in Hw. lia.
Qed.

Lemma startOfYear_le t : startOfYear tz t ≤ t.
Proof.
  rewrite startOfYear_midnight. apply Z.leb_le. rewrite midnight_leb. apply Z.leb_le.
  apply year_start_le_day.
Qed.

(** X2. [startOfMonth] returns the local midnight of the first day of the
    month of its argument and [startOfYear] that of the first of January
    of its year: neither is after the argument, and all the dates of one
    month, of one year, have the same start. *)
Theorem startOfMonth_and_startOfYear_are_the_first_days date :
  (setHours0 tz (startOfMonth tz date) = startOfMonth tz date
   ∧ getDate tz (startOfMonth tz date) = 1
   ∧ getMonth tz (startOfMonth tz date) = getMonth tz date
   ∧ getFullYear tz (startOfMonth tz date) = getFullYear tz date
   ∧ startOfMonth tz date ≤ date
   ∧ (∀ d, getFullYear tz d = getFullYear tz date → getMonth tz d = getMonth tz date →
           startOfMonth tz d = startOfMonth tz date))
  ∧ (setHours0 tz (startOfYear tz date) = startOfYear tz date
     ∧ getDate tz (startOfYear tz date) = 1
     ∧ getMonth tz (startOfYear tz date) = 0
     ∧ getFullYear tz (startOfYear tz date) = getFullYear tz date
     ∧ startOfYear tz date ≤ date
     ∧ (∀ d, getFullYear tz d = getFullYear tz date →
             startOfYear tz d = startOfYear tz date)).
Proof.
  split.
  - pose proof (localDay_monthStart date) as Hs.
    pose proof (civil_same_month (localDay tz date) 1) as Hc. cbv zeta in Hc.
    pose proof (days_in_month_pos (getFullYear tz date) (getMonth tz date + 1)) as Hd.
    unfold getFullYear, getMonth, getDate in *.
    rewrite Hs.
    replace (c_month (civil_from_days (localDay tz date)) - 1 + 1)
      with (c_month (civil_from_days (localDay tz date))) in Hd by lia.
    rewrite Hc by lia. cbn [c_day c_month c_year].
    split; [apply setHours0_idem|].
    split; [reflexivity|]. split; [reflexivity|]. split; [reflexivity|].
    split.
    { apply setHours0_le_day. rewrite localDay_setDate.
      pose proof (getDate_days_in_month tz date). lia. }
    intros d Hy Hmo. unfold startOfMonth, setHours0. rewrite !localDay_setDate.
    f_equal. f_equal. unfold getDate.
    pose proof (days_from_civil_from_days (localDay tz d)) as H1.
    pose proof (days_from_civil_from_days (localDay tz date)) as H2.
    cbv zeta in H1, H2. rewrite days_from_civil_linear in H1, H2.
    rewrite Hy in H1. replace (c_month (civil_from_days (localDay tz d)))
      with (c_month (civil_from_days (localDay tz date))) in H1 by lia. lia.
  - split; [apply setHours0_idem|].
    split; [unfold getDate; now rewrite civil_startOfYear|].
    split; [unfold getMonth; now rewrite civil_startOfYear|].
    split; [unfold getFullYear at 1; now rewrite civil_startOfYear|].
    split; [apply startOfYear_le|].
    intros d Hy. rewrite !startOfYear_midnight, Hy. reflexivity.
Qed.

End Months.

Section Ends.
Variable tz : Z.

Lemma UTC_end_ge t k : localDay tz t ≤ k → t ≤ UTC tz (k * msPerDay + (msPerDay - 1)).
Proof. unfold UTC, localDay, Day, LocalTime, msPerDay. zdiv. Qed.

Lemma setHoursEnd_UTC k :
  setHoursEnd tz (UTC tz (k * msPerDay + (msPerDay - 1)))
  = UTC tz (k * msPerDay + (msPerDay - 1)).
Proof.
  unfold setHoursEnd. rewrite localDay_UTC_within; [reflexivity|].
  unfold msPerDay. lia.
Qed.

Lemma localDay_UTC_end k : localDay tz (UTC tz (k * msPerDay + (msPerDay - 1))) = k.
Proof. apply localDay_UTC_within. unfold msPerDay. lia. Qed.

Lemma endOfWeek_day t wso :
  DateFns.endOfWeek tz wso t
  = UTC tz ((localDay tz t
             + ((if getDay tz t <? wso then -7 else 0) + 6 - (getDay tz t - wso)))
            * msPerDay + (msPerDay - 1)).
Proof.
  unfold DateFns.endOfWeek, setHoursEnd. rewrite localDay_setDate.
  f_equal. f_equal. f_equal. lia.
Qed.

Lemma endOfMonth_day t :
  DateFns.endOfMonth tz t
  = UTC tz ((localDay tz t - getDate tz t
             + days_in_month (getFullYear tz t) (getMonth tz t + 1))
            * msPerDay + (msPerDay - 1)).
Proof.
  unfold DateFns.endOfMonth, setHoursEnd.
  rewrite localDay_setFullYear, MakeDay_month_end. reflexivity.
Qed.

Lemma civil_endOfMonth t :
  civil_from_days (localDay tz t - getDate tz t
                   + days_in_month (getFullYear tz t) (getMonth tz t + 1))
  = Civil (getFullYear tz t) (getMonth tz t + 1)
      (days_in_month (getFullYear tz t) (getMonth tz t + 1)).
Proof.
  unfold getFullYear, getMonth, getDate.
  replace (c_month (civil_from_days (localDay tz t)) - 1 + 1)
    with (c_month (civil_from_days (localDay tz t))) by lia.
  apply (civil_same_month (localDay tz t)).
  pose proof (days_in_month_pos (c_year (civil_from_days (localDay tz t)))
                (c_month (civil_from_days (localDay tz t)))). lia.
Qed.

Lemma getRecurrenceDeadline_weekly d :
  getRecurrenceDeadline tz d WEEKLY = DateFns.endOfWeek tz 0 d.
Proof. reflexivity. Qed.

Lemma getRecurrenceDeadline_monthly d :
  getRecurrenceDeadline tz d MONTHLY = DateFns.endOfMonth tz d.
Proof. reflexivity. Qed.

(** X3. The deadline of a date is never before it.  For the Weekly
    cadence it is the last millisecond of the Saturday on or after the
    date, at most six days later; for the Monthly cadence the last
    millisecond of the last day of the date's month; for any other
    frequency the date itself. *)
Theorem getRecurrenceDeadline_is_the_period_end date :
  (∀ f, date ≤ getRecurrenceDeadline tz date f)
  ∧ (setHoursEnd tz (getRecurrenceDeadline tz date WEEKLY)
       = getRecurrenceDeadline tz date WEEKLY
     ∧ getDay tz (getRecurrenceDeadline tz date WEEKLY) = 6
     ∧ localDay tz date ≤ localDay tz (getRecurrenceDeadline tz date WEEKLY)
         ≤ localDay tz date + 6)
  ∧ (setHoursEnd tz (getRecurrenceDeadline tz date MONTHLY)
       = getRecurrenceDeadline tz date MONTHLY
     ∧ getFullYear tz (getRecurrenceDeadline tz date MONTHLY) = getFullYear tz date
     ∧ getMonth tz (getRecurrenceDeadline tz date MONTHLY) = getMonth tz date
     ∧ getDate tz (getRecurrenceDeadline tz date MONTHLY)
         = days_in_month (getFullYear tz date) (getMonth tz date + 1))
  ∧ (∀ f, f ≠ WEEKLY → f ≠ MONTHLY → getRecurrenceDeadline tz date f = date).
Proof.
  rewrite getRecurrenceDeadline_weekly, getRecurrenceDeadline_monthly.
  rewrite endOfWeek_day, endOfMonth_day.
  pose proof (getDate_days_in_month tz date) as Hd.
  assert (Hday : 0 ≤ getDay tz date ≤ 6) by (unfold getDay; zdiv).
  destruct (Z.ltb_spec (getDay tz date) 0) as [|_]; [lia|].
  split.
  { intros f. destruct f.
    - apply Z.le_refl.
    - apply Z.le_refl.
    - rewrite getRecurrenceDeadline_weekly, endOfWeek_day. apply UTC_end_ge.
      destruct (Z.ltb_spec (getDay tz date) 0); lia.
    - rewrite getRecurrenceDeadline_monthly, endOfMonth_day. apply UTC_end_ge. lia.
    - apply Z.le_refl. }
  split.
  { split; [apply setHoursEnd_UTC|].
    unfold getDay at 1. rewrite localDay_UTC_end. unfold getDay in *. zdiv. }
  split.
  { split; [apply setHoursEnd_UTC|].
    split; [|split].
    - unfold getFullYear at 1. now rewrite localDay_UTC_end, civil_endOfMonth.
    - unfold getMonth at 1. rewrite localDay_UTC_end, civil_endOfMonth.
      cbn [c_month]. lia.
    - unfold getDate at 1. now rewrite localDay_UTC_end, civil_endOfMonth. }
  intros f H1 H2. destruct f; try reflexivity; congruence.
Qed.

Lemma UTC_start_le t k : k ≤ localDay tz t → UTC tz (k * msPerDay) ≤ t.
Proof. intros H. apply Z.leb_le. rewrite midnight_leb. now apply Z.leb_le. Qed.

Lemma endOfYear_day t :
  DateFns.endOfYear tz t
  = UTC tz ((days_from_civil (getFullYear tz t + 1) 1 1 - 1) * msPerDay + (msPerDay - 1)).
Proof.
  unfold DateFns.endOfYear, setHoursEnd. rewrite localDay_setFullYear.
  unfold MakeDay. change (0 / 12) with 0. change (0 mod 12 + 1) with 1.
  replace (getFullYear tz t + 1 + 0) with (getFullYear tz t + 1) by lia.
  f_equal. f_equal. f_equal. lia.
Qed.

Lemma viewInterval_days viewMode cd :
  viewInterval tz viewMode cd
  = (UTC tz ((viewDays tz viewMode cd).1 * msPerDay),
     UTC tz ((viewDays tz viewMode cd).2 * msPerDay + (msPerDay - 1))).
Proof.
  destruct viewMode; cbn [viewInterval viewDays fst snd].
  - reflexivity.
  - now rewrite startOfWeek_day, endOfWeek_day.
  - rewrite endOfMonth_day. unfold setHours0. now rewrite localDay_setDate.
  - unfold setHours0, setMonth.
    rewrite localDay_setFullYear, MakeDay_jan1, endOfYear_day. reflexivity.
Qed.

Lemma viewDays_hold viewMode cd :
  (viewDays tz viewMode cd).1 ≤ localDay tz cd ≤ (viewDays tz viewMode cd).2.
Proof.
  pose proof (getDate_days_in_month tz cd) as Hd.
  assert (Hday : 0 ≤ getDay tz cd ≤ 6) by (unfold getDay; zdiv).
  destruct viewMode; cbn [viewDays fst snd].
  - lia.
  - destruct (Z.ltb_spec (getDay tz cd) 1); lia.
  - lia.
  - pose proof (civil_from_days_valid (localDay tz cd)) as Hv.
    pose proof (days_from_civil_within_year _ _ _ Hv) as Hw.
    pose proof (days_from_civil_from_days (localDay tz cd)) as Hn.
    cbv zeta in Hn. rewrite Hn in Hw. unfold getFullYear. lia.
Qed.

(** X4. The interval by which the application filters the tasks of a
    view holds the current date, starts at a local midnight and ends at
    the last millisecond of a local day: the current day for the Day
    view, Monday to Sunday for the Week view, the first to the last day
    of the month for the Month view, the first of January to the 31st of
    December for the Year view. *)
Theorem viewInterval_holds_the_current_date viewMode cd :
  (viewInterval tz viewMode cd).1 ≤ cd ≤ (viewInterval tz viewMode cd).2
  ∧ setHours0 tz (viewInterval tz viewMode cd).1 = (viewInterval tz viewMode cd).1
  ∧ setHoursEnd tz (viewInterval tz viewMode cd).2 = (viewInterval tz viewMode cd).2
  ∧ match viewMode with
    | DAY =>
        localDay tz (viewInterval tz viewMode cd).1 = localDay tz cd
        ∧ localDay tz (viewInterval tz viewMode cd).2 = localDay tz cd
    | WEEK =>
        getDay tz (viewInterval tz viewMode cd).1 = 1
        ∧ localDay tz (viewInterval tz viewMode cd).2
          = localDay tz (viewInterval tz viewMode cd).1 + 6
    | MONTH =>
        localDay tz (viewInterval tz viewMode cd).1
          = days_from_civil (getFullYear tz cd) (getMonth tz cd + 1) 1
        ∧ localDay tz (viewInterval tz viewMode cd).2
          = days_from_civil (getFullYear tz cd) (getMonth tz cd + 1)
              (days_in_month (getFullYear tz cd) (getMonth tz cd + 1))
    | YEAR =>
        localDay tz (viewInterval tz viewMode cd).1
          = days_from_civil (getFullYear tz cd) 1 1
        ∧ localDay tz (viewInterval tz viewMode cd).2
          = days_from_civil (getFullYear tz cd) 12 31
    end.
Proof.
  rewrite viewInterval_days. cbn [fst snd].
  pose proof (viewDays_hold viewMode cd) as [H1 H2].
  split; [split; [now apply UTC_start_le|now apply UTC_end_ge]|].
  split; [apply setHours0_UTC|]. split; [apply setHoursEnd_UTC|].
  assert (Hn : days_from_civil (getFullYear tz cd) (getMonth tz cd + 1) 1
               = localDay tz cd - getDate tz cd + 1).
  { pose proof (days_from_civil_from_days (localDay tz cd)) as Hn. cbv zeta in Hn.
    rewrite days_from_civil_linear in Hn. unfold getFullYear, getMonth, getDate.
    replace (c_month (civil_from_days (localDay tz cd)) - 1 + 1)
      with (c_month (civil_from_days (localDay tz cd))) by lia. lia. }
  destruct viewMode; rewrite ?viewInterval_days; cbn [fst snd];
    rewrite ?localDay_UTC, ?localDay_UTC_end; cbn [viewDays fst snd].
  - split; reflexivity.
  - split; [|destruct (Z.ltb_spec (getDay tz cd) 1); lia].
    unfold getDay at 1. rewrite localDay_UTC. unfold getDay.
    destruct (Z.ltb_spec ((localDay tz cd + 4) mod 7) 1); zdiv.
  - split; [lia|]. rewrite (days_from_civil_linear _ _ (days_in_month _ _)). lia.
  - split; [reflexivity|].
    rewrite (days_from_civil_linear _ 12 31), days_from_civil_december. lia.
Qed.

End Ends.

(* ===================================================================== *)
(** ** The occurrences of a series *)
(* ===================================================================== *)

Section Cadence.
Variable tz : Z.

(** The cut-off test of the evaluator, on local days. *)
Lemma isTaskActiveOnDate_cut task d :
  isTaskActiveOnDate tz task d = true →
  ∀ e, Task.recurrenceEndedAt task = Some e → e ≠ 0 → localDay tz d ≤ localDay tz e.
Proof.
  intros H e He Hne.
  destruct (Z.le_gt_cases (localDay tz d) (localDay tz e)) as [|Hlt]; [assumption|].
  rewrite (isTaskActiveOnDate_after_end tz task d e He Hne) in H by lia. discriminate.
Qed.

(** The evaluator when the cut-off does not apply. *)
Lemma isTaskActiveOnDate_uncut task task' d :
  Task.date task' = Task.date task →
  Task.frequency task' = Task.frequency task →
  Task.recurrenceEndedAt task' = None →
  (∀ e, Task.recurrenceEndedAt task = Some e → e = 0 ∨ localDay tz d ≤ localDay tz e) →
  isTaskActiveOnDate tz task d = isTaskActiveOnDate tz task' d.
Proof.
  intros Hd Hf He' Hcut. unfold isTaskActiveOnDate. rewrite Hd, Hf, He'.
  destruct (Task.recurrenceEndedAt task) as [e|]; [|reflexivity].
  rewrite setHours0_ltb. cbn [truthyNum].
  destruct (Hcut e eq_refl) as [->|Hle].
  - reflexivity.
  - replace (localDay tz e <? localDay tz d) with false
      by (symmetry; apply Z.ltb_ge; lia).
    now rewrite andb_false_r.
Qed.

(** What an active date says about the anchor. *)
Lemma isTaskActiveOnDate_anchor task d :
  isTaskActiveOnDate tz task d = true →
  Task.frequency task ≠ DAILY →
  ∃ a, parseLocalTaskDate tz (Task.date task) = Some a
       ∧ localDay tz a ≤ localDay tz d
       ∧ match Task.frequency task with
         | WEEKLY => getDay tz d = getDay tz a
         | MONTHLY => getDate tz d = getDate tz a
         | YEARLY => getDate tz d = getDate tz a ∧ getMonth tz d = getMonth tz a
         | _ => localDay tz d = localDay tz a
         end.
Proof.
  intros H Hf.
  destruct (parseLocalTaskDate tz (Task.date task)) as [a|] eqn:Ha.
  - exists a. split; [reflexivity|].
    pose proof (isTaskActiveOnDate_not_before tz task d a Ha H) as Hle.
    split; [assumption|].
    revert H. unfold isTaskActiveOnDate. rewrite Ha.
    pose proof (parseLocalTaskDate_midnight tz _ _ Ha) as Hm.
    destruct (match Task.recurrenceEndedAt task with Some _ => _ | None => _ end);
      [discriminate|].
    rewrite <- Hm at 1. rewrite setHours0_ltb.
    destruct (Z.ltb_spec (localDay tz d) (localDay tz a)); [discriminate|].
    rewrite getDay_setHours0, getDate_setHours0, getMonth_setHours0.
    destruct (Task.frequency task); try congruence.
    + unfold getTime. rewrite <- Hm, setHours0_eqb, localDay_setHours0.
      intros E. now apply Z.eqb_eq in E.
    + intros E. now apply Z.eqb_eq in E.
    + intros E. now apply Z.eqb_eq in E.
    + intros E. apply andb_true_iff in E as [E1 E2].
      now apply Z.eqb_eq in E1; apply Z.eqb_eq in E2.
  - exfalso. revert H. unfold isTaskActiveOnDate. rewrite Ha.
    destruct (match Task.recurrenceEndedAt task with Some _ => _ | None => _ end);
      [discriminate|].
    destruct (Task.frequency task); congruence.
Qed.

(** Days with the same year, month and day of the month are the same day. *)
Lemma localDay_of_fields d1 d2 :
  getFullYear tz d1 = getFullYear tz d2 →
  getMonth tz d1 = getMonth tz d2 →
  getDate tz d1 = getDate tz d2 →
  localDay tz d1 = localDay tz d2.
Proof.
  unfold getFullYear, getMonth, getDate. intros Hy Hm Hd.
  rewrite <- (days_from_civil_from_days (localDay tz d1)).
  rewrite <- (days_from_civil_from_days (localDay tz d2)).
  cbv zeta. rewrite Hy, Hd. f_equal. lia.
Qed.

(** The cadence tests of an unended series, on local days. *)
Lemma isTaskActiveOnDate_open_days task a d :
  Task.recurrenceEndedAt task = None →
  parseLocalTaskDate tz (Task.date task) = Some a →
  (Task.frequency task = DAILY →
     (isTaskActiveOnDate tz task d = true ↔ localDay tz a ≤ localDay tz d))
  ∧ (Task.frequency task = WEEKLY →
     (isTaskActiveOnDate tz task d = true
      ↔ localDay tz a ≤ localDay tz d ∧ (localDay tz d - localDay tz a) mod 7 = 0))
  ∧ (Task.frequency task = NONE →
     (isTaskActiveOnDate tz task d = true ↔ localDay tz d = localDay tz a)).
Proof.
  intros He Ha.
  split; [|split]; intros Hf; rewrite (isTaskActiveOnDate_open tz task d a He Ha), Hf.
  - destruct (Z.ltb_spec (localDay tz d) (localDay tz a)); split; intros; try lia;
      try discriminate; reflexivity.
  - unfold getDay.
    destruct (Z.ltb_spec (localDay tz d) (localDay tz a)).
    + split; [discriminate|lia].
    + rewrite Z.eqb_eq. split; intros; [split; [lia|]|]; zdiv.
  - destruct (Z.ltb_spec (localDay tz d) (localDay tz a)).
    + split; [discriminate|lia].
    + apply Z.eqb_eq.
Qed.

(** X5. An unended series with a readable anchor is active: every day from
    the anchor on for Daily; every seventh day from the anchor on for
    Weekly; on the anchor day alone without recurrence. *)
Theorem open_series_occurrences task a :
  Task.recurrenceEndedAt task = None →
  parseLocalTaskDate tz (Task.date task) = Some a →
  (Task.frequency task = DAILY →
     ∀ d, isTaskActiveOnDate tz task d = true ↔ localDay tz a ≤ localDay tz d)
  ∧ (Task.frequency task = WEEKLY →
     ∀ d, isTaskActiveOnDate tz task d = true
          ↔ localDay tz a ≤ localDay tz d
            ∧ (localDay tz d - localDay tz a) mod 7 = 0)
  ∧ (Task.frequency task = NONE →
     ∀ d, isTaskActiveOnDate tz task d = true ↔ localDay tz d = localDay tz a).
Proof.
  intros He Ha.
  split; [|split]; intros Hf d;
    destruct (isTaskActiveOnDate_open_days task a d He Ha) as (H1 & H2 & H3); auto.
Qed.

(** X6. An ended series is served up to and including the local day of
    its end as if it had not been ended, and an end stamp of 0 ends
    nothing. *)
Theorem ended_series_is_served_through_its_end_day task task' e :
  Task.recurrenceEndedAt task = Some e →
  Task.date task' = Task.date task →
  Task.frequency task' = Task.frequency task →
  Task.recurrenceEndedAt task' = None →
  (∀ d, localDay tz d ≤ localDay tz e →
        isTaskActiveOnDate tz task d = isTaskActiveOnDate tz task' d)
  ∧ (e = 0 → ∀ d, isTaskActiveOnDate tz task d = isTaskActiveOnDate tz task' d).
Proof.
  intros He Hd Hf He'. split.
  - intros d Hle. apply isTaskActiveOnDate_uncut; try assumption.
    intros e0 E. rewrite He in E. injection E as <-. now right.
  - intros -> d. apply isTaskActiveOnDate_uncut; try assumption.
    intros e0 E. rewrite He in E. injection E as <-. now left.
Qed.

(** X7. Two dates on which a task is active: fewer than seven days apart
    they are the same day for a Weekly task, in the same month of the
    same year they are the same day for a Monthly task, in the same year
    for a Yearly task, and always for a task without recurrence. *)
Theorem one_occurrence_per_period task d1 d2 :
  isTaskActiveOnDate tz task d1 = true →
  isTaskActiveOnDate tz task d2 = true →
  match Task.frequency task with
  | DAILY => True
  | WEEKLY =>
      - 7 < localDay tz d1 - localDay tz d2 < 7 → localDay tz d1 = localDay tz d2
  | MONTHLY =>
      getFullYear tz d1 = getFullYear tz d2 → getMonth tz d1 = getMonth tz d2 →
      localDay tz d1 = localDay tz d2
  | YEARLY =>
      getFullYear tz d1 = getFullYear tz d2 → localDay tz d1 = localDay tz d2
  | NONE => localDay tz d1 = localDay tz d2
  end.
Proof.
  intros H1 H2.
  destruct (decide (Task.frequency task = DAILY)) as [Hf|Hf]; [now rewrite Hf|].
  destruct (isTaskActiveOnDate_anchor task d1 H1 Hf) as (a & Ha & _ & C1).
  destruct (isTaskActiveOnDate_anchor task d2 H2 Hf) as (a' & Ha' & _ & C2).
  rewrite Ha in Ha'. injection Ha' as <-.
  destruct (Task.frequency task).
  - lia.
  - exact I.
  - unfold getDay in C1, C2. intros Hn. zdiv.
  - intros Hy Hm. apply localDay_of_fields; [assumption|assumption|lia].
  - destruct C1 as [C1 M1], C2 as [C2 M2]. intros Hy.
    apply localDay_of_fields; [assumption|lia|lia].
Qed.

End Cadence.

(* ===================================================================== *)
(** ** The views and the calendar grid *)
(* ===================================================================== *)

Section Views.
Variable tz : Z.

Lemma occursWithin_days task start end_ :
  occursWithin tz task start end_ = true
  ↔ ∃ n, localDay tz start ≤ n ≤ localDay tz end_
         ∧ isTaskActiveOnDate tz task (UTC tz (n * msPerDay)) = true.
Proof.
  unfold occursWithin, DateFns.eachDayOfInterval. rewrite existsb_exists. split.
  - intros (x & Hin & Hact).
    apply list_elem_of_In, list_elem_of_fmap in Hin. destruct Hin as (n & -> & Hn).
    apply elem_of_seqZ in Hn. exists n. split; [lia|assumption].
  - intros (n & Hn & Hact). exists (UTC tz (n * msPerDay)). split; [|assumption].
    apply list_elem_of_In, list_elem_of_fmap. exists n. split; [reflexivity|].
    apply elem_of_seqZ. lia.
Qed.

Lemma taskInView_eq viewMode cd task :
  taskInView tz viewMode cd task =
    match Task.frequency task, viewMode with
    | DAILY, (WEEK | MONTH | YEAR) => false
    | WEEKLY, (MONTH | YEAR) => false
    | MONTHLY, YEAR => false
    | NONE, _ =>
        match parseLocalTaskDate tz (Task.date task) with
        | Some taskDate =>
            ((viewInterval tz viewMode cd).1 <=? taskDate)
            && (taskDate <=? (viewInterval tz viewMode cd).2)
        | None => false
        end
    | _, YEAR => yearPrefilter tz task (viewInterval tz viewMode cd).2
    | _, _ => occursWithin tz task (viewInterval tz viewMode cd).1
                (viewInterval tz viewMode cd).2
    end.
Proof.
  unfold taskInView. destruct (viewInterval tz viewMode cd) as [s e]. reflexivity.
Qed.

Lemma between_days a s e :
  setHours0 tz a = a →
  (UTC tz (s * msPerDay) <=? a) && (a <=? UTC tz (e * msPerDay + (msPerDay - 1)))
  = (s <=? localDay tz a) && (localDay tz a <=? e).
Proof.
  intros Ha. rewrite midnight_leb. f_equal.
  destruct (Z.leb_spec (localDay tz a) e) as [H|H].
  - apply Z.leb_le. now apply UTC_end_ge.
  - apply Z.leb_gt. rewrite <- Ha.
    unfold setHours0, UTC, msPerDay in *. lia.
Qed.

(** X8. In the Day view a task with a cadence is shown exactly when the
    evaluator holds it active on the current date; a task without
    recurrence is shown exactly when its anchor is the current local day,
    whatever its [recurrenceEndedAt]. *)
Theorem day_view_shows_what_is_active_today cd task :
  taskInView tz DAY cd task =
    match Task.frequency task with
    | NONE =>
        match parseLocalTaskDate tz (Task.date task) with
        | Some a => localDay tz a =? localDay tz cd
        | None => false
        end
    | _ => isTaskActiveOnDate tz task cd
    end.
Proof.
  rewrite taskInView_eq, viewInterval_days. cbn [fst snd viewDays].
  assert (Hocc : occursWithin tz task (UTC tz (localDay tz cd * msPerDay))
                   (UTC tz (localDay tz cd * msPerDay + (msPerDay - 1)))
                 = isTaskActiveOnDate tz task cd).
  { apply eq_true_iff_eq. rewrite occursWithin_days.
    rewrite localDay_UTC, localDay_UTC_end. split.
    - intros (n & Hn & Hact). assert (n = localDay tz cd) as -> by lia.
      rewrite <- Hact. apply isTaskActiveOnDate_localDay. now rewrite localDay_UTC.
    - intros Hact. exists (localDay tz cd). split; [lia|].
      rewrite <- Hact. apply isTaskActiveOnDate_localDay. now rewrite localDay_UTC. }
  destruct (Task.frequency task); try exact Hocc.
  destruct (parseLocalTaskDate tz (Task.date task)) as [a|] eqn:Ha; [|reflexivity].
  rewrite between_days by (eapply parseLocalTaskDate_midnight; eassumption).
  destruct (Z.leb_spec (localDay tz cd) (localDay tz a)),
           (Z.leb_spec (localDay tz a) (localDay tz cd)),
           (Z.eqb_spec (localDay tz a) (localDay tz cd)); cbn; lia || reflexivity.
Qed.

(** X9. An unended Weekly task with a readable anchor is shown in the
    Week view exactly when the week does not end before the anchor day. *)
Theorem week_view_shows_weekly_from_the_anchor_week cd task a :
  Task.frequency task = WEEKLY →
  Task.recurrenceEndedAt task = None →
  parseLocalTaskDate tz (Task.date task) = Some a →
  taskInView tz WEEK cd task = true
  ↔ localDay tz a ≤ localDay tz (viewInterval tz WEEK cd).2.
Proof.
  intros Hf He Ha. rewrite taskInView_eq, Hf, viewInterval_days. cbn [fst snd].
  rewrite occursWithin_days, localDay_UTC, localDay_UTC_end.
  assert (Hw : ∀ d, isTaskActiveOnDate tz task d = true
                     ↔ localDay tz a ≤ localDay tz d
                       ∧ (localDay tz d - localDay tz a) mod 7 = 0).
  { intros d. destruct (isTaskActiveOnDate_open_days tz task a d He Ha) as (_ & H & _).
    now apply H. }
  assert (Hspan : (viewDays tz WEEK cd).2 = (viewDays tz WEEK cd).1 + 6).
  { cbn [viewDays fst snd]. destruct (Z.ltb_spec (getDay tz cd) 1); lia. }
  set (s := (viewDays tz WEEK cd).1) in *. set (e := (viewDays tz WEEK cd).2) in *.
  split.
  - intros (n & Hn & Hact). apply Hw in Hact. rewrite localDay_UTC in Hact. lia.
  - intros Hle. exists (e - (e - localDay tz a) mod 7).
    split; [zdiv|]. apply Hw. rewrite localDay_UTC. zdiv.
Qed.

Lemma withStatus_twice task s s' : withStatus (withStatus task s) s' = withStatus task s'.
Proof. reflexivity. Qed.

Lemma isTaskActiveOnDate_withStatus task s d :
  isTaskActiveOnDate tz (withStatus task s) d = isTaskActiveOnDate tz task d.
Proof. reflexivity. Qed.

Lemma getTaskStatus_injected task cd d :
  getTaskStatus tz (withStatus task (getTaskStatus tz task cd)) d
  = getTaskStatus tz task d.
Proof.
  unfold getTaskStatus. cbn [withStatus Task.frequency Task.status Task.completionHistory].
  destruct (Task.frequency task); reflexivity.
Qed.

(** X10. A cell of the calendar, fed with the tasks the application has
    filtered and stamped with the status of the current date, shows the
    filtered tasks that are active on the cell's date, each with the
    status of the cell's date. *)
Theorem calendar_cell_resolves_status_for_its_own_date tasks viewMode cd date :
  getTasksForDate tz (filteredTasks tz tasks viewMode cd) date
  = (λ task, withStatus task (getTaskStatus tz task date)) <$>
      filter (λ task, isTaskActiveOnDate tz task date = true)
        (filter (λ task, taskInView tz viewMode cd task = true) tasks).
Proof.
  unfold getTasksForDate, filteredTasks.
  induction (filter (λ task, taskInView tz viewMode cd task = true) tasks)
    as [|t l IH]; [reflexivity|].
  rewrite fmap_cons, !filter_cons.
  rewrite isTaskActiveOnDate_withStatus.
  destruct (decide (isTaskActiveOnDate tz t date = true)).
  - rewrite !fmap_cons, withStatus_twice, getTaskStatus_injected. f_equal. apply IH.
  - apply IH.
Qed.

End Views.

Section Grid.
Variable tz : Z.

Lemma localDay_startOfWeek t wso :
  localDay tz (startOfWeek tz t (Some wso))
  = localDay tz t - ((if getDay tz t <? wso then 7 else 0) + getDay tz t - wso).
Proof. rewrite startOfWeek_day. apply localDay_UTC. Qed.

Lemma getDay_range t : 0 ≤ getDay tz t ≤ 6.
Proof. unfold getDay. zdiv. Qed.

(** X11. The grid of the Week and of the Month view is a run of consecutive
    local midnights that starts on a Monday, is a whole number of weeks
    long (one week; four to six weeks) and holds every day of the
    interval by which the application filters the tasks of that view. *)
Theorem calendar_grid_is_whole_weeks viewMode cd :
  viewMode = WEEK ∨ viewMode = MONTH →
  ∃ m len,
    calendarDays tz viewMode cd = (λ n, UTC tz (n * msPerDay)) <$> seqZ m len
    ∧ (m + 4) mod 7 = 1
    ∧ len mod 7 = 0
    ∧ (viewMode = WEEK → len = 7)
    ∧ (viewMode = MONTH → 28 ≤ len ≤ 42)
    ∧ m ≤ localDay tz (viewInterval tz viewMode cd).1
    ∧ localDay tz (viewInterval tz viewMode cd).2 < m + len.
Proof.
  intros [-> | ->].
  - exists (localDay tz (startOfWeek tz cd (Some 1))),
           (localDay tz (DateFns.endOfWeek tz 1 cd)
            - localDay tz (startOfWeek tz cd (Some 1)) + 1).
    split; [reflexivity|].
    rewrite viewInterval_days. cbn [fst snd viewDays].
    rewrite localDay_UTC, localDay_UTC_end, localDay_startOfWeek, localDay_endOfWeek.
    pose proof (getDay_range cd) as Hr.
    assert (Hg : getDay tz cd = (localDay tz cd + 4) mod 7) by reflexivity.
    destruct (Z.ltb_spec (getDay tz cd) 1).
    + split; [zdiv|]. split; [zdiv|]. split; [lia|]. split; [discriminate|]. lia.
    + split; [zdiv|]. split; [zdiv|]. split; [lia|]. split; [discriminate|]. lia.
  - exists (localDay tz (startOfWeek tz (startOfMonth tz cd) (Some 1))),
           (localDay tz (DateFns.endOfWeek tz 1 (DateFns.endOfMonth tz cd))
            - localDay tz (startOfWeek tz (startOfMonth tz cd) (Some 1)) + 1).
    split; [reflexivity|].
    rewrite viewInterval_days. cbn [fst snd viewDays].
    rewrite localDay_UTC, localDay_UTC_end, localDay_startOfWeek, localDay_endOfWeek.
    pose proof (getDay_range (startOfMonth tz cd)) as Hr1.
    pose proof (getDay_range (DateFns.endOfMonth tz cd)) as Hr2.
    assert (Hg1 : getDay tz (startOfMonth tz cd)
                  = (localDay tz (startOfMonth tz cd) + 4) mod 7) by reflexivity.
    assert (Hg2 : getDay tz (DateFns.endOfMonth tz cd)
                  = (localDay tz (DateFns.endOfMonth tz cd) + 4) mod 7) by reflexivity.
    rewrite localDay_monthStart in *. rewrite localDay_endOfMonth in *.
    pose proof (days_in_month_pos (getFullYear tz cd) (getMonth tz cd + 1)) as Hdim.
    set (dim := days_in_month (getFullYear tz cd) (getMonth tz cd + 1)) in *.
    set (g1 := getDay tz (startOfMonth tz cd)) in *.
    set (g2 := getDay tz (DateFns.endOfMonth tz cd)) in *.
    set (k := localDay tz cd - getDate tz cd) in *.
    clearbody dim g1 g2 k.
    destruct (Z.ltb_spec g1 1), (Z.ltb_spec g2 1);
      (split; [zdiv|]; split; [zdiv|]; split; [discriminate|]; split; [intros _; zdiv|];
       lia).
Qed.

End Grid.

(* ===================================================================== *)
(** ** Saves: creation, update, history, ledger *)
(* ===================================================================== *)

Section SaveMore.

Lemma formatDate_nonempty d : formatDate d ≠ "".
Proof.
  unfold formatDate. intros H.
  assert (E : includes "-" (isoYearStr (c_year (utcCivil d)) +:+ "-" +:+
                 padStart0 2 (StringOfNumber (c_month (utcCivil d))) +:+ "-" +:+
                 padStart0 2 (StringOfNumber (c_day (utcCivil d)))) = true).
  { rewrite includes_app. apply orb_true_iff. right. reflexivity. }
  rewrite H in E. discriminate.
Qed.

Lemma orStr_nonempty s fallback : fallback ≠ "" → orStr s fallback ≠ "".
Proof.
  intros Hf. unfold orStr. destruct s as [v|]; [|assumption].
  destruct (String.eqb_spec v ""); assumption.
Qed.

(** The created task, as [createTask] builds it. *)
Lemma handleSaveTask_create tasks editingTask cd p w :
  editingId editingTask = None →
  (handleSaveTask tasks editingTask cd p w).1
  = tasks ++ [(createTask (clock w (nClock w)) cd p
                 {| rand := rand w; clock := clock w; nRand := nRand w;
                    nClock := S (nClock w) |}).1].
Proof.
  intros He. unfold handleSaveTask, mbind, M_bind. cbn [DateNow]. rewrite He.
  destruct (createTask _ _ _ _) as [newTask w']. reflexivity.
Qed.

(** X12. A save with no task under edit appends exactly one task and leaves
    the others as they are; the new task carries the next generated id,
    the save's timestamp as creation and update time, an empty history,
    a ledger, no series end, a title and a date that are not empty, and a
    completion time exactly when it is a Done task without recurrence. *)
Theorem handleSaveTask_appends_a_new_task tasks editingTask cd p w :
  editingId editingTask = None →
  ∃ t, (handleSaveTask tasks editingTask cd p w).1 = tasks ++ [t]
    ∧ Task.id t = rand w (nRand w)
    ∧ Task.createdAt t = clock w (nClock w)
    ∧ Task.updatedAt t = clock w (nClock w)
    ∧ Task.history t = []
    ∧ Task.recurrenceEndedAt t = None
    ∧ Task.completionHistory t ≠ None
    ∧ Task.title t ≠ ""
    ∧ Task.date t ≠ ""
    ∧ Task.completedAt t
      = (if bool_decide (Task.status t = DONE) && bool_decide (Task.frequency t = NONE)
         then Some (clock w (nClock w)) else None).
Proof.
  intros He. rewrite handleSaveTask_create by assumption.
  eexists. split; [reflexivity|].
  unfold createTask, mbind, M_bind, mret, M_ret. cbn [generateId fst rand nRand].
  cbn [Task.id Task.createdAt Task.updatedAt Task.history Task.recurrenceEndedAt
       Task.completionHistory Task.title Task.date Task.completedAt Task.status
       Task.frequency].
  split; [reflexivity|]. split; [reflexivity|]. split; [reflexivity|].
  split; [reflexivity|]. split; [reflexivity|]. split; [discriminate|].
  split; [apply orStr_nonempty; discriminate|].
  split; [apply orStr_nonempty, formatDate_nonempty|]. reflexivity.
Qed.

Lemma saveStep_other ts eid p t w : Task.id t ≠ eid → (saveStep ts eid p t w).1 = t.
Proof.
  intros H. unfold saveStep.
  destruct (String.eqb_spec (Task.id t) eid); [contradiction|reflexivity].
Qed.

Lemma handleSaveTask_length tasks editingTask cd p w eid :
  editingId editingTask = Some eid →
  length (handleSaveTask tasks editingTask cd p w).1 = length tasks.
Proof.
  intros He. unfold handleSaveTask, mbind, M_bind. cbn [DateNow]. rewrite He.
  apply mapM_length, advances_saveStep.
Qed.

(** A [map] whose callback returns its argument. *)
Lemma mapM_id {A} (f : A → M A) l w :
  (∀ a, advances (f a)) →
  Forall (λ a, ∀ w', (f a w').1 = a) l → (mapM f l w).1 = l.
Proof.
  intros Hadv Hall. apply list_eq. intros i.
  destruct (l !! i) as [a|] eqn:Hi.
  - destruct (mapM_lookup f l w i a Hadv Hi) as (w' & _ & ->).
    f_equal. rewrite Forall_forall in Hall. apply Hall.
    eapply list_elem_of_lookup_2. eassumption.
  - apply lookup_ge_None. rewrite mapM_length by assumption.
    now apply lookup_ge_None.
Qed.

(** X13. A save under an edited id keeps the number and the order of the
    tasks, returns every task with another id as it is, and stamps the
    edited ones with the save's timestamp; when no task has that id the
    collection is returned unchanged. *)
Theorem handleSaveTask_touches_the_edited_id_only tasks editingTask cd p w eid :
  editingId editingTask = Some eid →
  length (handleSaveTask tasks editingTask cd p w).1 = length tasks
  ∧ (∀ i t, tasks !! i = Some t → Task.id t ≠ eid →
            (handleSaveTask tasks editingTask cd p w).1 !! i = Some t)
  ∧ (∀ i t, tasks !! i = Some t → Task.id t = eid →
            ∃ t', (handleSaveTask tasks editingTask cd p w).1 !! i = Some t'
                  ∧ Task.updatedAt t' = clock w (nClock w)
                  ∧ Task.history t `prefix_of` Task.history t')
  ∧ (Forall (λ t, Task.id t ≠ eid) tasks →
     (handleSaveTask tasks editingTask cd p w).1 = tasks).
Proof.
  intros He. split; [now apply (handleSaveTask_length _ _ _ _ _ eid)|]. split; [|split].
  - intros i t Hi Hne.
    destruct (handleSaveTask_update tasks editingTask cd p w eid i t He Hi) as (w' & ->).
    now rewrite saveStep_other.
  - intros i t Hi Hid.
    destruct (handleSaveTask_update tasks editingTask cd p w eid i t He Hi) as (w' & ->).
    eexists. split; [reflexivity|]. unfold saveStep.
    replace (String.eqb (Task.id t) eid) with true
      by (symmetry; now apply String.eqb_eq).
    destruct (updateTask_result (clock w (nClock w)) p t w') as (changes & ->).
    cbn [Task.updatedAt Task.history]. split; [reflexivity|].
    now apply prefix_app_r.
  - intros Hall. unfold handleSaveTask, mbind, M_bind. cbn [DateNow]. rewrite He.
    apply mapM_id; [apply advances_saveStep|].
    eapply Forall_impl; [exact Hall|]. intros t Hne w'. now apply saveStep_other.
Qed.

End SaveMore.

Section Changes.

(** What the log keeps of a detected change. *)
Lemma pushChange_fields ts l w :
  (λ e, (HistoryEntry.field e, HistoryEntry.oldValue e, HistoryEntry.newValue e))
    <$> concat (mapM (pushChange ts) l w).1
  = omap (λ kd, (λ on, (capitalize kd.1, on.1, on.2)) <$> kd.2) l
  ∧ Forall (λ e, HistoryEntry.timestamp e = ts ∧ HistoryEntry.user e = "User")
      (concat (mapM (pushChange ts) l w).1).
Proof.
  revert w. induction l as [|kd l IH]; intros w.
  - split; [reflexivity|constructor].
  - cbn [mapM]. unfold mbind, M_bind.
    destruct (pushChange ts kd w) as [b w1] eqn:Hb.
    specialize (IH w1). destruct (mapM (pushChange ts) l w1) as [bs w2].
    cbn [mret M_ret fst concat] in *. destruct IH as [IH1 IH2].
    unfold pushChange in Hb. cbn [omap]. rewrite fmap_app, IH1.
    destruct kd as [k [[o n]|]]; cbn [snd fst fmap option_fmap option_map] in *.
    + unfold mbind, M_bind, mret, M_ret in Hb. cbn [generateId] in Hb.
      injection Hb as <- <-. split; [reflexivity|].
      apply Forall_app. split; [|assumption].
      constructor; [split; reflexivity|constructor].
    + unfold mret, M_ret in Hb. injection Hb as <- <-. split; [reflexivity|].
      assumption.
Qed.

(** The updated task, with the changes that were detected. *)
Lemma updateTask_changes ts p t w :
  (updateTask ts p t w).1 =
    {| Task.id := default (Task.id t) (Partial.id p);
       Task.title := default (Task.title t) (Partial.title p);
       Task.description := default (Task.description t) (Partial.description p);
       Task.urgency := default (Task.urgency t) (Partial.urgency p);
       Task.importance := default (Task.importance t) (Partial.importance p);
       Task.status := default (Task.status t) (Partial.status p);
       Task.date := default (Task.date t) (Partial.date p);
       Task.frequency := default (Task.frequency t) (Partial.frequency p);
       Task.createdAt := default (Task.createdAt t) (Partial.createdAt p);
       Task.updatedAt := ts;
       Task.completedAt := newCompletedAt ts p t;
       Task.history :=
         Task.history t ++ concat (mapM (pushChange ts) (fieldDiffs p t) w).1;
       Task.completionHistory :=
         spreadOpt (Task.completionHistory t) (Partial.completionHistory p);
       Task.recurrenceEndedAt :=
         spreadOpt (Task.recurrenceEndedAt t) (Partial.recurrenceEndedAt p) |}.
Proof.
  unfold updateTask, detectChanges, mbind, M_bind, mret, M_ret.
  destruct (mapM (pushChange ts) (fieldDiffs p t) w) as [cs w']. reflexivity.
Qed.

(** The edited task after a save. *)
Lemma handleSaveTask_edited tasks editingTask cd p w eid i t :
  editingId editingTask = Some eid → tasks !! i = Some t → Task.id t = eid →
  ∃ w', (handleSaveTask tasks editingTask cd p w).1 !! i
        = Some (updateTask (clock w (nClock w)) p t w').1.
Proof.
  intros He Hi Hid.
  destruct (handleSaveTask_update tasks editingTask cd p w eid i t He Hi) as (w' & ->).
  exists w'. unfold saveStep.
  replace (String.eqb (Task.id t) eid) with true by (symmetry; now apply String.eqb_eq).
  reflexivity.
Qed.


Lemma diffReq_same {A} `{EqDecision A} (str : A → string) (x : A) :
  diffReq str (Some x) x = None.
Proof. unfold diffReq. now rewrite decide_True. Qed.

Lemma diffOpt_same (x : option Z) : diffOpt (optOfOption x) x = None.
Proof. destruct x as [v|]; [|reflexivity]. cbn. now rewrite decide_True. Qed.

(** The patch that the editor submits. *)
Lemma submitData_fields tz fd ctx :
  Partial.id (submitData tz fd ctx) = Partial.id fd
  ∧ Partial.title (submitData tz fd ctx) = Partial.title fd
  ∧ Partial.description (submitData tz fd ctx) = Partial.description fd
  ∧ Partial.urgency (submitData tz fd ctx) = Partial.urgency fd
  ∧ Partial.importance (submitData tz fd ctx) = Partial.importance fd
  ∧ Partial.status (submitData tz fd ctx) = Partial.status fd
  ∧ Partial.date (submitData tz fd ctx) = Partial.date fd
  ∧ Partial.frequency (submitData tz fd ctx) = Partial.frequency fd
  ∧ Partial.createdAt (submitData tz fd ctx) = Partial.createdAt fd
  ∧ Partial.updatedAt (submitData tz fd ctx) = Partial.updatedAt fd
  ∧ Partial.completedAt (submitData tz fd ctx) = Partial.completedAt fd
  ∧ Partial.recurrenceEndedAt (submitData tz fd ctx) = Partial.recurrenceEndedAt fd.
Proof.
  unfold submitData.
  destruct (Partial.frequency fd) as [[]|] eqn:E; cbn;
    repeat (split; [reflexivity|]); try reflexivity; now rewrite E.
Qed.

Lemma fieldDiffs_unchanged_form tz t ctx :
  getTaskStatus tz t ctx = Task.status t →
  omap (λ kd : string * option (string * string),
          (λ on, (capitalize kd.1, on.1, on.2)) <$> kd.2)
    (fieldDiffs (submitData tz (formOfTask tz t ctx) ctx) t) = [].
Proof.
  intros Hs. unfold fieldDiffs.
  destruct (submitData_fields tz (formOfTask tz t ctx) ctx)
    as (-> & -> & -> & -> & -> & -> & -> & -> & -> & -> & -> & ->).
  cbn [formOfTask partialOfTask Partial.id Partial.title Partial.description
       Partial.urgency Partial.importance Partial.status Partial.date Partial.frequency
       Partial.createdAt Partial.updatedAt Partial.completedAt
       Partial.recurrenceEndedAt].
  rewrite Hs, !diffReq_same, diffOpt_same.
  assert (Hend : diffOpt match Task.recurrenceEndedAt t with
                         | Some e => Given e
                         | None => Undefined
                         end (Task.recurrenceEndedAt t) = None).
  { destruct (Task.recurrenceEndedAt t) as [e|]; [|reflexivity].
    cbn. now rewrite decide_True. }
  rewrite Hend. reflexivity.
Qed.

(** X15. The editor opened on a stored task and submitted without an edit:
    title, description, urgency, importance, date, frequency, creation
    time and series end are as stored, [updatedAt] is the save's
    timestamp, and the stored status becomes the status the task has on
    the context date; no history entry is added when that status is the
    stored one, as it always is for a task without recurrence. *)
Theorem unchanged_form_saves_nothing_but_the_period_status tz tasks cd ctx w i t :
  tasks !! i = Some t → Task.id t ≠ "" →
  ∃ t',
    (saveForm tz tasks (Some (partialOfTask t)) cd (formOfTask tz t ctx) ctx w).1 !! i
      = Some t'
    ∧ Task.id t' = Task.id t
    ∧ Task.title t' = Task.title t
    ∧ Task.description t' = Task.description t
    ∧ Task.urgency t' = Task.urgency t
    ∧ Task.importance t' = Task.importance t
    ∧ Task.date t' = Task.date t
    ∧ Task.frequency t' = Task.frequency t
    ∧ Task.createdAt t' = Task.createdAt t
    ∧ Task.recurrenceEndedAt t' = Task.recurrenceEndedAt t
    ∧ Task.updatedAt t' = clock w (nClock w)
    ∧ Task.status t' = getTaskStatus tz t ctx
    ∧ (getTaskStatus tz t ctx = Task.status t → Task.history t' = Task.history t)
    ∧ (Task.frequency t = NONE → Task.history t' = Task.history t).
Proof.
  intros Hi Hid.
  assert (He : editingId (Some (partialOfTask t)) = Some (Task.id t)).
  { cbn. destruct (String.eqb_spec (Task.id t) ""); [contradiction|reflexivity]. }
  unfold saveForm, handleSubmit.
  destruct (handleSaveTask_edited tasks (Some (partialOfTask t)) cd
              (submitData tz (formOfTask tz t ctx) ctx) w (Task.id t) i t He Hi eq_refl)
    as (w' & ->).
  rewrite updateTask_changes.
  eexists. split; [reflexivity|].
  cbn [Task.id Task.title Task.description Task.urgency Task.importance Task.date
       Task.frequency Task.createdAt Task.recurrenceEndedAt Task.updatedAt Task.status
       Task.history].
  destruct (submitData_fields tz (formOfTask tz t ctx) ctx)
    as (-> & -> & -> & -> & -> & -> & -> & -> & -> & _ & _ & ->).
  cbn [formOfTask partialOfTask Partial.id Partial.title Partial.description
       Partial.urgency Partial.importance Partial.status Partial.date Partial.frequency
       Partial.createdAt Partial.recurrenceEndedAt default].
  assert (Hnone : getTaskStatus tz t ctx = Task.status t →
            Task.history t ++
              concat (mapM (pushChange (clock w (nClock w)))
                        (fieldDiffs (submitData tz (formOfTask tz t ctx) ctx) t) w').1
            = Task.history t).
  { intros Hs.
    destruct (pushChange_fields (clock w (nClock w))
                (fieldDiffs (submitData tz (formOfTask tz t ctx) ctx) t) w') as [H1 _].
    rewrite fieldDiffs_unchanged_form in H1 by assumption.
    apply fmap_nil_inv in H1. rewrite H1. apply app_nil_r. }
  repeat (split; [reflexivity|]).
  split; [now destruct (Task.recurrenceEndedAt t)|].
  split; [reflexivity|]. split; [reflexivity|]. split; [exact Hnone|].
  intros Hf. apply Hnone. unfold getTaskStatus. now rewrite Hf.
Qed.

End Changes.

Section Ledger.

Lemma editingId_partialOfTask t :
  Task.id t ≠ "" → editingId (Some (partialOfTask t)) = Some (Task.id t).
Proof.
  intros Hid. cbn. destruct (String.eqb_spec (Task.id t) ""); [contradiction|reflexivity].
Qed.

Lemma getTaskStatus_ledger tz t f h d :
  Task.frequency t = f → f ≠ NONE → Task.completionHistory t = Some h →
  getTaskStatus tz t d = default TODO (h !! getPeriodKey tz d f).
Proof.
  intros Hf Hn Hh. unfold getTaskStatus. rewrite Hf, Hh.
  destruct f; [contradiction|reflexivity..].
Qed.


(** X17. The editor submitted on a recurring task with status [s] chosen:
    the task afterwards has status [s] on the context date and on every
    date of the same period, and on the dates of the other periods the
    status that the form's ledger holds for them, which is the task's
    own previous status there when the form still has the frequency and
    the ledger of the stored task. *)
Theorem saveForm_records_the_period_status tz tasks editingTask cd fd ctx w
    eid i t f s :
  editingId editingTask = Some eid → tasks !! i = Some t → Task.id t = eid →
  Partial.frequency fd = Some f → f ≠ NONE →
  Partial.status fd = Some s →
  ∃ t',
    (saveForm tz tasks editingTask cd fd ctx w).1 !! i = Some t'
    ∧ Task.frequency t' = f
    ∧ getTaskStatus tz t' ctx = s
    ∧ (∀ d, getPeriodKey tz d f = getPeriodKey tz ctx f → getTaskStatus tz t' d = s)
    ∧ (∀ d, getPeriodKey tz d f ≠ getPeriodKey tz ctx f →
            getTaskStatus tz t' d
            = default TODO
                (default ∅ (optValue (Partial.completionHistory fd))
                   !! getPeriodKey tz d f))
    ∧ (f = Task.frequency t →
       Partial.completionHistory fd
         = Partial.completionHistory (formOfTask tz t ctx) →
       ∀ d, getPeriodKey tz d f ≠ getPeriodKey tz ctx f →
            getTaskStatus tz t' d = getTaskStatus tz t d).
Proof.
  intros He Hi Hid Hf Hrec Hs.
  unfold saveForm, handleSubmit.
  destruct (handleSaveTask_edited tasks editingTask cd (submitData tz fd ctx) w
              eid i t He Hi Hid) as (w' & ->).
  assert (Hsub : Partial.frequency (submitData tz fd ctx) = Some f
                 ∧ Partial.completionHistory (submitData tz fd ctx)
                   = Given (<[getPeriodKey tz ctx f := s]>
                              (default ∅ (optValue (Partial.completionHistory fd))))).
  { unfold submitData. rewrite Hf, Hs. destruct f; try contradiction; split; reflexivity. }
  destruct Hsub as [Hsf Hsl].
  pose proof (updateTask_changes (clock w (nClock w)) (submitData tz fd ctx) t w') as Hu.
  set (t' := (updateTask (clock w (nClock w)) (submitData tz fd ctx) t w').1) in *.
  assert (Hfr : Task.frequency t' = f).
  { rewrite Hu. cbn [Task.frequency]. now rewrite Hsf. }
  assert (Hl : Task.completionHistory t'
               = Some (<[getPeriodKey tz ctx f := s]>
                         (default ∅ (optValue (Partial.completionHistory fd))))).
  { rewrite Hu. cbn [Task.completionHistory]. now rewrite Hsl. }
  clearbody t'. clear Hu.
  exists t'. split; [reflexivity|]. split; [exact Hfr|].
  assert (Hget : ∀ d, getTaskStatus tz t' d
                 = default TODO
                     (<[getPeriodKey tz ctx f := s]>
                        (default ∅ (optValue (Partial.completionHistory fd)))
                      !! getPeriodKey tz d f))
    by (intros d; now apply getTaskStatus_ledger).
  split; [|split; [|split]].
  - rewrite Hget. now rewrite lookup_insert_eq.
  - intros d Hk. rewrite Hget, Hk. now rewrite lookup_insert_eq.
  - intros d Hk. rewrite Hget. now rewrite lookup_insert_ne by congruence.
  - intros Hft Hled d Hk. rewrite Hget.
    rewrite lookup_insert_ne by congruence.
    rewrite Hled. cbn [formOfTask Partial.completionHistory optValue default].
    unfold getTaskStatus. rewrite <- Hft.
    destruct (Task.completionHistory t) as [h|]; cbn [default]; unfold id.
    + destruct f; [contradiction|reflexivity..].
    + rewrite lookup_empty. destruct f; [contradiction|reflexivity..].
Qed.

(** X18. The resumption of a series from the editor opened on the stored
    task: the series end is removed and the stored status is To Do, the
    date and the frequency stay, so that the task is active as a task
    that was never ended; the ledger of a recurring task is kept, and
    with it the status of every period. *)
Theorem resumeSeries_reopens_the_series tz tasks cd ctx w i t :
  tasks !! i = Some t → Task.id t ≠ "" →
  ∃ t',
    (resumeSeries tasks (Some (partialOfTask t)) cd (formOfTask tz t ctx) w).1 !! i
      = Some t'
    ∧ Task.recurrenceEndedAt t' = None
    ∧ Task.status t' = TODO
    ∧ Task.date t' = Task.date t
    ∧ Task.frequency t' = Task.frequency t
    ∧ (∀ t0 d, Task.date t0 = Task.date t → Task.frequency t0 = Task.frequency t →
               Task.recurrenceEndedAt t0 = None →
               isTaskActiveOnDate tz t' d = isTaskActiveOnDate tz t0 d)
    ∧ (Task.frequency t ≠ NONE → ∀ d, getTaskStatus tz t' d = getTaskStatus tz t d).
Proof.
  intros Hi Hid.
  unfold resumeSeries, handleResumeSeries.
  destruct (handleSaveTask_edited tasks (Some (partialOfTask t)) cd
              (resumeSeriesData (formOfTask tz t ctx)) w (Task.id t) i t
              (editingId_partialOfTask t Hid) Hi eq_refl) as (w' & ->).
  rewrite updateTask_changes. eexists. split; [reflexivity|].
  cbn [Task.recurrenceEndedAt Task.status Task.date Task.frequency
       resumeSeriesData withSeriesFields formOfTask partialOfTask
       Partial.recurrenceEndedAt Partial.status Partial.date Partial.frequency
       spreadOpt default].
  split; [reflexivity|]. split; [reflexivity|]. split; [reflexivity|].
  split; [reflexivity|]. split.
  - intros t0 d Hd Hf He0. unfold isTaskActiveOnDate.
    cbn [Task.recurrenceEndedAt Task.date Task.frequency
         resumeSeriesData withSeriesFields formOfTask partialOfTask
         Partial.recurrenceEndedAt Partial.date Partial.frequency spreadOpt default].
    now rewrite He0, Hd, Hf.
  - intros Hf d. unfold getTaskStatus.
    cbn [Task.frequency Task.completionHistory Task.status
         resumeSeriesData withSeriesFields formOfTask partialOfTask
         Partial.completionHistory Partial.frequency spreadOpt default].
    destruct (Task.frequency t); [contradiction|..];
      (destruct (Task.completionHistory t) as [h|]; cbn [default];
       [reflexivity|now rewrite lookup_empty]).
Qed.

End Ledger.

(* ===================================================================== *)
(** ** The matrix *)
(* ===================================================================== *)

Section Matrix.

Lemma relocateTask_settled taskId q t w :
  Task.id t ≠ taskId
  ∨ (Task.urgency t = q_urgency q ∧ Task.importance t = q_importance q) →
  (relocateTask taskId q t w).1 = t.
Proof.
  intros [H|[H1 H2]]; [now apply relocateTask_other|now apply relocateTask_same_pair].
Qed.

Lemma relocateTask_settles taskId q t w :
  Task.id (relocateTask taskId q t w).1 = Task.id t
  ∧ (Task.id t = taskId →
     Task.urgency (relocateTask taskId q t w).1 = q_urgency q
     ∧ Task.importance (relocateTask taskId q t w).1 = q_importance q).
Proof.
  destruct (decide (Task.urgency t = q_urgency q ∧ Task.importance t = q_importance q))
    as [[H1 H2]|Hn].
  - rewrite relocateTask_same_pair by assumption. auto.
  - destruct (decide (Task.id t = taskId)) as [Hid|Hid].
    + rewrite relocateTask_moved; [cbn; auto|assumption|].
      destruct (decide (Task.urgency t = q_urgency q)); [|now left].
      destruct (decide (Task.importance t = q_importance q)); [|now right].
      exfalso. apply Hn. now split.
    + rewrite relocateTask_other by assumption. split; [reflexivity|contradiction].
Qed.

(** X19. A drop with nothing under the card, on the card itself, on a
    target under whose id [QUADRANTS] has no member, own or inherited, or
    of a card that belongs to no task returns the collection as it is; and
    a drop repeated on the result of the first changes nothing more, so
    that one move leaves one entry. *)
Theorem handleDragEnd_changes_nothing_twice tasks event w w2 :
  (over_id event = None
   ∨ over_id event = Some (active_id event)
   ∨ (∃ over, over_id event = Some over
        ∧ QUADRANTS over = None ∧ inheritedMember over = false)
   ∨ Forall (λ t, Task.id t ≠ active_id event) tasks →
   (handleDragEnd tasks event w).1 = tasks)
  ∧ (handleDragEnd (handleDragEnd tasks event w).1 event w2).1
    = (handleDragEnd tasks event w).1.
Proof.
  unfold handleDragEnd.
  destruct (over_id event) as [over|] eqn:Ho; [|split; reflexivity].
  destruct (String.eqb_spec (active_id event) over) as [Heq|Hne]; [split; reflexivity|].
  destruct (QUADRANTS over) as [q|] eqn:Hq; [|split; reflexivity].
  split.
  - intros [H|[H|[H|H]]].
    + discriminate.
    + congruence.
    + destruct H as (o & Ho' & Hq' & _). congruence.
    + apply mapM_id; [apply advances_relocateTask|].
      eapply Forall_impl; [exact H|]. intros t Ht w'. now apply relocateTask_other.
  - apply mapM_id; [apply advances_relocateTask|].
    pose proof (mapM_Forall2 (relocateTask (active_id event) q) tasks w
                  (advances_relocateTask _ _)) as HF.
    apply Forall_forall. intros b Hb.
    apply list_elem_of_lookup in Hb as [i Hi].
    destruct (Forall2_lookup_r _ _ _ _ _ HF Hi) as (a & _ & w' & _ & ->).
    intros w''. apply relocateTask_settled.
    destruct (relocateTask_settles (active_id event) q a w') as [Hid Hpair].
    destruct (decide (Task.id a = active_id event)) as [E|E].
    + right. now apply Hpair.
    + left. now rewrite Hid.
Qed.

Lemma QUADRANTS_q (qid : string) q :
  QUADRANTS qid = Some q →
  qid = "q1" ∨ qid = "q2" ∨ qid = "q3" ∨ qid = "q4".
Proof.
  unfold QUADRANTS.
  destruct (String.eqb_spec qid "q1"); [auto|].
  destruct (String.eqb_spec qid "q2"); [auto|].
  destruct (String.eqb_spec qid "q3"); [auto|].
  destruct (String.eqb_spec qid "q4"); [auto|discriminate].
Qed.

(** X20. The four lists of the matrix partition the tasks it is given:
    together they are a rearrangement of the tasks, each list keeps the
    order of the tasks, and a task is in the list of a quadrant exactly
    when it has the urgency and the importance of that quadrant. *)
Theorem quadrants_partition_the_tasks tasks :
  ∃ l1 l2 l3 l4,
    getTasksForQuadrant tasks "q1" = Some l1
    ∧ getTasksForQuadrant tasks "q2" = Some l2
    ∧ getTasksForQuadrant tasks "q3" = Some l3
    ∧ getTasksForQuadrant tasks "q4" = Some l4
    ∧ tasks ≡ₚ l1 ++ l2 ++ l3 ++ l4
    ∧ l1 `sublist_of` tasks ∧ l2 `sublist_of` tasks
    ∧ l3 `sublist_of` tasks ∧ l4 `sublist_of` tasks
    ∧ (∀ qid q l t, QUADRANTS qid = Some q → getTasksForQuadrant tasks qid = Some l →
         (t ∈ l ↔ t ∈ tasks ∧ Task.urgency t = q_urgency q
                  ∧ Task.importance t = q_importance q)).
Proof.
  unfold getTasksForQuadrant. cbn [QUADRANTS String.eqb Ascii.eqb Bool.eqb].
  eexists _, _, _, _.
  split; [reflexivity|]. split; [reflexivity|]. split; [reflexivity|].
  split; [reflexivity|]. cbn [q_urgency q_importance].
  split.
  { induction tasks as [|t l IH]; [reflexivity|].
    rewrite !filter_cons.
    destruct (Task.urgency t), (Task.importance t); repeat case_decide;
      try (exfalso; intuition congruence);
      cbn [app]; rewrite <- ?Permutation_middle; apply perm_skip; exact IH. }
  split; [apply sublist_filter|]. split; [apply sublist_filter|].
  split; [apply sublist_filter|]. split; [apply sublist_filter|].
  intros qid q l t Hq. rewrite Hq. intros [= <-].
  rewrite list_elem_of_filter. tauto.
Qed.

(** On a stored task the form is the one of [formOfTask]. *)
Lemma formOfEditing_partialOfTask tz task contextDate :
  formOfEditing tz (partialOfTask task) contextDate = formOfTask tz task contextDate.
Proof.
  unfold formOfEditing, formOfTask, getTaskStatus.
  cbn [partialOfTask Partial.id Partial.title Partial.description Partial.urgency
       Partial.importance Partial.status Partial.date Partial.frequency
       Partial.createdAt Partial.updatedAt Partial.completedAt Partial.history
       Partial.completionHistory Partial.recurrenceEndedAt default].
  destruct (Task.frequency task), (Task.completionHistory task),
    (Task.recurrenceEndedAt task);
    cbn [optOfOption optValue default]; unfold id; rewrite ?lookup_empty; reflexivity.
Qed.


End Matrix.

(* ===================================================================== *)
(** ** Numbers and dates as text *)
(* ===================================================================== *)

Section Numbers.

Lemma digitsValue_pos d p :
  digitsValue (Z.pos p) (NilEmpty.string_of_uint d) = Some (Z.pos (Pos.of_uint_acc d p)).
Proof.
  revert p. induction d; intros p; cbn [NilEmpty.string_of_uint digitsValue Pos.of_uint_acc];
    try reflexivity;
    match goal with
    | |- context [digitValue ?c] =>
        let v := eval vm_compute in (digitValue c) in change (digitValue c) with v
    end; cbn match; rewrite <- IHd; f_equal; lia.
Qed.

Lemma digitsValue_uint d :
  digitsValue 0 (NilEmpty.string_of_uint d) = Some (Z.of_N (Pos.of_uint d)).
Proof.
  induction d; cbn [NilEmpty.string_of_uint digitsValue Pos.of_uint];
    try reflexivity;
    match goal with
    | |- context [digitValue ?c] =>
        let v := eval vm_compute in (digitValue c) in change (digitValue c) with v
    end; cbn match.
  - exact IHd.
  - apply (digitsValue_pos d 1).
  - apply (digitsValue_pos d 2).
  - apply (digitsValue_pos d 3).
  - apply (digitsValue_pos d 4).
  - apply (digitsValue_pos d 5).
  - apply (digitsValue_pos d 6).
  - apply (digitsValue_pos d 7).
  - apply (digitsValue_pos d 8).
  - apply (digitsValue_pos d 9).
Qed.

Lemma digitsValue_to_uint p :
  digitsValue 0 (NilEmpty.string_of_uint (Pos.to_uint p)) = Some (Z.pos p).
Proof. now rewrite digitsValue_uint, DecimalPos.Unsigned.of_to. Qed.

(** The digits of a positive number: a first character that is no sign. *)
Lemma string_of_to_uint p :
  ∃ c r, NilEmpty.string_of_uint (Pos.to_uint p) = String c r
         ∧ digitValue c ≠ None.
Proof.
  pose proof (DecimalPos.Unsigned.to_uint_nonnil p) as Hn.
  destruct (Pos.to_uint p); [contradiction|..];
    cbn [NilEmpty.string_of_uint]; eexists _, _; (split; [reflexivity|]);
    vm_compute; discriminate.
Qed.

Lemma NilZero_string_of_to_uint p :
  NilZero.string_of_uint (Pos.to_uint p) = NilEmpty.string_of_uint (Pos.to_uint p).
Proof.
  pose proof (DecimalPos.Unsigned.to_uint_nonnil p) as Hn.
  destruct (Pos.to_uint p); [contradiction|..]; reflexivity.
Qed.

Lemma Number_digit c r :
  digitValue c ≠ None → Number (String c r) = digitsValue 0 (String c r).
Proof.
  intros Hc. unfold Number.
  destruct c as [[] [] [] [] [] [] [] []]; try reflexivity;
    exfalso; apply Hc; vm_compute; reflexivity.
Qed.

Lemma StringOfNumber_pos p :
  StringOfNumber (Z.pos p) = NilEmpty.string_of_uint (Pos.to_uint p).
Proof.
  unfold StringOfNumber. cbn [Z.to_int NilZero.string_of_int].
  apply NilZero_string_of_to_uint.
Qed.

Lemma StringOfNumber_neg p :
  StringOfNumber (Z.neg p) = String "-" (NilEmpty.string_of_uint (Pos.to_uint p)).
Proof.
  unfold StringOfNumber. cbn [Z.to_int NilZero.string_of_int].
  now rewrite NilZero_string_of_to_uint.
Qed.

(** [Number(String(n))] is [n]. *)
Lemma Number_StringOfNumber n : Number (StringOfNumber n) = Some n.
Proof.
  destruct n as [|p|p].
  - reflexivity.
  - rewrite StringOfNumber_pos.
    destruct (string_of_to_uint p) as (c & r & E & Hc).
    rewrite E, Number_digit by assumption. rewrite <- E. apply digitsValue_to_uint.
  - rewrite StringOfNumber_neg.
    destruct (string_of_to_uint p) as (c & r & E & Hc).
    rewrite E. cbn [Number]. rewrite <- E, digitsValue_to_uint. reflexivity.
Qed.

Lemma StringOfNumber_nonempty n : StringOfNumber n ≠ "".
Proof.
  intros E. pose proof (Number_StringOfNumber n) as H.
  destruct n as [|p|p]; try discriminate.
  - rewrite StringOfNumber_pos in E.
    destruct (string_of_to_uint p) as (c & r & E' & _). congruence.
Qed.

Lemma StringOfNumber_inj n m : StringOfNumber n = StringOfNumber m → n = m.
Proof.
  intros E. pose proof (Number_StringOfNumber n) as H.
  rewrite E, Number_StringOfNumber in H. congruence.
Qed.

Lemma digitsValue_zeros j (s : string) :
  digitsValue 0 (zeros j +:+ s) = digitsValue 0 s.
Proof.
  induction j as [|j IH]; [reflexivity|].
  cbn [zeros]. rewrite append_cons. cbn [digitsValue].
  change (digitValue "0") with (Some 0). cbn match. exact IH.
Qed.

(** A padded number without sign reads as the number. *)
Lemma Number_padStart0 k n :
  0 ≤ n → Number (padStart0 k (StringOfNumber n)) = Some n.
Proof.
  intros Hn. unfold padStart0.
  assert (Hd : digitsValue 0 (StringOfNumber n) = Some n).
  { destruct n as [|p|p]; [reflexivity| |lia].
    rewrite StringOfNumber_pos. apply digitsValue_to_uint. }
  destruct (k - String.length (StringOfNumber n))%nat as [|j].
  - cbn [zeros]. rewrite append_empty_l. apply Number_StringOfNumber.
  - cbn [zeros]. rewrite append_cons, Number_digit by (vm_compute; discriminate).
    rewrite <- append_cons. change (String "0" (zeros j)) with (zeros (S j)).
    now rewrite digitsValue_zeros.
Qed.

Lemma includes_zeros c j : c ≠ "0"%char → includes c (zeros j) = false.
Proof.
  intros Hc. induction j as [|j IH]; [reflexivity|].
  cbn [zeros includes]. rewrite IH, orb_false_r. apply Ascii.eqb_neq. congruence.
Qed.

Lemma includes_padStart0 c k n :
  0 ≤ n → digitValue c = None → includes c (padStart0 k (StringOfNumber n)) = false.
Proof.
  intros Hn Hc. unfold padStart0. rewrite includes_app.
  rewrite includes_zeros by (intros ->; vm_compute in Hc; discriminate).
  destruct n as [|p|p]; [| |lia].
  - change (StringOfNumber 0) with "0". cbn [includes]. rewrite orb_false_r.
    apply Ascii.eqb_neq. intros <-. vm_compute in Hc. discriminate.
  - rewrite StringOfNumber_pos. now apply includes_string_of_uint.
Qed.

Lemma split_sep sep (a b : string) :
  includes sep a = false → split sep (a +:+ String sep b) = a :: split sep b.
Proof.
  induction a as [|c a IH]; intros H.
  - rewrite append_empty_l. cbn [split]. now rewrite Ascii.eqb_refl.
  - cbn [includes] in H. apply orb_false_iff in H as [Hc Ha].
    rewrite append_cons. cbn [split]. rewrite Hc, IH by assumption. reflexivity.
Qed.

Lemma split_none sep (a : string) : includes sep a = false → split sep a = [a].
Proof.
  induction a as [|c a IH]; intros H; [reflexivity|].
  cbn [includes] in H. apply orb_false_iff in H as [Hc Ha].
  cbn [split]. rewrite Hc, IH by assumption. reflexivity.
Qed.

Lemma join_consHead sep c (l : list string) :
  l ≠ [] → join sep (consHead c l) = String c (join sep l).
Proof.
  destruct l as [|h [|x t]]; [contradiction|reflexivity|]. intros _.
  cbn [consHead]. rewrite !join_cons2. now rewrite append_cons.
Qed.

Lemma split_nonempty sep (s : string) : split sep s ≠ [].
Proof.
  destruct s as [|c r]; [discriminate|]. cbn [split].
  destruct (Ascii.eqb c sep); [discriminate|].
  destruct (split sep r); discriminate.
Qed.

(** [s.split(sep).join(sep)] is [s]. *)
Lemma join_split sep (s : string) : join (String sep "") (split sep s) = s.
Proof.
  induction s as [|c r IH]; [reflexivity|]. cbn [split].
  destruct (Ascii.eqb_spec c sep) as [->|Hne].
  - pose proof (split_nonempty sep r) as Hn.
    destruct (split sep r) as [|x t] eqn:E; [contradiction|].
    rewrite join_cons2, IH. reflexivity.
  - rewrite join_consHead by apply split_nonempty. now rewrite IH.
Qed.

(** Texts joined by a separator that they do not hold come apart again. *)
Lemma app_sep_inj sep (a a' b b' : string) :
  includes sep a = false → includes sep a' = false →
  a +:+ String sep b = a' +:+ String sep b' → a = a' ∧ b = b'.
Proof.
  intros Ha Ha' E. apply (f_equal (split sep)) in E.
  rewrite !split_sep in E by assumption. injection E as E1 E2. split; [assumption|].
  rewrite <- (join_split sep b), <- (join_split sep b'). now rewrite E2.
Qed.

End Numbers.

Section Dates.
Variable tz : Z.

Lemma dash_no_digit : digitValue "-" = None.
Proof. reflexivity. Qed.

Lemma formatDate_eq t :
  0 ≤ c_year (utcCivil t) ≤ 9999 →
  formatDate t
  = padStart0 4 (StringOfNumber (c_year (utcCivil t)))
    +:+ String "-" (padStart0 2 (StringOfNumber (c_month (utcCivil t)))
                    +:+ String "-" (padStart0 2 (StringOfNumber (c_day (utcCivil t))))).
Proof.
  intros Hy. unfold formatDate, isoYearStr.
  destruct (Z.leb_spec 0 (c_year (utcCivil t))); [|lia].
  destruct (Z.leb_spec (c_year (utcCivil t)) 9999); [|lia].
  reflexivity.
Qed.

Lemma utcCivil_valid t :
  1 ≤ c_month (utcCivil t) ≤ 12 ∧ 1 ≤ c_day (utcCivil t) ≤ 31.
Proof.
  unfold utcCivil. pose proof (civil_from_days_valid (Day t)) as [Hm Hd].
  pose proof (days_in_month_pos (c_year (civil_from_days (Day t)))
                (c_month (civil_from_days (Day t)))). lia.
Qed.

Lemma parse_formatDate t :
  0 ≤ c_year (utcCivil t) ≤ 9999 →
  parseLocalTaskDate tz (formatDate t)
  = Some (setHours0 tz (newDateYMD tz (c_year (utcCivil t))
                          (c_month (utcCivil t) - 1) (c_day (utcCivil t)))).
Proof.
  intros Hy. destruct (utcCivil_valid t) as [Hm Hd].
  rewrite formatDate_eq by assumption. unfold parseLocalTaskDate.
  rewrite split_sep by (apply includes_padStart0; [lia|reflexivity]).
  rewrite split_sep by (apply includes_padStart0; [lia|reflexivity]).
  rewrite split_none by (apply includes_padStart0; [lia|reflexivity]).
  cbn [fmap list_fmap]. rewrite !Number_padStart0 by lia. reflexivity.
Qed.

Lemma MakeDay_civil y m d :
  1 ≤ m ≤ 12 → MakeDay y (m - 1) d = days_from_civil y m d.
Proof.
  intros Hm. unfold MakeDay.
  replace ((m - 1) / 12) with 0 by zdiv. replace ((m - 1) mod 12 + 1) with m by zdiv.
  replace (y + 0) with y by lia. rewrite (days_from_civil_linear y m d). lia.
Qed.

Lemma parse_formatDate_utc_day t :
  100 ≤ c_year (utcCivil t) ≤ 9999 →
  parseLocalTaskDate tz (formatDate t) = Some (UTC tz (Day t * msPerDay)).
Proof.
  intros Hy. destruct (utcCivil_valid t) as [Hm Hd].
  rewrite parse_formatDate by lia. f_equal. unfold newDateYMD.
  destruct (Z.leb_spec 0 (c_year (utcCivil t))); [|lia].
  destruct (Z.leb_spec (c_year (utcCivil t)) 99); [lia|]. cbn [andb].
  rewrite setHours0_UTC, MakeDay_civil by assumption.
  unfold utcCivil. now rewrite (days_from_civil_from_days (Day t)).
Qed.

(** X22. The text [formatDate] writes for an instant whose UTC year is
    100..9999 is read back by [parseLocalTaskDate] as the local midnight
    of the day with the UTC date of that instant; for a UTC year 0..99
    it is read back 1900 years later. *)
Theorem formatDate_reads_back_as_the_utc_day t :
  (100 ≤ c_year (utcCivil t) ≤ 9999 →
   parseLocalTaskDate tz (formatDate t) = Some (UTC tz (Day t * msPerDay)))
  ∧ (0 ≤ c_year (utcCivil t) ≤ 99 →
     parseLocalTaskDate tz (formatDate t)
     = Some (UTC tz (days_from_civil (1900 + c_year (utcCivil t))
                       (c_month (utcCivil t)) (c_day (utcCivil t)) * msPerDay))).
Proof.
  destruct (utcCivil_valid t) as [Hm Hd].
  split; intros Hy; [now apply parse_formatDate_utc_day|].
  rewrite parse_formatDate by lia; f_equal; unfold newDateYMD.
  - destruct (Z.leb_spec 0 (c_year (utcCivil t))); [|lia].
    destruct (Z.leb_spec (c_year (utcCivil t)) 99); [|lia]. cbn [andb].
    now rewrite setHours0_UTC, MakeDay_civil.
Qed.

(** X23. A task created from a patch without a date and without recurrence
    is dated [formatDate(currentDate)], the UTC date of the current
    date: it is active exactly on the dates whose local day is the day
    with that date, hence on the current date itself only where the
    local and the UTC date of the current date agree. *)
Theorem created_task_is_dated_by_the_utc_day tasks editingTask cd p w :
  editingId editingTask = None →
  Partial.date p = None ∨ Partial.date p = Some "" →
  Partial.frequency p = None ∨ Partial.frequency p = Some NONE →
  100 ≤ c_year (utcCivil cd) ≤ 9999 →
  ∃ t, (handleSaveTask tasks editingTask cd p w).1 = tasks ++ [t]
       ∧ Task.date t = formatDate cd
       ∧ (∀ d, isTaskActiveOnDate tz t d = true ↔ localDay tz d = Day cd)
       ∧ (isTaskActiveOnDate tz t cd = true ↔ localDay tz cd = Day cd).
Proof.
  intros He Hd Hf Hy. rewrite handleSaveTask_create by assumption.
  set (t := (createTask _ _ _ _).1).
  assert (Hdate : Task.date t = formatDate cd).
  { subst t. unfold createTask, mbind, M_bind, mret, M_ret. cbn [generateId fst Task.date].
    destruct Hd as [-> | ->]; reflexivity. }
  assert (Hfreq : Task.frequency t = NONE).
  { subst t. unfold createTask, mbind, M_bind, mret, M_ret.
    cbn [generateId fst Task.frequency]. destruct Hf as [-> | ->]; reflexivity. }
  assert (Hend : Task.recurrenceEndedAt t = None) by reflexivity.
  clearbody t. exists t. split; [reflexivity|]. split; [exact Hdate|].
  assert (Ha : parseLocalTaskDate tz (Task.date t) = Some (UTC tz (Day cd * msPerDay))).
  { rewrite Hdate. now apply parse_formatDate_utc_day. }
  assert (Hall : ∀ d, isTaskActiveOnDate tz t d = true ↔ localDay tz d = Day cd).
  { intros d. destruct (isTaskActiveOnDate_open_days tz t _ d Hend Ha) as (_ & _ & Hone).
    rewrite (Hone Hfreq), localDay_UTC. reflexivity. }
  split; [exact Hall|apply Hall].
Qed.

End Dates.

Section Keys.
Variable tz : Z.

Lemma getFullYear_localDay d d' :
  localDay tz d = localDay tz d' → getFullYear tz d = getFullYear tz d'.
Proof. unfold getFullYear. now intros ->. Qed.

Lemma getMonth_localDay d d' :
  localDay tz d = localDay tz d' → getMonth tz d = getMonth tz d'.
Proof. unfold getMonth. now intros ->. Qed.

(** X24. The period key of a date is a function of its local day for the
    Weekly, Monthly and Yearly cadences and for no cadence, and of its
    UTC day for the Daily cadence; so is the status of a task on a
    date. *)
Theorem period_key_belongs_to_the_day d d' :
  (∀ f, f ≠ DAILY → localDay tz d = localDay tz d' →
        getPeriodKey tz d f = getPeriodKey tz d' f)
  ∧ (Day d = Day d' → getPeriodKey tz d DAILY = getPeriodKey tz d' DAILY)
  ∧ (∀ task, Task.frequency task ≠ DAILY → localDay tz d = localDay tz d' →
             getTaskStatus tz task d = getTaskStatus tz task d').
Proof.
  assert (Hkey : ∀ f, f ≠ DAILY → localDay tz d = localDay tz d' →
                      getPeriodKey tz d f = getPeriodKey tz d' f).
  { intros f Hf Hd. unfold getPeriodKey, DateFns.format_yyyy_MM.
    rewrite !getWeek_weekOfDay, Hd.
    rewrite (getFullYear_localDay d d' Hd), (getMonth_localDay d d' Hd).
    destruct f; [reflexivity|contradiction|reflexivity..]. }
  split; [exact Hkey|]. split.
  - intros Hd. unfold getPeriodKey, formatDate, utcCivil. now rewrite Hd.
  - intros task Hf Hd. unfold getTaskStatus.
    destruct (Task.frequency task) eqn:E; try reflexivity; try contradiction;
      now rewrite (Hkey _ Hf Hd).
Qed.

Lemma append_last_inj c (a a' : string) :
  a +:+ String c "" = a' +:+ String c "" → a = a'.
Proof.
  revert a'. induction a as [|x a IH]; intros [|x' a'] E.
  - reflexivity.
  - rewrite append_empty_l, append_cons in E. injection E as _ E.
    destruct a'; discriminate.
  - rewrite append_empty_l, append_cons in E. injection E as _ E.
    destruct a; discriminate.
  - rewrite !append_cons in E. injection E as -> E. f_equal. now apply IH.
Qed.

Lemma addLeadingZeros_nonneg n len :
  0 ≤ n → DateFns.addLeadingZeros n len = padStart0 len (StringOfNumber n).
Proof.
  intros Hn. unfold DateFns.addLeadingZeros.
  destruct (Z.ltb_spec n 0); [lia|]. rewrite append_empty_l.
  now rewrite Z.abs_eq.
Qed.

Lemma padStart0_inj k n m :
  0 ≤ n → 0 ≤ m →
  padStart0 k (StringOfNumber n) = padStart0 k (StringOfNumber m) → n = m.
Proof.
  intros Hn Hm E. pose proof (Number_padStart0 k n Hn) as H.
  rewrite E, Number_padStart0 in H by assumption. congruence.
Qed.

Lemma Day_of_utcCivil d d' : utcCivil d = utcCivil d' → Day d = Day d'.
Proof.
  unfold utcCivil. intros E.
  rewrite <- (days_from_civil_from_days (Day d)), <- (days_from_civil_from_days (Day d')).
  cbv zeta. now rewrite E.
Qed.

Lemma dashW_app (a b : string) :
  a +:+ "-W" +:+ b = (a +:+ String "-" "") +:+ String "W" b.
Proof. rewrite append_assoc. now rewrite !append_cons, !append_empty_l. Qed.

Lemma dash_app (a b : string) : a +:+ "-" +:+ b = a +:+ String "-" b.
Proof. now rewrite !append_cons, !append_empty_l. Qed.

(** X25. What equal period keys mean.  Equal Yearly keys: the same local
    year.  Equal Monthly keys, for years from 1 on: the same local year
    and month.  Equal Daily keys, for UTC years 0..9999: the same UTC day.
    Equal Weekly keys: the same local year and the same [getWeek] number,
    and no more than that.  They do not mean the same week: the key joins
    the calendar year of the date to a week number that, in the last days
    of December, is week 1 of the next year, so that 2 January 2024 and
    30 December 2024, 363 days apart, both have the key "2024-W1". *)
Theorem what_equal_period_keys_mean d d' :
  (getPeriodKey tz d YEARLY = getPeriodKey tz d' YEARLY →
   getFullYear tz d = getFullYear tz d')
  ∧ (getPeriodKey tz d MONTHLY = getPeriodKey tz d' MONTHLY →
     1 ≤ getFullYear tz d → 1 ≤ getFullYear tz d' →
     getFullYear tz d = getFullYear tz d' ∧ getMonth tz d = getMonth tz d')
  ∧ (getPeriodKey tz d DAILY = getPeriodKey tz d' DAILY →
     0 ≤ c_year (utcCivil d) ≤ 9999 → 0 ≤ c_year (utcCivil d') ≤ 9999 →
     Day d = Day d')
  ∧ (getPeriodKey tz d WEEKLY = getPeriodKey tz d' WEEKLY →
     getFullYear tz d = getFullYear tz d'
     ∧ DateFns.getWeek tz d = DateFns.getWeek tz d')
  ∧ (localDay tz d = days_from_civil 2024 1 2 →
     localDay tz d' = days_from_civil 2024 12 30 →
     getPeriodKey tz d WEEKLY = "2024-W1"
     ∧ getPeriodKey tz d' WEEKLY = "2024-W1"
     ∧ DateFns.startOfWeek tz 0 d ≠ DateFns.startOfWeek tz 0 d').
Proof.
  assert (HW : getPeriodKey tz d WEEKLY = getPeriodKey tz d' WEEKLY →
               getFullYear tz d = getFullYear tz d'
               ∧ DateFns.getWeek tz d = DateFns.getWeek tz d');
    [|split; [|split; [|split; [|split; [exact HW|]]]]].
  - cbn [getPeriodKey]. intros E.
    rewrite !(dashW_app _ _) in E.
    apply app_sep_inj in E as [E1 E2].
    + apply append_last_inj in E1.
      split; now apply StringOfNumber_inj.
    + rewrite includes_app, includes_StringOfNumber by (vm_compute; congruence).
      reflexivity.
    + rewrite includes_app, includes_StringOfNumber by (vm_compute; congruence).
      reflexivity.
  - cbn [getPeriodKey]. apply StringOfNumber_inj.
  - cbn [getPeriodKey]. unfold DateFns.format_yyyy_MM. intros E Hy Hy'.
    pose proof (getMonth_range tz d). pose proof (getMonth_range tz d').
    destruct (Z.ltb_spec 0 (getFullYear tz d)); [|lia].
    destruct (Z.ltb_spec 0 (getFullYear tz d')); [|lia].
    rewrite !addLeadingZeros_nonneg in E by lia.
    rewrite dash_app in E. rewrite (dash_app (padStart0 4 _)) in E.
    apply app_sep_inj in E as [E1 E2];
      try (apply includes_padStart0; [lia|reflexivity]).
    apply padStart0_inj in E1; [|lia..]. apply padStart0_inj in E2; [|lia..].
    split; lia.
  - cbn [getPeriodKey]. intros E Hy Hy'.
    destruct (utcCivil_valid d) as [Hm Hd]. destruct (utcCivil_valid d') as [Hm' Hd'].
    rewrite !formatDate_eq in E by assumption.
    apply app_sep_inj in E as [E1 E2];
      try (apply includes_padStart0; [lia|reflexivity]).
    apply app_sep_inj in E2 as [E2 E3];
      try (apply includes_padStart0; [lia|reflexivity]).
    apply padStart0_inj in E1; [|lia..]. apply padStart0_inj in E2; [|lia..].
    apply padStart0_inj in E3; [|lia..].
    apply Day_of_utcCivil. destruct (utcCivil d), (utcCivil d'). cbn in *. congruence.
  - clear HW. intros Hd Hd'. split; [|split].
    + unfold getPeriodKey, getFullYear. rewrite getWeek_weekOfDay, Hd.
      vm_compute. reflexivity.
    + unfold getPeriodKey, getFullYear. rewrite getWeek_weekOfDay, Hd'.
      vm_compute. reflexivity.
    + rewrite !DateFns_startOfWeek_day, Hd, Hd'. unfold UTC.
      set (a := sundayOf (days_from_civil 2024 1 2) * msPerDay).
      set (b := sundayOf (days_from_civil 2024 12 30) * msPerDay).
      assert (Hab : b = a + 31449600000) by (vm_compute; reflexivity).
      clearbody a b. lia.
Qed.

End Keys.

(* ===================================================================== *)
(** ** The frequency selector and the exchange of timestamps *)
(* ===================================================================== *)

Section FrequencyChange.
Variable tz : Z.

Lemma Day_UTC_end k :
  (0 ≤ tz < msPerDay → Day (UTC tz (k * msPerDay + (msPerDay - 1))) = k)
  ∧ (- msPerDay ≤ tz < 0 → Day (UTC tz (k * msPerDay + (msPerDay - 1))) = k + 1).
Proof. unfold Day, UTC, msPerDay. split; intros; zdiv. Qed.

Lemma Day_UTC_start k :
  (- msPerDay < tz ≤ 0 → Day (UTC tz (k * msPerDay)) = k)
  ∧ (0 < tz ≤ msPerDay → Day (UTC tz (k * msPerDay)) = k - 1).
Proof. unfold Day, UTC, msPerDay. split; intros; zdiv. Qed.

Lemma deadline_is_day_end a f :
  f = WEEKLY ∨ f = MONTHLY →
  getRecurrenceDeadline tz a f
  = UTC tz (localDay tz (getRecurrenceDeadline tz a f) * msPerDay + (msPerDay - 1)).
Proof.
  intros [-> | ->].
  - rewrite getRecurrenceDeadline_weekly, endOfWeek_day. now rewrite localDay_UTC_end.
  - rewrite getRecurrenceDeadline_monthly, endOfMonth_day. now rewrite localDay_UTC_end.
Qed.

Lemma deadline_is_anchor a f :
  f = DAILY ∨ f = YEARLY → getRecurrenceDeadline tz a f = a.
Proof. intros [-> | ->]; reflexivity. Qed.

(** X26. A change of the frequency selector to a cadence other than the
    form's, on a form whose date reads as [a], stores the new frequency
    and replaces the date by [formatDate] of the deadline of [a]: a text
    that reads back as the day with the UTC date of the deadline.  That
    day is the deadline's own local day (the Saturday of the week, the
    last day of the month) in the zones at or east of UTC, and the day
    after in the zones west of it; for the Daily and Yearly cadences,
    whose deadline is the anchor, it is the anchor in the zones at or
    west of UTC and the day before the anchor east of it. *)
Theorem handleFrequencyChange_moves_the_date fd newFreq s a w :
  Partial.date fd = Some s → s ≠ "" →
  parseLocalTaskDate tz s = Some a →
  newFreq ≠ NONE → Partial.frequency fd ≠ Some newFreq →
  100 ≤ c_year (utcCivil (getRecurrenceDeadline tz a newFreq)) ≤ 9999 →
  ∃ fd' a',
    (handleFrequencyChange tz fd newFreq w).1 = Some fd'
    ∧ Partial.frequency fd' = Some newFreq
    ∧ Partial.date fd' = Some (formatDate (getRecurrenceDeadline tz a newFreq))
    ∧ parseLocalTaskDate tz (formatDate (getRecurrenceDeadline tz a newFreq)) = Some a'
    ∧ localDay tz a' = Day (getRecurrenceDeadline tz a newFreq)
    ∧ (newFreq = WEEKLY ∨ newFreq = MONTHLY →
       (0 ≤ tz < msPerDay →
        localDay tz a' = localDay tz (getRecurrenceDeadline tz a newFreq))
       ∧ (- msPerDay ≤ tz < 0 →
          localDay tz a' = localDay tz (getRecurrenceDeadline tz a newFreq) + 1))
    ∧ (newFreq = DAILY ∨ newFreq = YEARLY →
       (- msPerDay < tz ≤ 0 → a' = a)
       ∧ (0 < tz ≤ msPerDay → localDay tz a' = localDay tz a - 1)).
Proof.
  intros Hd Hs Ha Hf Hne Hy.
  exists (withFrequencyAndDate fd newFreq
            (Some (formatDate (getRecurrenceDeadline tz a newFreq)))),
         (UTC tz (Day (getRecurrenceDeadline tz a newFreq) * msPerDay)).
  split.
  { unfold handleFrequencyChange.
    rewrite (bool_decide_eq_true_2 (newFreq ≠ NONE)) by assumption.
    rewrite (bool_decide_eq_true_2 (Some newFreq ≠ Partial.frequency fd)) by congruence.
    cbn [andb]. rewrite Hd. unfold orOptStr.
    destruct (String.eqb_spec s ""); [contradiction|].
    unfold mbind, M_bind, mret, M_ret. cbn [fst]. now rewrite Ha. }
  split; [reflexivity|]. split.
  { cbn [withFrequencyAndDate Partial.date orOptStr].
    destruct (String.eqb_spec (formatDate (getRecurrenceDeadline tz a newFreq)) "")
      as [E|_]; [|reflexivity].
    now apply formatDate_nonempty in E. }
  split; [now apply parse_formatDate_utc_day|].
  split; [apply localDay_UTC|]. rewrite localDay_UTC. split.
  - intros Hwm. rewrite (deadline_is_day_end a newFreq Hwm) at 1 3.
    destruct (Day_UTC_end (localDay tz (getRecurrenceDeadline tz a newFreq))) as [H1 H2].
    split; assumption.
  - intros Hdy. rewrite (deadline_is_anchor a newFreq Hdy).
    pose proof (parseLocalTaskDate_midnight tz _ _ Ha) as Hm.
    assert (Hmid : a = UTC tz (localDay tz a * msPerDay)) by (now rewrite <- Hm at 1).
    destruct (Day_UTC_start (localDay tz a)) as [H1 H2].
    rewrite Hmid at 1 3. split.
    + intros Htz. rewrite (H1 Htz). now rewrite <- Hmid.
    + exact H2.
Qed.

End FrequencyChange.

Section Exchange.

(** X27. A row of cells written with the quoting rule of the export is read
    back cell by cell by the loop that reads a line, whatever the cells
    hold: commas, double quotes and line feeds come back as they were,
    and a missing value comes back as the empty text. *)
Theorem exported_row_is_read_back_cell_by_cell (cells : list (option string)) :
  cells ≠ [] →
  parseLine (join "," (csvCell <$> cells)) [] "" false = cellText <$> cells.
Proof. intros H. now rewrite parseLine_row. Qed.

Lemma lookup_fillRecord_notin (k : string) hs vs (m : RawTask) :
  k ∉ hs → fillRecord hs vs m !! k = m !! k.
Proof.
  revert vs m. induction hs as [|h hs IH]; intros [|v vs] m Hk; try reflexivity.
  cbn [fillRecord]. apply not_elem_of_cons in Hk as [Hne Hk].
  rewrite IH by assumption. now rewrite lookup_insert_ne.
Qed.

Lemma lookup_fillRecord_head (h : string) hs v vs (m : RawTask) :
  h ∉ hs →
  fillRecord (h :: hs) (v :: vs) m !! h
  = Some (if isTimestampHeader h
          then (if String.eqb v "" then VUndefined else VNumber (Number v))
          else VString v).
Proof.
  intros Hh. cbn [fillRecord]. rewrite lookup_fillRecord_notin by assumption.
  apply lookup_insert_eq.
Qed.

Lemma timestamp_cell (x : option Z) :
  (if String.eqb (cellText (StringOfNumber <$> x)) ""
   then VUndefined else VNumber (Number (cellText (StringOfNumber <$> x))))
  = timestampValue x.
Proof.
  destruct x as [n|]; [|reflexivity]. cbn [fmap option_fmap option_map cellText].
  destruct (String.eqb_spec (StringOfNumber n) "") as [E|_].
  - now apply StringOfNumber_nonempty in E.
  - now rewrite Number_StringOfNumber.
Qed.

Lemma rawOfTask_members task :
  rawOfTask task !! "id" = Some (VString (Task.id task))
  ∧ rawOfTask task !! "createdAt" = Some (VNumber (Some (Task.createdAt task)))
  ∧ rawOfTask task !! "updatedAt" = Some (VNumber (Some (Task.updatedAt task)))
  ∧ rawOfTask task !! "completedAt" = Some (timestampValue (Task.completedAt task))
  ∧ rawOfTask task !! "recurrenceEndedAt"
    = Some (timestampValue (Task.recurrenceEndedAt task))
  ∧ rawOfTask task !! "history" = Some VEmptyArray
  ∧ rawOfTask task !! "completionHistory" = Some VEmptyObject.
Proof.
  pose proof (timestamp_cell (Some (Task.createdAt task))) as Hc.
  pose proof (timestamp_cell (Some (Task.updatedAt task))) as Hu.
  pose proof (timestamp_cell (Task.completedAt task)) as Hd.
  pose proof (timestamp_cell (Task.recurrenceEndedAt task)) as He.
  cbn [fmap option_fmap option_map cellText timestampValue] in Hc, Hu.
  unfold rawOfTask, csvHeaders. cbn [fmap list_fmap fillRecord].
  unfold taskMember, isTimestampHeader.
  cbn [String.eqb Ascii.eqb Bool.eqb orb cellText].
  rewrite Hc, Hu, Hd, He.
  repeat split;
    repeat (rewrite lookup_insert_eq || rewrite lookup_insert_ne by discriminate);
    reflexivity.
Qed.

Ltac look := rewrite ?lookup_insert_ne by discriminate; rewrite ?lookup_insert_eq.

Lemma normalizeImported_members (t : RawTask) w :
  (normalizeImported t w).1 !! "id" = Some (VString (rand w (nRand w)))
  ∧ (truthy (t !! "createdAt") = true →
     (normalizeImported t w).1 !! "createdAt" = t !! "createdAt")
  ∧ (∃ k, (nClock w ≤ k)%nat
          ∧ (normalizeImported t w).1 !! "updatedAt" = Some (VNumber (Some (clock w k))))
  ∧ (normalizeImported t w).1 !! "completedAt" = t !! "completedAt"
  ∧ (normalizeImported t w).1 !! "recurrenceEndedAt" = t !! "recurrenceEndedAt"
  ∧ (t !! "history" = Some VEmptyArray →
     (normalizeImported t w).1 !! "history" = Some VEmptyArray)
  ∧ (t !! "completionHistory" = Some VEmptyObject →
     (normalizeImported t w).1 !! "completionHistory" = Some VEmptyObject).
Proof.
  unfold normalizeImported, mbind, M_bind, mret, M_ret, generateId, DateNow.
  destruct (truthy (t !! "createdAt")) eqn:Ec; cbn [fst snd nClock clock rand nRand].
  - split; [now look|]. split.
    { intros _. look. destruct (t !! "createdAt"); [reflexivity|discriminate]. }
    split; [exists (nClock w); split; [lia|now look]|].
    split; [now look|]. split; [now look|].
    split; intros ->; now look.
  - split; [now look|]. split; [discriminate|].
    split; [exists (S (nClock w)); split; [lia|now look]|].
    split; [now look|]. split; [now look|].
    split; intros ->; now look.
Qed.

(** X28. The export followed by the import, for tasks whose texts hold no
    line feed: the stored record keeps a creation time other than 0, the
    completion time and the series end of the task; its id comes from the
    generator and its [updatedAt] from the clock at the import; its
    history and its ledger are empty, whatever the task had. *)
Theorem csv_round_trip_of_the_timestamps tasks w :
  Forall lineFeedFree tasks →
  Forall2 (λ task stored,
      (Task.createdAt task ≠ 0 →
       stored !! "createdAt" = Some (VNumber (Some (Task.createdAt task))))
      ∧ stored !! "completedAt"
        = Some (match Task.completedAt task with
                | Some n => VNumber (Some n)
                | None => VUndefined
                end)
      ∧ stored !! "recurrenceEndedAt"
        = Some (match Task.recurrenceEndedAt task with
                | Some n => VNumber (Some n)
                | None => VUndefined
                end)
      ∧ (∃ k, (nRand w ≤ k)%nat ∧ stored !! "id" = Some (VString (rand w k)))
      ∧ (∃ k, (nClock w ≤ k)%nat
              ∧ stored !! "updatedAt" = Some (VNumber (Some (clock w k))))
      ∧ stored !! "history" = Some VEmptyArray
      ∧ stored !! "completionHistory" = Some VEmptyObject)
    tasks (tasksWithIds (parseCSV (exportToCSV tasks)) w).1.
Proof.
  intros Hfree. rewrite (parseCSV_exportToCSV tasks Hfree). unfold tasksWithIds.
  pose proof (mapM_Forall2 normalizeImported (rawOfTask <$> tasks) w
                advances_normalizeImported) as H.
  apply Forall2_fmap_l in H. eapply Forall2_impl; [exact H|].
  intros task stored (w' & (Hr & Hc & Hnr & Hnc) & ->). cbn [compose].
  destruct (rawOfTask_members task) as (Hid & Hcr & Hup & Hco & Hen & Hh & Hl).
  destruct (normalizeImported_members (rawOfTask task) w')
    as (Nid & Ncr & (k & Hk & Nup) & Nco & Nen & Nh & Nl).
  split.
  { intros Hne. rewrite Ncr; [exact Hcr|]. rewrite Hcr. cbn [truthy].
    now destruct (Z.eqb_spec (Task.createdAt task) 0). }
  split; [now rewrite Nco, Hco|]. split; [now rewrite Nen, Hen|].
  split; [exists (nRand w'); split; [lia|now rewrite Nid, Hr]|].
  split; [exists k; split; [lia|now rewrite Nup, Hc]|].
  split; [now apply Nh|now apply Nl].
Qed.

End Exchange.

(* ===================================================================== *)
(** ** The months of the Year view *)
(* ===================================================================== *)

Section YearGrid.
Variable tz : Z.

Lemma MakeDay_index y mi d :
  0 ≤ mi ≤ 11 → MakeDay y mi d = days_from_civil y (mi + 1) d.
Proof.
  intros Hm. unfold MakeDay.
  replace (mi / 12) with 0 by zdiv. replace (mi mod 12) with mi by zdiv.
  replace (y + 0) with y by lia. rewrite (days_from_civil_linear y (mi + 1) d). lia.
Qed.

Lemma civil_of_midnight y mi d :
  0 ≤ mi ≤ 11 → 1 ≤ d ≤ 28 →
  civil_from_days (localDay tz (UTC tz (MakeDay y mi d * msPerDay)))
  = Civil y (mi + 1) d.
Proof.
  intros Hmi Hd. rewrite localDay_UTC, MakeDay_index by assumption.
  apply civil_from_days_from_civil.
  split; [lia|]. pose proof (days_in_month_pos y (mi + 1)). lia.
Qed.

(** The fields of [new Date(y, mi, d)] for a month index and a day that
    every month has. *)
Lemma newDateYMD_fields y mi d :
  0 ≤ mi ≤ 11 → 1 ≤ d ≤ 28 →
  getMonth tz (newDateYMD tz y mi d) = mi ∧ getDate tz (newDateYMD tz y mi d) = d.
Proof.
  intros Hmi Hd. unfold getMonth, getDate, newDateYMD.
  destruct ((0 <=? y) && (y <=? 99)); rewrite civil_of_midnight by assumption;
    cbn [c_month c_day]; split; lia.
Qed.

Lemma taskInView_year_frequency cd task :
  taskInView tz YEAR cd task = true →
  Task.frequency task = NONE ∨ Task.frequency task = YEARLY.
Proof.
  rewrite taskInView_eq. destruct (Task.frequency task); auto; discriminate.
Qed.

(** X29. Under a month of the Year view, fed with the tasks filtered for
    that view: a listed task has no recurrence or the Yearly cadence;
    a listed Yearly task has an anchor in that month of the year whose
    day is the 1st or the 28th, so that a Yearly task anchored on
    another day is listed under no month; a listed task without
    recurrence names the year and the month in its date text. *)
Theorem year_view_lists_yearly_tasks_of_day_1_or_28 tasks cd month t :
  t ∈ monthTasks tz (filteredTasks tz tasks YEAR cd) month →
  (Task.frequency t = NONE ∨ Task.frequency t = YEARLY)
  ∧ (Task.frequency t = YEARLY →
     ∃ a, parseLocalTaskDate tz (Task.date t) = Some a
          ∧ getMonth tz a = getMonth tz month
          ∧ (getDate tz a = 1 ∨ getDate tz a = 28))
  ∧ (Task.frequency t = NONE →
     ∃ y m rest, Number <$> split "-" (Task.date t) = Some y :: Some m :: rest
                 ∧ y = getFullYear tz month ∧ m - 1 = getMonth tz month).
Proof.
  unfold monthTasks, filteredTasks. intros Ht.
  apply list_elem_of_fmap in Ht as (t1 & -> & Ht1).
  apply list_elem_of_filter in Ht1 as [Hsel Ht1].
  apply list_elem_of_fmap in Ht1 as (t0 & -> & Ht0).
  apply list_elem_of_filter in Ht0 as [Hview _].
  cbn [withStatus Task.frequency Task.date] in *.
  pose proof (getMonth_range tz month) as Hmi.
  split; [now apply (taskInView_year_frequency cd)|]. split.
  - intros Hf. rewrite Hf in Hsel.
    change (isTaskActiveOnDate tz (withStatus t0 (getTaskStatus tz t0 cd)))
      with (isTaskActiveOnDate tz t0) in Hsel.
    apply orb_true_iff in Hsel as [Hact|Hact];
      (destruct (isTaskActiveOnDate_anchor tz t0 _ Hact) as (a & Ha & _ & Hc);
       [congruence|]; rewrite Hf in Hc; destruct Hc as [Hday Hmon];
       exists a; split; [exact Ha|]).
    + destruct (newDateYMD_fields (getFullYear tz month) (getMonth tz month) 1)
        as [Hm Hd]; [lia|lia|]. split; [congruence|left; congruence].
    + destruct (newDateYMD_fields (getFullYear tz month) (getMonth tz month) 28)
        as [Hm Hd]; [lia|lia|]. split; [congruence|right; congruence].
  - intros Hf. rewrite Hf in Hsel.
    destruct (Number <$> split "-" (Task.date t0)) as [|[y|] [|[m|] rest]];
      try discriminate.
    apply andb_true_iff in Hsel as [Hm Hy].
    apply Z.eqb_eq in Hm, Hy. eauto 6.
Qed.

End YearGrid.

(* ===================================================================== *)
(** ** Witnesses of the properties above *)
(* ===================================================================== *)

Lemma startOfWeek_is_the_week_start_witness :
  getDay 0 (startOfWeek 0 wednesday (Some 1)) = 1
  ∧ localDay 0 wednesday - 6 ≤ localDay 0 (startOfWeek 0 wednesday (Some 1))
      ≤ localDay 0 wednesday.
Proof.
  assert (H : 0 ≤ 1 ≤ 6) by lia.
  pose proof (startOfWeek_is_the_week_start 0 wednesday 1 H) as P. cbv zeta in P.
  destruct P as (_ & Hd & Hr & _). split; [exact Hd | exact Hr].
Defined.

Lemma open_series_occurrences_witness :
  isTaskActiveOnDate 0 weeklyTask (newDateYMD 0 2024 0 17) = true
  ∧ isTaskActiveOnDate 0 weeklyTask (newDateYMD 0 2024 0 18) ≠ true.
Proof.
  assert (He : Task.recurrenceEndedAt weeklyTask = None) by reflexivity.
  assert (Ha : parseLocalTaskDate 0 (Task.date weeklyTask) = Some 1704240000000)
    by (vm_compute; reflexivity).
  destruct (open_series_occurrences 0 weeklyTask 1704240000000 He Ha) as (_ & Hw & _).
  specialize (Hw eq_refl). split.
  - apply Hw. split; [vm_compute; discriminate | vm_compute; reflexivity].
  - intros Hact. apply Hw in Hact as [_ Hmod]. vm_compute in Hmod. discriminate.
Defined.

Lemma ended_series_is_served_through_its_end_day_witness :
  isTaskActiveOnDate 0 endedTask (newDateYMD 0 2024 0 3)
  = isTaskActiveOnDate 0 weeklyTask (newDateYMD 0 2024 0 3).
Proof.
  destruct (ended_series_is_served_through_its_end_day 0 endedTask weeklyTask
              1704300000000 eq_refl eq_refl eq_refl eq_refl) as [H _].
  apply H. vm_compute. discriminate.
Defined.

Lemma one_occurrence_per_period_witness :
  localDay 0 (newDateYMD 0 2024 0 31) = localDay 0 (newDateYMD 0 2024 0 31 + 3600000).
Proof.
  assert (H1 : isTaskActiveOnDate 0 monthlyTask (newDateYMD 0 2024 0 31) = true)
    by (vm_compute; reflexivity).
  assert (H2 : isTaskActiveOnDate 0 monthlyTask (newDateYMD 0 2024 0 31 + 3600000) = true)
    by (vm_compute; reflexivity).
  pose proof (one_occurrence_per_period 0 monthlyTask (newDateYMD 0 2024 0 31)
                (newDateYMD 0 2024 0 31 + 3600000) H1 H2) as P.
  apply P; vm_compute; reflexivity.
Defined.

Lemma week_view_shows_weekly_from_the_anchor_week_witness :
  taskInView 0 WEEK wednesday weeklyTask = true.
Proof.
  assert (Ha : parseLocalTaskDate 0 (Task.date weeklyTask) = Some 1704240000000)
    by (vm_compute; reflexivity).
  apply (week_view_shows_weekly_from_the_anchor_week 0 wednesday weeklyTask
           1704240000000 eq_refl eq_refl Ha).
  vm_compute. discriminate.
Defined.

Lemma calendar_grid_is_whole_weeks_witness :
  ∃ m, calendarDays 0 WEEK wednesday = (λ n, UTC 0 (n * msPerDay)) <$> seqZ m 7
       ∧ (m + 4) mod 7 = 1.
Proof.
  assert (H : WEEK = WEEK ∨ WEEK = MONTH) by (left; reflexivity).
  destruct (calendar_grid_is_whole_weeks 0 WEEK wednesday H)
    as (m & len & Hcal & Hmon & _ & Hw & _).
  exists m. rewrite (Hw eq_refl) in Hcal. split; [exact Hcal | exact Hmon].
Defined.

Lemma year_view_lists_yearly_tasks_of_day_1_or_28_witness :
  ∃ a, parseLocalTaskDate 0 (Task.date auditTask) = Some a
       ∧ getMonth 0 a = 1
       ∧ (getDate 0 a = 1 ∨ getDate 0 a = 28).
Proof.
  assert (Hin : withStatus auditTask TODO
                ∈ monthTasks 0 (filteredTasks 0 [yearlyTask; auditTask] YEAR wednesday)
                    (newDateYMD 0 2024 1 1)).
  { assert (E : monthTasks 0 (filteredTasks 0 [yearlyTask; auditTask] YEAR wednesday)
                  (newDateYMD 0 2024 1 1) = [withStatus auditTask TODO])
      by (vm_compute; reflexivity).
    rewrite E. apply list_elem_of_singleton. reflexivity. }
  destruct (year_view_lists_yearly_tasks_of_day_1_or_28 0 [yearlyTask; auditTask]
              wednesday (newDateYMD 0 2024 1 1) (withStatus auditTask TODO) Hin)
    as (_ & Hy & _).
  destruct (Hy eq_refl) as (a & Ha & Hm & Hd).
  exists a. split; [exact Ha|]. split; [|exact Hd].
  rewrite Hm. vm_compute. reflexivity.
Defined.

Lemma handleSaveTask_appends_a_new_task_witness :
  ∃ t, (handleSaveTask [dailyTask] None wednesday Partial.empty world0).1
       = [dailyTask; t]
       ∧ Task.id t = "h0" ∧ Task.history t = [] ∧ Task.title t ≠ "".
Proof.
  destruct (handleSaveTask_appends_a_new_task [dailyTask] None wednesday Partial.empty
              world0 eq_refl)
    as (t & Hres & Hid & _ & _ & Hh & _ & _ & Ht & _).
  exists t. split; [exact Hres|]. split; [exact Hid|]. split; [exact Hh | exact Ht].
Defined.

Lemma handleSaveTask_touches_the_edited_id_only_witness :
  (handleSaveTask [dailyTask; endedTask] (Some (partialOfTask dailyTask)) wednesday
     Partial.empty world0).1 !! 1%nat = Some endedTask.
Proof.
  destruct (handleSaveTask_touches_the_edited_id_only [dailyTask; endedTask]
              (Some (partialOfTask dailyTask)) wednesday Partial.empty world0 "t1"
              eq_refl) as (_ & Hother & _).
  apply Hother; [reflexivity | discriminate].
Defined.


Lemma unchanged_form_saves_nothing_but_the_period_status_witness :
  ∃ t',
    (saveForm 0 [noteTask] (Some (partialOfTask noteTask)) wednesday
       (formOfTask 0 noteTask wednesday) wednesday world0).1 !! 0%nat = Some t'
    ∧ Task.title t' = Task.title noteTask
    ∧ Task.history t' = Task.history noteTask.
Proof.
  assert (Hid : Task.id noteTask ≠ "") by discriminate.
  destruct (unchanged_form_saves_nothing_but_the_period_status 0 [noteTask] wednesday
              wednesday world0 0%nat noteTask eq_refl Hid)
    as (t' & Hlook & _ & Ht & _ & _ & _ & _ & _ & _ & _ & _ & _ & _ & Hh).
  exists t'. split; [exact Hlook|]. split; [exact Ht|]. now apply Hh.
Defined.


Lemma saveForm_records_the_period_status_witness :
  ∃ t',
    (saveForm 0 [weeklyTask] (Some (partialOfTask weeklyTask)) wednesday
       (withSeriesFields (formOfTask 0 weeklyTask (newDateYMD 0 2024 0 17)) DONE
          Undefined (Given (<["2024-W2" := DONE]> ∅)))
       (newDateYMD 0 2024 0 17) world0).1 !! 0%nat = Some t'
    ∧ getTaskStatus 0 t' (newDateYMD 0 2024 0 17) = DONE
    ∧ getTaskStatus 0 t' (newDateYMD 0 2024 0 24) = TODO.
Proof.
  assert (Hrec : WEEKLY ≠ NONE) by discriminate.
  destruct (saveForm_records_the_period_status 0 [weeklyTask]
              (Some (partialOfTask weeklyTask)) wednesday
              (withSeriesFields (formOfTask 0 weeklyTask (newDateYMD 0 2024 0 17)) DONE
                 Undefined (Given (<["2024-W2" := DONE]> ∅)))
              (newDateYMD 0 2024 0 17) world0 "t8" 0%nat weeklyTask WEEKLY DONE
              eq_refl eq_refl eq_refl eq_refl Hrec eq_refl)
    as (t' & Hlook & _ & Hctx & _ & Hother & _).
  exists t'. split; [exact Hlook|]. split; [exact Hctx|].
  rewrite Hother; [vm_compute; reflexivity | vm_compute; discriminate].
Defined.

Lemma resumeSeries_reopens_the_series_witness :
  ∃ t',
    (resumeSeries [endedTask] (Some (partialOfTask endedTask)) wednesday
       (formOfTask 0 endedTask wednesday) world0).1 !! 0%nat = Some t'
    ∧ Task.recurrenceEndedAt t' = None
    ∧ Task.status t' = TODO
    ∧ isTaskActiveOnDate 0 t' wednesday = isTaskActiveOnDate 0 weeklyTask wednesday.
Proof.
  assert (Hid : Task.id endedTask ≠ "") by discriminate.
  destruct (resumeSeries_reopens_the_series 0 [endedTask] wednesday wednesday world0
              0%nat endedTask eq_refl Hid)
    as (t' & Hlook & He & Hs & _ & _ & Hact & _).
  exists t'. split; [exact Hlook|]. split; [exact He|]. split; [exact Hs|].
  apply Hact; reflexivity.
Defined.


Lemma formatDate_reads_back_as_the_utc_day_witness :
  parseLocalTaskDate 3600000 (formatDate wednesday)
  = Some (UTC 3600000 (Day wednesday * msPerDay)).
Proof.
  destruct (formatDate_reads_back_as_the_utc_day 3600000 wednesday) as [H _].
  apply H. assert (E : c_year (utcCivil wednesday) = 2024) by (vm_compute; reflexivity).
  rewrite E. lia.
Defined.

Lemma created_task_is_dated_by_the_utc_day_witness :
  ∃ t, (handleSaveTask [] None (wednesday - 1800000) Partial.empty world0).1 = [] ++ [t]
       ∧ Task.date t = "2024-01-09"
       ∧ isTaskActiveOnDate 3600000 t (wednesday - 1800000) ≠ true.
Proof.
  assert (Hd : Partial.date Partial.empty = None ∨ Partial.date Partial.empty = Some "")
    by (left; reflexivity).
  assert (Hf : Partial.frequency Partial.empty = None
               ∨ Partial.frequency Partial.empty = Some NONE) by (left; reflexivity).
  assert (Hy : 100 ≤ c_year (utcCivil (wednesday - 1800000)) ≤ 9999).
  { assert (E : c_year (utcCivil (wednesday - 1800000)) = 2024)
      by (vm_compute; reflexivity).
    rewrite E. lia. }
  destruct (created_task_is_dated_by_the_utc_day 3600000 [] None (wednesday - 1800000)
              Partial.empty world0 eq_refl Hd Hf Hy)
    as (t & Hres & Hdate & _ & Hcd).
  exists t. split; [exact Hres|]. split.
  - rewrite Hdate. vm_compute. reflexivity.
  - intros Hact. apply Hcd in Hact. vm_compute in Hact. discriminate.
Defined.

Lemma handleFrequencyChange_moves_the_date_witness :
  ∃ fd' a',
    (handleFrequencyChange 3600000 (partialOfTask noteTask) DAILY world0).1 = Some fd'
    ∧ Partial.frequency fd' = Some DAILY
    ∧ Partial.date fd' = Some "2024-01-02"
    ∧ parseLocalTaskDate 3600000 "2024-01-02" = Some a'
    ∧ localDay 3600000 a' = localDay 3600000 1704236400000 - 1.
Proof.
  assert (Hs : "2024-01-03" ≠ "") by discriminate.
  assert (Ha : parseLocalTaskDate 3600000 "2024-01-03" = Some 1704236400000)
    by (vm_compute; reflexivity).
  assert (Hf : DAILY ≠ NONE) by discriminate.
  assert (Hne : Partial.frequency (partialOfTask noteTask) ≠ Some DAILY) by discriminate.
  assert (Hy : 100 ≤ c_year (utcCivil (getRecurrenceDeadline 3600000 1704236400000 DAILY))
               ≤ 9999).
  { assert (E : c_year (utcCivil (getRecurrenceDeadline 3600000 1704236400000 DAILY))
                = 2024) by (vm_compute; reflexivity).
    rewrite E. lia. }
  assert (Hfmt : formatDate (getRecurrenceDeadline 3600000 1704236400000 DAILY)
                 = "2024-01-02") by (vm_compute; reflexivity).
  destruct (handleFrequencyChange_moves_the_date 3600000 (partialOfTask noteTask) DAILY
              "2024-01-03" 1704236400000 world0 eq_refl Hs Ha Hf Hne Hy)
    as (fd' & a' & Hres & Hfr & Hdate & Hparse & _ & _ & Hdy).
  exists fd', a'. split; [exact Hres|]. split; [exact Hfr|].
  rewrite Hfmt in Hdate, Hparse. split; [exact Hdate|]. split; [exact Hparse|].
  destruct Hdy as [_ Heast]; [left; reflexivity|].
  apply Heast. unfold msPerDay. lia.
Defined.

Lemma exported_row_is_read_back_cell_by_cell_witness :
  parseLine
    (join "," (csvCell <$> [Some ("a, b" +:+ String LF "c"); None;
                            Some (String DQUOTE "q")]))
    [] "" false
  = ["a, b" +:+ String LF "c"; ""; String DQUOTE "q"].
Proof.
  assert (H : [Some ("a, b" +:+ String LF "c"); None; Some (String DQUOTE "q")] ≠ [])
    by discriminate.
  exact (exported_row_is_read_back_cell_by_cell _ H).
Defined.

Lemma csv_round_trip_of_the_timestamps_witness :
  ∃ stored,
    (tasksWithIds (parseCSV (exportToCSV [endedTask])) world0).1 = [stored]
    ∧ stored !! "createdAt" = Some (VNumber (Some 1704067200000))
    ∧ stored !! "completedAt" = Some VUndefined
    ∧ stored !! "recurrenceEndedAt" = Some (VNumber (Some 1704300000000))
    ∧ stored !! "history" = Some VEmptyArray.
Proof.
  assert (Hfree : Forall lineFeedFree [endedTask]).
  { constructor; [|constructor].
    unfold lineFeedFree. split; [|split; [|split]]; vm_compute; reflexivity. }
  pose proof (csv_round_trip_of_the_timestamps [endedTask] world0 Hfree) as H.
  apply Forall2_cons_inv_l in H as (stored & rest & (Hc & Hd & He & _ & _ & Hh & _) & Hr & ->).
  apply Forall2_nil_inv_l in Hr as ->.
  exists stored. split; [reflexivity|].
  split; [apply Hc; discriminate|]. split; [exact Hd|]. split; [exact He | exact Hh].
Defined.

Lemma period_key_belongs_to_the_day_witness :
  getPeriodKey 0 wednesday MONTHLY = getPeriodKey 0 (wednesday + 3600000) MONTHLY.
Proof.
  destruct (period_key_belongs_to_the_day 0 wednesday (wednesday + 3600000))
    as (H & _ & _).
  apply H; [discriminate | vm_compute; reflexivity].
Defined.

Lemma what_equal_period_keys_mean_witness :
  (getFullYear 0 (newDateYMD 0 2024 0 2) = getFullYear 0 (newDateYMD 0 2024 11 30)
   ∧ DateFns.getWeek 0 (newDateYMD 0 2024 0 2)
     = DateFns.getWeek 0 (newDateYMD 0 2024 11 30))
  ∧ (getPeriodKey 0 (newDateYMD 0 2024 0 2) WEEKLY = "2024-W1"
     ∧ getPeriodKey 0 (newDateYMD 0 2024 11 30) WEEKLY = "2024-W1"
     ∧ DateFns.startOfWeek 0 0 (newDateYMD 0 2024 0 2)
       ≠ DateFns.startOfWeek 0 0 (newDateYMD 0 2024 11 30))
  ∧ (getFullYear 0 wednesday = getFullYear 0 (wednesday + 3600000)
     ∧ getMonth 0 wednesday = getMonth 0 (wednesday + 3600000)).
Proof.
  destruct (what_equal_period_keys_mean 0 (newDateYMD 0 2024 0 2)
              (newDateYMD 0 2024 11 30)) as (_ & _ & _ & HW & HC).
  destruct (what_equal_period_keys_mean 0 wednesday (wednesday + 3600000))
    as (_ & HM & _).
  split; [|split].
  - apply HW. vm_compute. reflexivity.
  - apply HC; vm_compute; reflexivity.
  - apply HM; [vm_compute; reflexivity | vm_compute; discriminate
              | vm_compute; discriminate].
Defined.

Lemma handleDragEnd_changes_nothing_twice_witness :
  (handleDragEnd [dailyTask] {| active_id := "t1"; over_id := Some "nowhere" |} world0).1
  = [dailyTask].
Proof.
  destruct (handleDragEnd_changes_nothing_twice [dailyTask]
              {| active_id := "t1"; over_id := Some "nowhere" |} world0 world0)
    as [H _].
  apply H. right. right. left. exists "nowhere".
  split; [reflexivity|]. split; vm_compute; reflexivity.
Defined.
